(** * notion-exporter: block conversion, hierarchy discovery and export

    A shallow embedding of the conversion engine ([markdown_converter.py]),
    the hierarchy builder ([hierarchy.py]) and the materializer
    ([exporter.py]), together with the properties the specification states
    about them.

    Conventions of the embedding.
    - A Python [str] is a [string]; one [ascii] stands for one character, so
      [String.length] is Python's [len] (characters with code point below
      256 are covered).
    - A JSON object read with [d.get(k)] / [d.get(k, default)] is a record
      whose fields are options: [None] is the absent key, and the default of
      the source is applied where the source applies it.  Objects are
      assumed to carry values of the kind the Notion API documents (a
      [rich_text] is a list of objects, a [url] is a string, ...).
    - A Python [dict] or [set] used as a map or a set is a [gmap] or a
      [gset]; mutation of [self] or of a dictionary passed by reference is
      explicit state passing: the function returns the new value.
    - A function that an exception can leave returns a [Result]; what it
      changed before the exception is kept in the state it returns.
      Whether a call to the operating system raises, and what it leaves
      behind when it does, is given by the [Surroundings] of a run.
    - Lines the program prints are part of the state where a property
      speaks of them (the warnings of the hierarchy builder); a call of
      [print] is taken to return. *)

From Stdlib Require Import ZArith Ascii List.
From Stdlib Require String.
From stdpp Require Import base tactics option list gmap sets strings pretty.

(** ** Python string helpers *)

Module Py.

(** Truth value of a string: only the empty string is false. *)
Definition truthy (s : string) : bool :=
  match s with
  | EmptyString => false
  | String _ _ => true
  end.

(** Truth value of an optional string ([None] or the empty string are
    false). *)
Definition truthy_opt (o : option string) : bool :=
  match o with
  | None => false
  | Some s => truthy s
  end.

(** [a or b] on optional strings. *)
Definition or_else (a b : option string) : option string :=
  if truthy_opt a then a else b.

(** The line feed character and the one-character string holding it. *)
Definition lf : ascii := ascii_of_nat 10.
Definition nl : string := String lf EmptyString.

(** [s * n]. *)
Fixpoint repeat (s : string) (n : nat) : string :=
  match n with
  | O => ""
  | S n' => s +:+ repeat s n'
  end.

(** [str(x)] for [None] and for a string. *)
Definition str_opt (o : option string) : string :=
  match o with
  | None => "None"
  | Some s => s
  end.

(** Characters for which [str.isspace] holds and which the regular
    expression class [\s] matches. *)
Definition isspace (c : ascii) : bool :=
  let n := nat_of_ascii c in
  ((9 <=? n)%nat && (n <=? 13)%nat) || ((28 <=? n)%nat && (n <=? 32)%nat)
  || (n =? 133)%nat || (n =? 160)%nat.

(** [s.lstrip(chars)], [s.rstrip(chars)] and [s.strip(chars)] for a set of
    characters given as a predicate. *)
Fixpoint lstrip (p : ascii → bool) (s : string) : string :=
  match s with
  | EmptyString => EmptyString
  | String c s' => if p c then lstrip p s' else s
  end.

Fixpoint rstrip (p : ascii → bool) (s : string) : string :=
  match s with
  | EmptyString => EmptyString
  | String c s' =>
      match rstrip p s' with
      | EmptyString => if p c then EmptyString else String c EmptyString
      | r => String c r
      end
  end.

Definition strip (p : ascii → bool) (s : string) : string :=
  rstrip p (lstrip p s).

(** [s[:n]]. *)
Fixpoint take (n : nat) (s : string) : string :=
  match n, s with
  | O, _ => EmptyString
  | _, EmptyString => EmptyString
  | S n', String c s' => String c (take n' s')
  end.

End Py.

(** ** Inline spans ([markdown_converter.py], [convert_rich_text]) *)

(** The [annotations] object of a span.  The source tests each flag with
    [annotations.get(flag)], so an absent flag and a false flag are the same
    [false] here. *)
Record Annotations := {
  ann_code : bool;
  ann_bold : bool;
  ann_italic : bool;
  ann_strikethrough : bool
}.

Definition no_annotations : Annotations :=
  {| ann_code := false; ann_bold := false; ann_italic := false;
     ann_strikethrough := false |}.

(** One rich text object.  [rt_text_link_url] is [text.link.url]: it is
    [None] when [text] has no [link], when the link is null or empty, and
    when the link has no [url]. *)
Record RichText := {
  rt_type : option string;
  rt_text_content : option string;
  rt_text_link_url : option string;
  rt_mention_type : option string;
  rt_equation_expression : option string;
  rt_plain_text : option string;
  rt_annotations : Annotations;
  rt_href : option string
}.

Definition opt_is (o : option string) (s : string) : bool :=
  match o with
  | Some x => String.eqb x s
  | None => false
  end.

(** The display text and the link carried by the text node, by span kind. *)
Definition span_content (text_obj : RichText) : string * option string :=
  let text_type := default "text" (rt_type text_obj) in
  if String.eqb text_type "text" then
    (default "" (rt_text_content text_obj), rt_text_link_url text_obj)
  else if String.eqb text_type "mention" then
    let mention_type := rt_mention_type text_obj in
    let content :=
      if opt_is mention_type "user" then
        "@" +:+ default "user" (rt_plain_text text_obj)
      else if opt_is mention_type "page" then
        default "[page]" (rt_plain_text text_obj)
      else if opt_is mention_type "database" then
        default "[database]" (rt_plain_text text_obj)
      else if opt_is mention_type "date" then
        default "[date]" (rt_plain_text text_obj)
      else
        default "[mention]" (rt_plain_text text_obj) in
    (content, None)
  else if String.eqb text_type "equation" then
    ("$" +:+ default "" (rt_equation_expression text_obj) +:+ "$", None)
  else
    (default "" (rt_plain_text text_obj), None).

(** The body of the loop of [convert_rich_text]: the rendering of one
    span. *)
Definition convert_span (text_obj : RichText) : string :=
  let '(content, link) := span_content text_obj in
  let annotations := rt_annotations text_obj in
  let content := if ann_code annotations then "`" +:+ content +:+ "`" else content in
  let content := if ann_bold annotations then "**" +:+ content +:+ "**" else content in
  let content := if ann_italic annotations then "*" +:+ content +:+ "*" else content in
  let content :=
    if ann_strikethrough annotations then "~~" +:+ content +:+ "~~" else content in
  let href := Py.or_else (rt_href text_obj) link in
  if Py.truthy_opt href then
    "[" +:+ content +:+ "](" +:+ Py.str_opt href +:+ ")"
  else content.

Definition convert_rich_text (rich_text_array : list RichText) : string :=
  match rich_text_array with
  | [] => ""
  | _ => String.concat "" (map convert_span rich_text_array)
  end.

(** A plain text span, as the API sends it. *)
Definition text_span (content : string) (a : Annotations) : RichText :=
  {| rt_type := Some "text"; rt_text_content := Some content;
     rt_text_link_url := None; rt_mention_type := None;
     rt_equation_expression := None; rt_plain_text := Some content;
     rt_annotations := a; rt_href := None |}.


(** ** Blocks ([markdown_converter.py]) *)

(** The type-specific object of a block ([block["paragraph"]],
    [block["image"]], ...), with the fields the converter reads.
    [p_icon_type] and [p_icon_emoji] are [icon.type] and [icon.emoji];
    [p_external_url] and [p_file_url] are [external.url] and [file.url]. *)
Record Payload := {
  p_rich_text : option (list RichText);
  p_checked : option bool;
  p_language : option string;
  p_icon_type : option string;
  p_icon_emoji : option string;
  p_cells : option (list (list RichText));
  p_has_column_header : option bool;
  p_has_row_header : option bool;
  p_type : option string;
  p_external_url : option string;
  p_file_url : option string;
  p_caption : option (list RichText);
  p_url : option string;
  p_expression : option string;
  p_title : option string
}.

(** The empty object [{}]. *)
Definition empty_payload : Payload :=
  {| p_rich_text := None; p_checked := None; p_language := None;
     p_icon_type := None; p_icon_emoji := None; p_cells := None;
     p_has_column_header := None; p_has_row_header := None; p_type := None;
     p_external_url := None; p_file_url := None; p_caption := None;
     p_url := None; p_expression := None; p_title := None |}.

(** A block: its [type], its [id], and its type-specific objects by key. *)
Record Block := {
  b_type : option string;
  b_id : option string;
  b_fields : gmap string Payload
}.

(** [block.get(key, {})]. *)
Definition payload (block : Block) (key : string) : Payload :=
  default empty_payload (b_fields block !! key).

Record UnsupportedFeature := {
  uf_block_type : option string;
  uf_feature : string;
  uf_block_id : string
}.

Record MarkdownConverter := {
  unsupported_features : list UnsupportedFeature;
  track_skipped_databases : bool
}.

Definition add_unsupported (self : MarkdownConverter)
    (block_type : option string) (feature block_id : string) : MarkdownConverter :=
  {| unsupported_features :=
       unsupported_features self ++
       [{| uf_block_type := block_type; uf_feature := feature;
           uf_block_id := block_id |}];
     track_skipped_databases := track_skipped_databases self |}.

Definition rich_text_of (p : Payload) : list RichText :=
  default [] (p_rich_text p).

Definition convert_paragraph (block : Block) : string :=
  convert_rich_text (rich_text_of (payload block "paragraph")).

Definition convert_heading (block : Block) (level : nat) : string :=
  let heading_key := "heading_" +:+ pretty level in
  let text := convert_rich_text (rich_text_of (payload block heading_key)) in
  Py.repeat "#" level +:+ " " +:+ text.

Definition convert_bulleted_list_item (block : Block) : string :=
  "- " +:+ convert_rich_text (rich_text_of (payload block "bulleted_list_item")).

Definition convert_numbered_list_item (block : Block) (number : Z) : string :=
  let text := convert_rich_text (rich_text_of (payload block "numbered_list_item")) in
  pretty number +:+ ". " +:+ text.

Definition convert_to_do (block : Block) : string :=
  let todo := payload block "to_do" in
  let checked := default false (p_checked todo) in
  let text := convert_rich_text (rich_text_of todo) in
  let checkbox := if checked then "[x]" else "[ ]" in
  "- " +:+ checkbox +:+ " " +:+ text.

Definition convert_toggle (block : Block) : string :=
  "**" +:+ convert_rich_text (rich_text_of (payload block "toggle")) +:+ "**".

Definition convert_code (block : Block) : string :=
  let code := payload block "code" in
  let language := default "" (p_language code) in
  let code_text :=
    String.concat "" (map (λ text_obj, default "" (rt_plain_text text_obj))
                          (rich_text_of code)) in
  "```" +:+ language +:+ Py.nl +:+ code_text +:+ Py.nl +:+ "```".

Definition convert_quote (block : Block) : string :=
  "> " +:+ convert_rich_text (rich_text_of (payload block "quote")).

Definition convert_callout (block : Block) : string :=
  let callout := payload block "callout" in
  let icon_str :=
    if opt_is (p_icon_type callout) "emoji"
    then default "" (p_icon_emoji callout) else "" in
  let text := convert_rich_text (rich_text_of callout) in
  Py.strip Py.isspace ("> " +:+ icon_str +:+ " " +:+ text).

Definition convert_divider (block : Block) : string := "---".

Definition convert_table_row (block : Block) : list string :=
  map convert_rich_text (default [] (p_cells (payload block "table_row"))).

(** The padding loop of [convert_table]: append empty cells up to
    [col_count]. *)
Definition pad_row (col_count : nat) (row : list string) : list string :=
  row ++ replicate (col_count - length row) "".

Definition table_line (cells : list string) : string :=
  "| " +:+ String.concat " | " cells +:+ " |".

Definition convert_table (block : Block) (rows : list Block) : string :=
  match rows with
  | [] => ""
  | _ =>
    let table := payload block "table" in
    let has_column_header := default false (p_has_column_header table) in
    let all_rows := map convert_table_row rows in
    match all_rows with
    | [] => ""
    | _ =>
      let col_count := max_list (map length all_rows) in
      let all_rows := map (pad_row col_count) all_rows in
      let separator := "|" +:+ String.concat "|" (replicate col_count "---") +:+ "|" in
      let '(result, data_rows) :=
        match has_column_header, all_rows with
        | true, header :: rest => ([table_line header; separator], rest)
        | _, _ =>
          ([table_line (map (λ i : nat, "Column " +:+ pretty (i + 1)%nat)
                            (seq 0 col_count));
            separator], all_rows)
        end in
      String.concat Py.nl (result ++ map table_line data_rows)
    end
  end.

(** The URL of an image or file object: taken from [external] or [file]
    according to the object's own [type]. *)
Definition resolve_url (p : Payload) : string :=
  if opt_is (p_type p) "external" then default "" (p_external_url p)
  else if opt_is (p_type p) "file" then default "" (p_file_url p)
  else "".

(** [convert_rich_text(caption) if caption else fallback]. *)
Definition caption_or (p : Payload) (fallback : string) : string :=
  match default [] (p_caption p) with
  | [] => fallback
  | caption => convert_rich_text caption
  end.

(** [convert_block]: the fragment, the supported flag, the converter after
    the call (its log of unsupported features may have grown) and the
    numbering dictionary after the call.  A call without [list_counter]
    is a call with the empty dictionary. *)
Definition convert_block (self : MarkdownConverter) (block : Block)
    (list_counter : gmap string Z)
  : (string * bool) * MarkdownConverter * gmap string Z :=
  let block_type := b_type block in
  let block_id := default "unknown" (b_id block) in
  if opt_is block_type "paragraph" then
    ((convert_paragraph block, true), self, list_counter)
  else if opt_is block_type "heading_1" then
    ((convert_heading block 1, true), self, list_counter)
  else if opt_is block_type "heading_2" then
    ((convert_heading block 2, true), self, list_counter)
  else if opt_is block_type "heading_3" then
    ((convert_heading block 3, true), self, list_counter)
  else if opt_is block_type "bulleted_list_item" then
    ((convert_bulleted_list_item block, true), self, list_counter)
  else if opt_is block_type "numbered_list_item" then
    let number :=
      match list_counter !! "numbered" with
      | None => 1%Z
      | Some n => (n + 1)%Z
      end in
    let list_counter := <["numbered" := number]> list_counter in
    ((convert_numbered_list_item block number, true), self, list_counter)
  else if opt_is block_type "to_do" then
    ((convert_to_do block, true), self, list_counter)
  else if opt_is block_type "toggle" then
    ((convert_toggle block, true), self, list_counter)
  else if opt_is block_type "code" then
    ((convert_code block, true), self, list_counter)
  else if opt_is block_type "quote" then
    ((convert_quote block, true), self, list_counter)
  else if opt_is block_type "callout" then
    ((convert_callout block, true), self, list_counter)
  else if opt_is block_type "divider" then
    ((convert_divider block, true), self, list_counter)
  else if opt_is block_type "child_page" then
    (("", true), self, list_counter)
  else if opt_is block_type "child_database" then
    let self :=
      if track_skipped_databases self
      then add_unsupported self (Some "child_database") "not_exported" block_id
      else self in
    (("", true), self, list_counter)
  else if opt_is block_type "table" then
    (("", true), self, list_counter)
  else if opt_is block_type "table_row" then
    (("", true), self, list_counter)
  else if opt_is block_type "image" then
    let image := payload block "image" in
    let url := resolve_url image in
    let caption_text := caption_or image "image" in
    if Py.truthy url then
      (("![" +:+ caption_text +:+ "](" +:+ url +:+ ")", true), self, list_counter)
    else
      (("[Image: " +:+ caption_text +:+ "]", false),
       add_unsupported self (Some "image") "no_url" block_id, list_counter)
  else if opt_is block_type "file" then
    let file := payload block "file" in
    let url := resolve_url file in
    let caption_text := caption_or file "file" in
    if Py.truthy url then
      (("[" +:+ caption_text +:+ "](" +:+ url +:+ ")", true), self, list_counter)
    else
      (("[File: " +:+ caption_text +:+ "]", false), self, list_counter)
  else if opt_is block_type "bookmark" then
    let bookmark := payload block "bookmark" in
    let url := default "" (p_url bookmark) in
    let caption_text := caption_or bookmark url in
    if Py.truthy url then
      (("[" +:+ caption_text +:+ "](" +:+ url +:+ ")", true), self, list_counter)
    else
      (("[Bookmark]", false), self, list_counter)
  else if opt_is block_type "equation" then
    let expression := default "" (p_expression (payload block "equation")) in
    (("$$" +:+ Py.nl +:+ expression +:+ Py.nl +:+ "$$", true), self, list_counter)
  else if opt_is block_type "unsupported" then
    (("[Unsupported block]", false),
     add_unsupported self (Some "unsupported") "unknown" block_id, list_counter)
  else
    (("[Unsupported: " +:+ Py.str_opt block_type +:+ "]", false),
     add_unsupported self block_type "unknown_type" block_id, list_counter).

(** *** The block sequence assembler ([convert_blocks]) *)

(** The variables of the loop of [convert_blocks]: the index [i], the
    fragments collected so far, the numbering dictionary, and the converter
    (for its log). *)
Record LoopState := {
  ls_i : nat;
  ls_result : list string;
  ls_counter : gmap string Z;
  ls_self : MarkdownConverter
}.

(** The inner loop
    [while j < len(blocks) and blocks[j].get("type") == "table_row"]. *)
Fixpoint collect_rows (fuel : nat) (blocks : list Block) (j : nat)
    (rows : list Block) : list Block * nat :=
  match fuel with
  | O => (rows, j)
  | S fuel' =>
    match blocks !! j with
    | Some row =>
      if opt_is (b_type row) "table_row"
      then collect_rows fuel' blocks (S j) (rows ++ [row])
      else (rows, j)
    | None => (rows, j)
    end
  end.

(** [if md: result.append(md)]. *)
Definition append_fragment (result : list string) (md : string) : list string :=
  if Py.truthy md then result ++ [md] else result.

(** One iteration of the outer loop, at [block = blocks[i]]. *)
Definition loop_body (blocks : list Block) (block : Block) (st : LoopState)
  : LoopState :=
  if opt_is (b_type block) "table" then
    let '(rows, j) := collect_rows (length blocks) blocks (S (ls_i st)) [] in
    let md := convert_table block rows in
    {| ls_i := j;
       ls_result := append_fragment (ls_result st) md;
       ls_counter := ∅;
       ls_self := ls_self st |}
  else
    let list_counter :=
      if opt_is (b_type block) "numbered_list_item" then ls_counter st
      else delete "numbered" (ls_counter st) in
    let '((md, is_supported), self, list_counter) :=
      convert_block (ls_self st) block list_counter in
    {| ls_i := S (ls_i st);
       ls_result := append_fragment (ls_result st) md;
       ls_counter := list_counter;
       ls_self := self |}.

(** The outer loop [while i < len(blocks)]. *)
Fixpoint while_loop (fuel : nat) (blocks : list Block) (st : LoopState)
  : LoopState :=
  match fuel with
  | O => st
  | S fuel' =>
    match blocks !! ls_i st with
    | Some block => while_loop fuel' blocks (loop_body blocks block st)
    | None => st
    end
  end.

Definition initial_state (self : MarkdownConverter) : LoopState :=
  {| ls_i := 0; ls_result := []; ls_counter := ∅; ls_self := self |}.

(** The state in which the loop of [convert_blocks] ends.  Every iteration
    advances [i], so [length blocks] iterations are enough. *)
Definition final_state (self : MarkdownConverter) (blocks : list Block)
  : LoopState :=
  while_loop (length blocks) blocks (initial_state self).

Definition convert_blocks (self : MarkdownConverter) (blocks : list Block)
  : string * MarkdownConverter :=
  let st := final_state self blocks in
  (String.concat (Py.nl +:+ Py.nl) (ls_result st), ls_self st).


(** ** The hierarchy builder ([hierarchy.py]) *)

(** The result of a call to the remote API: a value, or an exception with
    its message. *)
Inductive Result (A : Type) : Type :=
  | Ok (a : A)
  | Raise (msg : string).
Arguments Ok {A} a.
Arguments Raise {A} msg.

(** One entry of [page["properties"]]. *)
Record Property := {
  prop_type : option string;
  prop_title : option (list RichText)
}.

(** A page object: its [object] kind and its [properties] in the order of
    the dictionary ([None]: the page has no [properties] key). *)
Record Page := {
  pg_object : option string;
  pg_properties : option (list (string * Property))
}.

(** The two calls of [NotionClientWrapper] that discovery and export use. *)
Record NotionClient := {
  get_page : string → Result Page;
  get_block_children : string → Result (list Block)
}.

#[local] Set Warnings "-register-all".
Inductive PageNode : Type := mkPageNode {
  page_id : string;
  title : string;
  parent_id : option string;
  children : list PageNode;
  is_database : bool;
  has_content : bool
}.
#[local] Set Warnings "register-all".

(** The loop of [extract_page_title] over the properties. *)
Fixpoint first_title (props : list (string * Property)) : string :=
  match props with
  | [] => "Untitled"
  | (_, prop_value) :: rest =>
    if opt_is (prop_type prop_value) "title" then
      match default [] (prop_title prop_value) with
      | first :: _ => default "Untitled" (rt_plain_text first)
      | [] => first_title rest
      end
    else first_title rest
  end.

Definition extract_page_title (page : Page) : string :=
  match pg_properties page with
  | None => "Untitled"
  | Some props => first_title props
  end.

(** The lines [build_page_tree] and [discover_child_pages] print. *)
Inductive Message : Type :=
  | CircularReference (page_id : string)
  | MaximumDepth (max_depth : nat) (page_id : string)
  | ErrorProcessing (page_id : string)
  | CouldNotFetchChildren (page_id : string).

(** What one discovery pass shares between all its recursive calls: the
    [visited] set, which every call mutates in place, and the console. *)
Record BuildState := {
  visited : gset string;
  console : list Message
}.

Definition say (st : BuildState) (m : Message) : BuildState :=
  {| visited := visited st; console := console st ++ [m] |}.

Definition mark_visited (st : BuildState) (page_id : string) : BuildState :=
  {| visited := {[page_id]} ∪ visited st; console := console st |}.

Definition is_child_block (block : Block) : bool :=
  opt_is (b_type block) "child_page" || opt_is (b_type block) "child_database".

Definition discover_child_pages (client : NotionClient) (page_id : string)
    (st : BuildState) : list Block * BuildState :=
  match get_block_children client page_id with
  | Ok blocks => (filter (λ block, is_child_block block = true) blocks, st)
  | Raise _ => ([], say st (CouldNotFetchChildren page_id))
  end.

(** The loop over [child_page_blocks] in [build_page_tree], for a given
    recursive call [build].  The outer [None] is [build] running out of
    fuel; the inner [None] is an exception raised in the loop
    ([child_block["id"]] on a block without identifier).  The title the
    source computes from the child block is never used and is left out. *)
Fixpoint build_children
    (build : string → BuildState → option (option PageNode * BuildState))
    (child_page_blocks : list Block) (node_children : list PageNode)
    (st : BuildState) : option (option (list PageNode) * BuildState) :=
  match child_page_blocks with
  | [] => Some (Some node_children, st)
  | child_block :: rest =>
    match b_id child_block with
    | None => Some (None, st)
    | Some child_id =>
      match build child_id st with
      | None => None
      | Some (Some child_node, st) =>
        build_children build rest (node_children ++ [child_node]) st
      | Some (None, st) => build_children build rest node_children st
      end
    end
  end.

(** [build_page_tree] with a bound on the nesting of its calls: [None] when
    the bound is reached, otherwise the node (or [None] for no node) and
    the state of the pass after the call. *)
Fixpoint build_page_tree_fuel (fuel : nat) (client : NotionClient)
    (page_id : string) (parent_id : option string) (st : BuildState)
    (depth max_depth : nat) : option (option PageNode * BuildState) :=
  match fuel with
  | O => None
  | S fuel' =>
    if decide (page_id ∈ visited st) then
      Some (None, say st (CircularReference page_id))
    else if (max_depth <=? depth)%nat then
      Some (None, say st (MaximumDepth max_depth page_id))
    else
      let st := mark_visited st page_id in
      match get_page client page_id with
      | Raise _ => Some (None, say st (ErrorProcessing page_id))
      | Ok page =>
        let is_database := opt_is (pg_object page) "database" in
        let title := extract_page_title page in
        let '(child_page_blocks, st) := discover_child_pages client page_id st in
        match build_children
                (λ child_id st,
                   build_page_tree_fuel fuel' client child_id (Some page_id) st
                                        (S depth) max_depth)
                child_page_blocks [] st with
        | None => None
        | Some (None, st) => Some (None, say st (ErrorProcessing page_id))
        | Some (Some node_children, st) =>
          Some (Some {| page_id := page_id; title := title;
                        parent_id := parent_id; children := node_children;
                        is_database := is_database; has_content := true |},
                st)
        end
      end
  end.

(** The calls nest at most [max_depth - depth] deep below the first one. *)
Definition build_page_tree (client : NotionClient) (page_id : string)
    (parent_id : option string) (st : BuildState) (depth max_depth : nat)
  : option (option PageNode * BuildState) :=
  build_page_tree_fuel (S (max_depth - depth)) client page_id parent_id st
                       depth max_depth.

(** The state of a pass that starts ([visited=None] in the source). *)
Definition fresh_pass : BuildState := {| visited := ∅; console := [] |}.

(** The identifiers of all nodes of a tree, in preorder, and the
    identifier sequences of its paths from the root to any node. *)
Fixpoint tree_ids (node : PageNode) : list string :=
  page_id node :: flat_map tree_ids (children node).

Fixpoint tree_paths (node : PageNode) : list (list string) :=
  [page_id node] ::
  map (cons (page_id node)) (flat_map tree_paths (children node)).

(** ** The exporter ([exporter.py]) *)

Record ExportStats := {
  pages_exported : nat;
  pages_failed : nat;
  files_created : nat;
  folders_created : nat;
  errors : list (string * string);
  stats_unsupported_features : list UnsupportedFeature
}.

Definition new_stats : ExportStats :=
  {| pages_exported := 0; pages_failed := 0; files_created := 0;
     folders_created := 0; errors := [];
     stats_unsupported_features := [] |}.

Definition add_error (stats : ExportStats) (page_id error : string) : ExportStats :=
  {| pages_exported := pages_exported stats;
     pages_failed := S (pages_failed stats);
     files_created := files_created stats;
     folders_created := folders_created stats;
     errors := errors stats ++ [(page_id, error)];
     stats_unsupported_features := stats_unsupported_features stats |}.

(** The characters [sanitize_filename] replaces by an underscore: slash,
    backslash, colon, star, question mark, double quote, angle brackets and
    the vertical bar. *)
Definition is_invalid_char (c : ascii) : bool :=
  bool_decide (nat_of_ascii c ∈ [47; 92; 58; 42; 63; 34; 60; 62; 124]%nat).

Fixpoint replace_invalid (s : string) : string :=
  match s with
  | EmptyString => EmptyString
  | String c s' =>
    String (if is_invalid_char c then "_"%char else c) (replace_invalid s')
  end.

(** The characters of [strip('. ')]. *)
Definition is_dot_or_space (c : ascii) : bool :=
  Ascii.eqb c "."%char || Ascii.eqb c " "%char.

(** [re.sub(r'\s+', ' ', s)]: every maximal run of whitespace becomes one
    space.  [in_run] tells that the previous character was whitespace. *)
Fixpoint collapse_spaces (in_run : bool) (s : string) : string :=
  match s with
  | EmptyString => EmptyString
  | String c s' =>
    if Py.isspace c then
      if in_run then collapse_spaces true s'
      else String " "%char (collapse_spaces true s')
    else String c (collapse_spaces false s')
  end.

Definition sanitize_filename (name : string) (max_length : nat) : string :=
  let sanitized := replace_invalid name in
  let sanitized := Py.strip is_dot_or_space sanitized in
  let sanitized := collapse_spaces false sanitized in
  let sanitized :=
    if (max_length <? String.length sanitized)%nat
    then Py.rstrip is_dot_or_space (Py.take max_length sanitized)
    else sanitized in
  if Py.truthy sanitized then sanitized else "Untitled".

(** The value of [max_length] when the caller gives none, as every caller
    in the repository does. *)
Definition default_max_length : nat := 200.

(** A path is the list of its segments; [base / name] appends one segment
    (the names joined here hold no separator). *)
Abbreviation Path := (list string).

Definition path_join (base : Path) (name : string) : Path := base ++ [name].

(** The destination: the content of every file and the set of
    directories. *)
Record FileSystem := {
  fs_files : gmap Path string;
  fs_dirs : gset Path
}.

(** Whether something exists at a path: what [path.exists()] answers
    when it answers. *)
Definition path_exists (fs : FileSystem) (path : Path) : bool :=
  bool_decide (path ∈ dom (fs_files fs)) || bool_decide (path ∈ fs_dirs fs).

(** The number of paths that exist. *)
Definition fs_size (fs : FileSystem) : nat :=
  size (dom (fs_files fs) ∪ fs_dirs fs).

(** What surrounds a run and decides which of its calls raise; every
    behaviour is allowed.
    - [exists_raises]: [path.exists()] raises (it does for a name that is
      too long, or in a directory that may not be searched), with the
      message of the exception.
    - [mkdir_raises]: [path.mkdir(parents=True, exist_ok=True)] raises;
      the number tells how many of the directories on the way to the path,
      from the top, the call made sure of before.
    - [write_raises]: opening the file for writing, or writing it, raises;
      [Some remains] when the file had been opened, and so created or
      emptied, with what it holds afterwards.
    - [convert_raises]: [convert_blocks] raises on the blocks of a page as
      the API sent them, at the block with the given index and with the
      given message.  The converter of this development returns for every
      block that carries values of the documented kinds; the API also
      sends null where an object is documented (the icon of a callout
      without icon), and the converter then raises. *)
Record Surroundings := {
  exists_raises : FileSystem → Path → option string;
  mkdir_raises : FileSystem → Path → option nat;
  write_raises : FileSystem → Path → string → option (option string);
  convert_raises : string → list Block → option (nat * string)
}.

Record Exporter := {
  client : NotionClient;
  output_dir : Path;
  dry_run : bool;
  include_databases : bool;
  converter : MarkdownConverter;
  stats : ExportStats;
  used_paths : gset Path
}.

Definition new_exporter (client : NotionClient) (output_dir : Path)
    (dry_run include_databases : bool) : Exporter :=
  {| client := client; output_dir := output_dir; dry_run := dry_run;
     include_databases := include_databases;
     converter := {| unsupported_features := [];
                     track_skipped_databases := negb include_databases |};
     stats := new_stats; used_paths := ∅ |}.

Definition set_stats (self : Exporter) (s : ExportStats) : Exporter :=
  {| client := client self; output_dir := output_dir self;
     dry_run := dry_run self; include_databases := include_databases self;
     converter := converter self; stats := s; used_paths := used_paths self |}.

Definition set_converter (self : Exporter) (c : MarkdownConverter) : Exporter :=
  {| client := client self; output_dir := output_dir self;
     dry_run := dry_run self; include_databases := include_databases self;
     converter := c; stats := stats self; used_paths := used_paths self |}.

(** The directories [mkdir(parents=True)] makes sure exist: the path and
    the paths above it. *)
Definition with_parents (path : Path) : gset Path :=
  list_to_set (map (λ k, take k path) (seq 1 (length path))).

Definition count_folder (self : Exporter) (path : Path) : Exporter :=
  if decide (path ∈ used_paths self) then self
  else
    {| client := client self; output_dir := output_dir self;
       dry_run := dry_run self; include_databases := include_databases self;
       converter := converter self;
       stats :=
         {| pages_exported := pages_exported (stats self);
            pages_failed := pages_failed (stats self);
            files_created := files_created (stats self);
            folders_created := S (folders_created (stats self));
            errors := errors (stats self);
            stats_unsupported_features := stats_unsupported_features (stats self) |};
       used_paths := {[path]} ∪ used_paths self |}.

Definition count_file (self : Exporter) : Exporter :=
  set_stats self
    {| pages_exported := pages_exported (stats self);
       pages_failed := pages_failed (stats self);
       files_created := S (files_created (stats self));
       folders_created := folders_created (stats self);
       errors := errors (stats self);
       stats_unsupported_features := stats_unsupported_features (stats self) |}.

Definition count_page (self : Exporter) : Exporter :=
  set_stats self
    {| pages_exported := S (pages_exported (stats self));
       pages_failed := pages_failed (stats self);
       files_created := files_created (stats self);
       folders_created := folders_created (stats self);
       errors := errors (stats self);
       stats_unsupported_features := stats_unsupported_features (stats self) |}.

Definition record_error (self : Exporter) (page_id error : string) : Exporter :=
  set_stats self (add_error (stats self) page_id error).

(** The for loops of [export_node] and [export_hierarchy]: every element
    is exported in turn and the value a call returns is dropped; an
    exception that leaves a call leaves the loop. *)
Definition export_each
    (export : PageNode → Exporter → FileSystem →
              Result bool * Exporter * FileSystem)
  : list PageNode → Exporter → FileSystem →
    option string * Exporter * FileSystem :=
  fix go (nodes : list PageNode) (self : Exporter) (fs : FileSystem) :=
    match nodes with
    | [] => (None, self, fs)
    | node :: rest =>
      let '(returned, self, fs) := export node self fs in
      match returned with
      | Raise e => (Some e, self, fs)
      | Ok _ => go rest self fs
      end
    end.

Section Materializer.

Variable env : Surroundings.

(** [path.exists()]. *)
Definition exists_at (fs : FileSystem) (path : Path) : Result bool :=
  match exists_raises env fs path with
  | Some e => Raise e
  | None => Ok (path_exists fs path)
  end.

(** The loop [while True] of [make_unique_filename], from [counter] on;
    [None] when [fuel] candidates were all taken. *)
Fixpoint next_free_name (fuel : nat) (fs : FileSystem) (base_path : Path)
    (sanitized extension : string) (counter : nat) : option (Result Path) :=
  match fuel with
  | O => None
  | S fuel' =>
    let path :=
      path_join base_path (sanitized +:+ "_" +:+ pretty counter +:+ extension) in
    match exists_at fs path with
    | Raise e => Some (Raise e)
    | Ok true => next_free_name fuel' fs base_path sanitized extension (S counter)
    | Ok false => Some (Ok path)
    end
  end.

(** [make_unique_filename]: the path, or the exception of [exists()].
    The candidates are pairwise different, so one of the first
    [fs_size fs + 1] is free, or raises, and the loop ends. *)
Definition make_unique_filename (fs : FileSystem) (base_path : Path)
    (name extension : string) : option (Result Path) :=
  let sanitized := sanitize_filename name default_max_length in
  let path := path_join base_path (sanitized +:+ extension) in
  match exists_at fs path with
  | Raise e => Some (Raise e)
  | Ok false => Some (Ok path)
  | Ok true =>
    next_free_name (S (fs_size fs)) fs base_path sanitized extension 1
  end.

(** [export_page_content]: the [try] covers the call of the client and
    the conversion.  When the conversion raises, the converter keeps the
    records of the blocks before the one at which it raised. *)
Definition export_page_content (self : Exporter) (page_id : string)
  : option string * Exporter :=
  match get_block_children (client self) page_id with
  | Ok blocks =>
    match convert_raises env page_id blocks with
    | None =>
      let '(markdown, conv) := convert_blocks (converter self) blocks in
      (Some markdown, set_converter self conv)
    | Some (i, e) =>
      let conv := (convert_blocks (converter self) (take i blocks)).2 in
      (None, record_error (set_converter self conv) page_id e)
    end
  | Raise e => (None, record_error self page_id e)
  end.

Definition create_directory (self : Exporter) (fs : FileSystem) (path : Path)
  : bool * Exporter * FileSystem :=
  if dry_run self then (true, self, fs)
  else
    match mkdir_raises env fs path with
    | Some made =>
      (false, self,
       {| fs_files := fs_files fs;
          fs_dirs :=
            with_parents (take (made `min` (length path - 1)) path) ∪
            fs_dirs fs |})
    | None =>
      (true, count_folder self path,
       {| fs_files := fs_files fs; fs_dirs := with_parents path ∪ fs_dirs fs |})
    end.

Definition write_file (self : Exporter) (fs : FileSystem) (path : Path)
    (content : string) : bool * Exporter * FileSystem :=
  if dry_run self then (true, self, fs)
  else
    match write_raises env fs path content with
    | Some remains =>
      (false, self,
       match remains with
       | Some partial =>
         {| fs_files := <[path := partial]> (fs_files fs);
            fs_dirs := fs_dirs fs |}
       | None => fs
       end)
    | None =>
      (true, count_file self,
       {| fs_files := <[path := content]> (fs_files fs);
          fs_dirs := fs_dirs fs |})
    end.

(** [export_node]: what it returns, or the exception that leaves it (the
    call of [make_unique_filename] is in no [try]), with the exporter and
    the destination as the call leaves them.  The branch for
    [make_unique_filename] not ending is never taken
    ([make_unique_filename_ends]). *)
Fixpoint export_node (node : PageNode) (parent_path : Path)
    (self : Exporter) (fs : FileSystem) {struct node}
  : Result bool * Exporter * FileSystem :=
  let '(content, self) := export_page_content self (page_id node) in
  match content with
  | None => (Ok false, self, fs)
  | Some content =>
    match children node with
    | _ :: _ =>
      let folder_name := sanitize_filename (title node) default_max_length in
      let folder_path := path_join parent_path folder_name in
      let '(created, self, fs) := create_directory self fs folder_path in
      if negb created then
        (Ok false,
         record_error self (page_id node) "Failed to create directory", fs)
      else
        let index_path := path_join folder_path "index.md" in
        let '(written, self, fs) := write_file self fs index_path content in
        if negb written then
          (Ok false,
           record_error self (page_id node) "Failed to write index.md", fs)
        else
          let self := count_page self in
          let '(raised, self, fs) :=
            export_each (λ child, export_node child folder_path)
                        (children node) self fs in
          match raised with
          | Some e => (Raise e, self, fs)
          | None => (Ok true, self, fs)
          end
    | [] =>
      match make_unique_filename fs parent_path (title node) ".md" with
      | None => (Ok false, self, fs)
      | Some (Raise e) => (Raise e, self, fs)
      | Some (Ok file_path) =>
        let '(written, self, fs) := write_file self fs file_path content in
        if negb written then
          (Ok false, record_error self (page_id node) "Failed to write file", fs)
        else (Ok true, count_page self, fs)
      end
    end
  end.

(** [export_hierarchy]: the statistics it returns, or the exception that
    leaves it. *)
Definition export_hierarchy (self : Exporter) (fs : FileSystem)
    (roots : list PageNode) : Result ExportStats * Exporter * FileSystem :=
  let '(created, self, fs) := create_directory self fs (output_dir self) in
  if negb created then (Ok (stats self), self, fs)
  else
    let '(raised, self, fs) :=
      export_each (λ root, export_node root (output_dir self)) roots self fs in
    match raised with
    | Some e => (Raise e, self, fs)
    | None =>
      let self :=
        set_stats self
          {| pages_exported := pages_exported (stats self);
             pages_failed := pages_failed (stats self);
             files_created := files_created (stats self);
             folders_created := folders_created (stats self);
             errors := errors (stats self);
             stats_unsupported_features :=
               unsupported_features (converter self) |} in
      (Ok (stats self), self, fs)
    end.

End Materializer.

(** ** The nesting order of inline markup, in the words of the specification *)

(** The marker a style contributes when its flag is set. *)
Definition marker (flag : bool) (m : string) : string :=
  if flag then m else "".

(** A span rendered from the outside in: the link, then strikethrough,
    italic, bold and code around the display text. *)
Definition nested_span (text_obj : RichText) : string :=
  let a := rt_annotations text_obj in
  let text := (span_content text_obj).1 in
  let href := Py.or_else (rt_href text_obj) (span_content text_obj).2 in
  let link := Py.truthy_opt href in
  marker link "[" +:+
    marker (ann_strikethrough a) "~~" +:+
      marker (ann_italic a) "*" +:+
        marker (ann_bold a) "**" +:+
          marker (ann_code a) "`" +:+ text +:+ marker (ann_code a) "`" +:+
        marker (ann_bold a) "**" +:+
      marker (ann_italic a) "*" +:+
    marker (ann_strikethrough a) "~~" +:+
  marker link ("](" +:+ Py.str_opt href +:+ ")").

(** ** Auxiliary notions for the assembler *)

(** The table rows at the front of a list of blocks. *)
Fixpoint leading_rows (l : list Block) : list Block :=
  match l with
  | row :: l' =>
    if opt_is (b_type row) "table_row" then row :: leading_rows l' else []
  | [] => []
  end.

(** Whether a list of blocks begins with a table row. *)
Definition starts_with_row (l : list Block) : bool :=
  match l with
  | row :: _ => opt_is (b_type row) "table_row"
  | [] => false
  end.

(** The loop of [convert_blocks] continued from a state, and the indices
    at which it runs its body from there. *)
Definition run (blocks : list Block) (st : LoopState) : LoopState :=
  while_loop (length blocks - ls_i st) blocks st.


Definition is_numbered (block : Block) : bool :=
  opt_is (b_type block) "numbered_list_item".

(** The number the next numbered item gets from a dictionary. *)
Definition next_number (list_counter : gmap string Z) : Z :=
  match list_counter !! "numbered" with
  | None => 1%Z
  | Some n => (n + 1)%Z
  end.

(** The numbering dictionary holds no count when the block before the
    current index is not a numbered item (or there is none). *)
Definition counter_reset (blocks : list Block) (st : LoopState) : Prop :=
  match ls_i st with
  | O => ls_counter st !! "numbered" = None
  | S k =>
    ∀ block, blocks !! k = Some block → is_numbered block = false →
             ls_counter st !! "numbered" = None
  end.

(** ** Sample objects *)

(** A block of a given type and identifier whose type-specific object is
    [fields]. *)
Definition block_of (type id : string) (fields : Payload) : Block :=
  {| b_type := Some type; b_id := Some id; b_fields := {[type := fields]} |}.

(** An object whose only field is a [rich_text] of one plain span. *)
Definition text_payload (text : string) : Payload :=
  {| p_rich_text := Some [text_span text no_annotations]; p_checked := None;
     p_language := None; p_icon_type := None; p_icon_emoji := None;
     p_cells := None; p_has_column_header := None; p_has_row_header := None;
     p_type := None; p_external_url := None; p_file_url := None;
     p_caption := None; p_url := None; p_expression := None;
     p_title := None |}.

(** An object whose only field is a [caption] of one plain span. *)
Definition caption_payload (text : string) : Payload :=
  {| p_rich_text := None; p_checked := None;
     p_language := None; p_icon_type := None; p_icon_emoji := None;
     p_cells := None; p_has_column_header := None; p_has_row_header := None;
     p_type := None; p_external_url := None; p_file_url := None;
     p_caption := Some [text_span text no_annotations]; p_url := None;
     p_expression := None; p_title := None |}.

(** A table row with the given plain cells. *)
Definition cells_payload (cells : list string) : Payload :=
  {| p_rich_text := None; p_checked := None;
     p_language := None; p_icon_type := None; p_icon_emoji := None;
     p_cells := Some (map (λ c, [text_span c no_annotations]) cells);
     p_has_column_header := None; p_has_row_header := None;
     p_type := None; p_external_url := None; p_file_url := None;
     p_caption := None; p_url := None; p_expression := None;
     p_title := None |}.

Definition new_converter : MarkdownConverter :=
  {| unsupported_features := []; track_skipped_databases := true |}.

(** ** Notions used to state the properties of [convert_block] *)

(** The type tags [convert_block] has a branch of their own for, the tag
    [unsupported] apart. *)
Definition known_types : list string :=
  ["paragraph"; "heading_1"; "heading_2"; "heading_3"; "bulleted_list_item";
   "numbered_list_item"; "to_do"; "toggle"; "code"; "quote"; "callout";
   "divider"; "child_page"; "child_database"; "table"; "table_row"; "image";
   "file"; "bookmark"; "equation"].

(** The call appends exactly one record, with the given feature, for the
    block, and reports it as not supported. *)
Definition records_once (feature : string) (self : MarkdownConverter)
    (block : Block) (list_counter : gmap string Z) : Prop :=
  let r := convert_block self block list_counter in
  r.1.1.2 = false ∧
  unsupported_features r.1.2 =
    unsupported_features self ++
    [{| uf_block_type := b_type block; uf_feature := feature;
        uf_block_id := default "unknown" (b_id block) |}].

(** The tab character. *)
Definition tab : ascii := ascii_of_nat 9.

(** ** Notions used to state the properties of the hierarchy builder *)

(** What a call of [build_page_tree] that starts in state [st] and ends in
    state [st'] with result [r] guarantees: the visited set only grows, and
    the identifiers of a returned tree are pairwise different, were not
    visited before the call and are visited after it. *)
Definition build_ok (st : BuildState) (r : option PageNode)
    (st' : BuildState) : Prop :=
  visited st ⊆ visited st' ∧
  match r with
  | None => True
  | Some node =>
    NoDup (tree_ids node) ∧
    ∀ x, x ∈ tree_ids node → (x ∉ visited st) ∧ x ∈ visited st'
  end.

(** A client over a fixed graph: every page listed in [graph] exists and
    has the listed pages as its [child_page] blocks; any other identifier
    makes both calls raise. *)
Definition graph_client (graph : list (string * list string)) : NotionClient :=
  {| get_page id :=
       match list_find (λ e, e.1 = id) graph with
       | Some _ => Ok {| pg_object := Some "page"; pg_properties := None |}
       | None => Raise "object_not_found"
       end;
     get_block_children id :=
       match list_find (λ e, e.1 = id) graph with
       | Some (_, (_, kids)) =>
         Ok (map (λ kid, block_of "child_page" kid empty_payload) kids)
       | None => Raise "object_not_found"
       end |}.

(** A graph with a back-edge: B is a child of A and A is a child of B. *)
Definition cyclic_graph : list (string * list string) :=
  [("A", ["B"]); ("B", ["A"])].

(** A graph in which C is a child of both A and B, and D cannot be
    fetched. *)
Definition shared_graph : list (string * list string) :=
  [("R", ["A"; "B"; "D"; "D"]); ("A", ["C"]); ("B", ["C"]); ("C", [])].

(** What can be seen of a finished build: the paths of the tree, if any,
    and the lines printed. *)
Definition outcome (r : option PageNode * BuildState)
  : option (list Path) * list Message :=
  (tree_paths <$> r.1, console r.2).

(** ** Notions used to state the properties of the exporter *)

(** The name [make_unique_filename] tries for a given counter. *)
Definition numbered_name (base_path : Path) (sanitized extension : string)
    (counter : nat) : Path :=
  path_join base_path (sanitized +:+ "_" +:+ pretty counter +:+ extension).

(** The names [make_unique_filename] tries, in order: the plain name,
    then the names with the suffix _1, _2, ... *)
Definition candidate (base_path : Path) (sanitized extension : string)
    (k : nat) : Path :=
  match k with
  | O => path_join base_path (sanitized +:+ extension)
  | S _ => numbered_name base_path sanitized extension k
  end.

(** Surroundings in which no call raises. *)
Definition quiet : Surroundings :=
  {| exists_raises _ _ := None; mkdir_raises _ _ := None;
     write_raises _ _ _ := None; convert_raises _ _ := None |}.

(** Surroundings in which no directory can be created. *)
Definition no_directories : Surroundings :=
  {| exists_raises _ _ := None; mkdir_raises _ _ := Some 0;
     write_raises _ _ _ := None; convert_raises _ _ := None |}.

(** Surroundings in which no file can be opened for writing. *)
Definition no_files : Surroundings :=
  {| exists_raises _ _ := None; mkdir_raises _ _ := None;
     write_raises _ _ _ := Some None; convert_raises _ _ := None |}.

(** Surroundings in which nothing can be created and every check of a
    path raises. *)
Definition hostile : Surroundings :=
  {| exists_raises _ _ := Some "[Errno 13] Permission denied";
     mkdir_raises _ _ := Some 0;
     write_raises _ _ _ := Some None; convert_raises _ _ := None |}.

(** A page node without children. *)
Definition leaf_node (id title : string) : PageNode :=
  {| page_id := id; title := title; parent_id := None; children := [];
     is_database := false; has_content := true |}.

(** A page node with children. *)
Definition folder_node (id title : string) (children : list PageNode) : PageNode :=
  {| page_id := id; title := title; parent_id := None; children := children;
     is_database := false; has_content := true |}.

(** A client that knows the content of some pages and raises for the
    others. *)
Definition content_client (pages : list (string * list Block)) : NotionClient :=
  {| get_page id := Raise "not used";
     get_block_children id :=
       match list_find (λ e, e.1 = id) pages with
       | Some (_, (_, blocks)) => Ok blocks
       | None => Raise "object_not_found"
       end |}.

Definition empty_fs : FileSystem := {| fs_files := ∅; fs_dirs := ∅ |}.

(** The same node with other children. *)
Definition with_children (node : PageNode) (cs : list PageNode) : PageNode :=
  {| page_id := page_id node; title := title node;
     parent_id := parent_id node; children := cs;
     is_database := is_database node; has_content := has_content node |}.

(** The folder of a node with children, and its index file. *)
Definition folder_of (node : PageNode) (parent_path : Path) : Path :=
  path_join parent_path (sanitize_filename (title node) default_max_length).

Definition index_of (node : PageNode) (parent_path : Path) : Path :=
  path_join (folder_of node parent_path) "index.md".

(** The destination once [mkdir] has made a directory and those above
    it. *)
Definition with_directory (fs : FileSystem) (path : Path) : FileSystem :=
  {| fs_files := fs_files fs; fs_dirs := with_parents path ∪ fs_dirs fs |}.

(** The ways in which the export of a node with children fails before its
    children are visited: its content cannot be fetched (the client
    raises, or the conversion does), its directory cannot be created, or
    its [index.md] cannot be written. *)
Definition folder_export_fails (env : Surroundings)
    (node : PageNode) (parent_path : Path) (self : Exporter)
    (fs : FileSystem) : Prop :=
  (∃ e, get_block_children (client self) (page_id node) = Raise e) ∨
  (∃ blocks,
     get_block_children (client self) (page_id node) = Ok blocks ∧
     ((∃ at_block, convert_raises env (page_id node) blocks = Some at_block) ∨
      convert_raises env (page_id node) blocks = None ∧
      dry_run self = false ∧
      ((∃ made, mkdir_raises env fs (folder_of node parent_path) = Some made) ∨
       mkdir_raises env fs (folder_of node parent_path) = None ∧
       ∃ remains,
         write_raises env (with_directory fs (folder_of node parent_path))
                      (index_of node parent_path)
                      (convert_blocks (converter self) blocks).1
           = Some remains))).

(** One step of a loop over siblings: unless an exception has ended the
    loop, the next sibling is exported, whatever the calls before it
    returned. *)
Definition next_sibling (env : Surroundings) (path : Path)
    (before : Result bool * Exporter * FileSystem) (node : PageNode)
  : Result bool * Exporter * FileSystem :=
  match before.1.1 with
  | Raise e => before
  | Ok _ => export_node env node path before.1.2 before.2
  end.

(** What a loop over siblings leaves, seen from the call that runs it. *)
Definition after_siblings (env : Surroundings) (path : Path)
    (self : Exporter) (fs : FileSystem) (nodes : list PageNode)
  : Result bool * Exporter * FileSystem :=
  foldl (next_sibling env path) (Ok true, self, fs) nodes.

(** Two childless pages titled Notes, the client that serves them, and an
    exporter that writes below [out]. *)
Definition notes_client : NotionClient :=
  content_client
    [("n1", [block_of "paragraph" "b1" (text_payload "first")]);
     ("n2", [block_of "paragraph" "b2" (text_payload "second")])].

Definition notes_exporter : Exporter :=
  new_exporter notes_client ["out"] false false.

(** The exporter and the destination when the folder of a node is ready:
    the content of the page is fetched and converted, its directory is
    made and its [index.md] written (or, in a dry run, announced). *)
Definition folder_ready (env : Surroundings) (node : PageNode)
    (parent_path : Path) (self : Exporter) (fs : FileSystem)
    (ready : Exporter * FileSystem) : Prop :=
  ∃ blocks,
    get_block_children (client self) (page_id node) = Ok blocks ∧
    convert_raises env (page_id node) blocks = None ∧
    let md := (convert_blocks (converter self) blocks).1 in
    let self1 := set_converter self (convert_blocks (converter self) blocks).2 in
    if dry_run self then ready = (count_page self1, fs)
    else
      mkdir_raises env fs (folder_of node parent_path) = None ∧
      write_raises env (with_directory fs (folder_of node parent_path))
                   (index_of node parent_path) md = None ∧
      ready =
        (count_page
           (count_file (count_folder self1 (folder_of node parent_path))),
         {| fs_files := <[index_of node parent_path := md]> (fs_files fs);
            fs_dirs := with_parents (folder_of node parent_path) ∪ fs_dirs fs |}).

(** The exporter and the destination when the output directory is
    ready. *)
Definition output_ready (env : Surroundings) (self : Exporter)
    (fs : FileSystem) (ready : Exporter * FileSystem) : Prop :=
  if dry_run self then ready = (self, fs)
  else
    mkdir_raises env fs (output_dir self) = None ∧
    ready = (count_folder self (output_dir self),
             with_directory fs (output_dir self)).

(** The exporter once the log of the converter is copied to its
    statistics. *)
Definition with_log (self : Exporter) : Exporter :=
  set_stats self
    {| pages_exported := pages_exported (stats self);
       pages_failed := pages_failed (stats self);
       files_created := files_created (stats self);
       folders_created := folders_created (stats self);
       errors := errors (stats self);
       stats_unsupported_features := unsupported_features (converter self) |}.

(** ** Notions used to state further properties of the converter *)

(** The records one block adds to the log of unsupported features, for a
    converter that tracks skipped databases or not. *)
Definition block_records (track : bool) (block : Block)
  : list UnsupportedFeature :=
  unsupported_features
    (convert_block {| unsupported_features := [];
                      track_skipped_databases := track |} block ∅).1.2.


(** The number of columns of a table: the largest number of cells in any
    of its rows. *)
Definition col_count (rows : list Block) : nat :=
  max_list (map length (map convert_table_row rows)).


(** The loop of [convert_blocks] started at index 0 with given fragments,
    dictionary and converter. *)
Definition state_at (i : nat) (result : list string)
    (list_counter : gmap string Z) (self : MarkdownConverter) : LoopState :=
  {| ls_i := i; ls_result := result; ls_counter := list_counter;
     ls_self := self |}.

(** The first character of a string, if any. *)
Definition first_char (s : string) : option ascii :=
  match s with
  | EmptyString => None
  | String c _ => Some c
  end.


(** A state of the loop seen from a longer list of blocks: the index is
    moved by [n] and the fragments follow those in [before]. *)
Definition shift (n : nat) (before : list string) (st : LoopState) : LoopState :=
  {| ls_i := n + ls_i st; ls_result := before ++ ls_result st;
     ls_counter := ls_counter st; ls_self := ls_self st |}.

(** The numbering dictionary holds the key [numbered] and no other. *)
Definition counter_shape (st : LoopState) : Prop :=
  ls_counter st = ∅ ∨ ∃ n : Z, ls_counter st = {["numbered" := n]}.


(** ** Notions used to state further properties of file names *)

(** Every character of a string satisfies a predicate. *)
Fixpoint str_forall (P : ascii → Prop) (s : string) : Prop :=
  match s with
  | EmptyString => True
  | String c s' => P c ∧ str_forall P s'
  end.

(** The last character of a string, if any. *)
Fixpoint last_char (s : string) : option ascii :=
  match s with
  | EmptyString => None
  | String c s' =>
    match last_char s' with
    | None => Some c
    | Some l => Some l
    end
  end.

(** Every whitespace character of the string is a space, and no two are
    next to each other; [in_run] tells that the character before the
    string is whitespace. *)
Fixpoint collapsed (in_run : bool) (s : string) : Prop :=
  match s with
  | EmptyString => True
  | String c s' =>
    if Py.isspace c
    then in_run = false ∧ c = " "%char ∧ collapsed true s'
    else collapsed false s'
  end.


(** ** Further notions for the hierarchy and the exporter *)

(** [count_pages] ([hierarchy.py]). *)
Fixpoint count_pages (node : PageNode) : nat :=
  1 + sum_list (map count_pages (children node)).

(** The list of errors and the counter of failed pages agree. *)
Definition errors_counted (stats : ExportStats) : Prop :=
  length (errors stats) = pages_failed stats.

(** Between two states of the statistics no page was taken back, and at
    most [n] pages were counted, as exported or as failed. *)
Definition counted_at_most (n : nat) (before after : ExportStats) : Prop :=
  pages_exported before ≤ pages_exported after ∧
  pages_failed before ≤ pages_failed after ∧
  (pages_exported after - pages_exported before) +
  (pages_failed after - pages_failed before) ≤ n.


(** In a preview nothing is created: the exporter is in dry run mode and
    has the given destination and counters of files and folders. *)
Definition preview_state (fs0 : FileSystem) (files folders : nat)
    (self : Exporter) (fs : FileSystem) : Prop :=
  dry_run self = true ∧ fs = fs0 ∧
  files_created (stats self) = files ∧
  folders_created (stats self) = folders.


(** What one call of [export_node] on [node] does to the statistics. *)
Definition accounted (node : PageNode) (before : ExportStats)
    (r : Result bool * Exporter * FileSystem) : Prop :=
  errors_counted (stats r.1.2) ∧
  counted_at_most (count_pages node) before (stats r.1.2) ∧
  (r.1.1 = Ok true → pages_exported before < pages_exported (stats r.1.2)) ∧
  (r.1.1 = Ok false →
   pages_exported (stats r.1.2) = pages_exported before ∧
   pages_failed (stats r.1.2) = S (pages_failed before)).


(** The number of levels of a tree. *)
Fixpoint tree_height (node : PageNode) : nat :=
  1 + max_list (map tree_height (children node)).

(** Every node below [node] names the node it hangs from as its parent. *)
Fixpoint well_linked (node : PageNode) : Prop :=
  (fix all (cs : list PageNode) : Prop :=
     match cs with
     | [] => True
     | c :: cs' =>
       parent_id c = Some (page_id node) ∧ well_linked c ∧ all cs'
     end) (children node).

(** What is known of a node built for [id] below [parent] with [levels]
    levels left. *)
Definition built_for (id : string) (parent : option string) (levels : nat)
    (node : PageNode) : Prop :=
  page_id node = id ∧ parent_id node = parent ∧ has_content node = true ∧
  well_linked node ∧ tree_height node ≤ levels.


(** The state in which a build ended (the state of a fresh pass if it did
    not end). *)
Definition state_of (r : option (option PageNode * BuildState)) : BuildState :=
  match r with
  | Some (_, st) => st
  | None => fresh_pass
  end.

(** The tree built from A on [cyclic_graph]. *)
Definition cyclic_tree : PageNode :=
  {| page_id := "A"; title := "Untitled"; parent_id := None;
     children :=
       [{| page_id := "B"; title := "Untitled"; parent_id := Some "A";
           children := []; is_database := false; has_content := true |}];
     is_database := false; has_content := true |}.

(** ** Notions used to state what an export leaves at the destination *)

(** The client serves the content of every page listed, and the
    conversion of none of them raises. *)
Definition fetched (env : Surroundings) (client : NotionClient)
    (ids : list string) : Prop :=
  Forall (λ id, ∃ blocks, get_block_children client id = Ok blocks ∧
                          convert_raises env id blocks = None) ids.

(** In these surroundings no call to the operating system raises. *)
Definition calm (env : Surroundings) : Prop :=
  (∀ fs path, exists_raises env fs path = None) ∧
  (∀ fs path, mkdir_raises env fs path = None) ∧
  (∀ fs path content, write_raises env fs path content = None).

(** The destination [fs'] keeps every directory and every file name of
    [fs], and a file that differs between the two lies below [base]; if it
    lies right in [base], it did not exist in [fs]. *)
Definition grows_below (base : Path) (fs fs' : FileSystem) : Prop :=
  fs_dirs fs ⊆ fs_dirs fs' ∧
  dom (fs_files fs) ⊆ dom (fs_files fs') ∧
  ∀ path, fs_files fs' !! path ≠ fs_files fs !! path →
    ∃ rest, path = base ++ rest ∧ rest ≠ [] ∧
            (length rest = 1 → path_exists fs path = false).

(** The settings of an exporter that no call changes. *)
Definition same_settings (self self' : Exporter) : Prop :=
  client self' = client self ∧ output_dir self' = output_dir self ∧
  dry_run self' = dry_run self ∧
  include_databases self' = include_databases self.

(** The counters after an export in which [n] pages were exported and none
    failed. *)
Definition all_exported (n : nat) (self self' : Exporter) : Prop :=
  pages_exported (stats self') = pages_exported (stats self) + n ∧
  pages_failed (stats self') = pages_failed (stats self) ∧
  errors (stats self') = errors (stats self) ∧
  files_created (stats self') =
    files_created (stats self) + (if dry_run self then 0 else n).


(** ** The roots of a workspace ([hierarchy.py], [exporter.py]) *)

(** What is read of a page object returned by the search: its [id] and the
    [type] of its [parent] ([None]: the key, or the parent, is absent). *)
Record FoundPage := {
  found_id : option string;
  found_parent_type : option string
}.

(** The client with its third call, [search_pages()], which returns all
    the pages or raises. *)
Record SearchClient := {
  pages_client :> NotionClient;
  search_pages : Result (list FoundPage)
}.

(** The lines [build_full_hierarchy] and what it calls print. *)
Inductive HierarchyLine : Type :=
  | ErrorDiscoveringRoots
  | DiscoveredRoots (n : nat)
  | FromBuild (m : Message).

Definition is_workspace_page (page : FoundPage) : bool :=
  opt_is (found_parent_type page) "workspace".

Definition discover_all_root_pages (client : SearchClient)
  : list FoundPage * list HierarchyLine :=
  match search_pages client with
  | Ok all_pages => (filter (λ page, is_workspace_page page = true) all_pages, [])
  | Raise _ => ([], [ErrorDiscoveringRoots])
  end.

(** The loop over [root_pages] in [build_full_hierarchy].  Every root is
    built in a pass of its own ([visited] is not passed on).  [Raise] is
    the [KeyError] of [page["id"]] on a page without identifier; the outer
    [None] is a build that did not end. *)
Fixpoint build_roots (client : NotionClient) (max_depth : nat)
    (root_pages : list FoundPage) (roots : list PageNode)
    (out : list HierarchyLine)
  : option (Result (list PageNode) * list HierarchyLine) :=
  match root_pages with
  | [] => Some (Ok roots, out)
  | page :: rest =>
    match found_id page with
    | None => Some (Raise "'id'", out)
    | Some page_id =>
      match build_page_tree client page_id None fresh_pass 0 max_depth with
      | None => None
      | Some (root_node, st) =>
        build_roots client max_depth rest
          (match root_node with
           | Some root_node => roots ++ [root_node]
           | None => roots
           end)
          (out ++ map FromBuild (console st))
      end
    end
  end.

Definition build_full_hierarchy (client : SearchClient)
    (root_page_id : option string) (max_depth : nat)
  : option (Result (list PageNode) * list HierarchyLine) :=
  if Py.truthy_opt root_page_id then
    match build_page_tree client (default "" root_page_id) None fresh_pass 0
                          max_depth with
    | None => None
    | Some (root_node, st) =>
      Some (Ok (match root_node with
                | Some root_node => [root_node]
                | None => []
                end),
            map FromBuild (console st))
    end
  else
    let '(root_pages, out) := discover_all_root_pages client in
    build_roots client max_depth root_pages []
                (out ++ [DiscoveredRoots (length root_pages)]).

(** The value of [max_depth] when the caller gives none. *)
Definition default_max_depth : nat := 10.

Section Workspace.

Variable env : Surroundings.

(** [export_notion_workspace]: the statistics it returns, or the exception
    that leaves it, and the destination afterwards.  The preview a dry run
    prints is not part of the result. *)
Definition export_notion_workspace (client : SearchClient) (output_dir : Path)
    (page_id : option string) (dry_run include_databases : bool)
    (fs : FileSystem) : option (Result ExportStats * FileSystem) :=
  match build_full_hierarchy client page_id default_max_depth with
  | None => None
  | Some (Raise e, _) => Some (Raise e, fs)
  | Some (Ok roots, _) =>
    match roots with
    | [] => Some (Ok new_stats, fs)
    | _ :: _ =>
      let exporter := new_exporter client output_dir dry_run include_databases in
      if dry_run then Some (Ok new_stats, fs)
      else
        let '(stats, _, fs) := export_hierarchy env exporter fs roots in
        Some (stats, fs)
    end
  end.

End Workspace.

(** The identifiers the roots of a hierarchy are built for: the page asked
    for, or the pages found right in the workspace. *)
Definition root_candidates (client : SearchClient)
    (root_page_id : option string) : list string :=
  if Py.truthy_opt root_page_id then [default "" root_page_id]
  else omap found_id (discover_all_root_pages client).1.

(** The root [build_page_tree] returns for a page in a pass of its own,
    if it returns one. *)
Definition root_for (client : NotionClient) (max_depth : nat)
    (page_id : string) : option PageNode :=
  match build_page_tree client page_id None fresh_pass 0 max_depth with
  | Some (Some root, _) => Some root
  | _ => None
  end.

(** A root built by a pass of its own. *)
Definition built_alone (client : NotionClient) (max_depth : nat)
    (root : PageNode) : Prop :=
  ∃ st, build_page_tree client (page_id root) None fresh_pass 0 max_depth
          = Some (Some root, st).

(** A workspace over a graph in which the pages listed are found right in
    the workspace. *)
Definition workspace_client (graph : list (string * list string))
    (top : list string) : SearchClient :=
  {| pages_client := graph_client graph;
     search_pages :=
       Ok (map (λ id, {| found_id := Some id;
                         found_parent_type := Some "workspace" |}) top) |}.



(** Every page found right in the workspace has an identifier. *)
Definition all_identified (pages : list FoundPage) : bool :=
  forallb (λ page, bool_decide (is_Some (found_id page))) pages.

(** The roots of a hierarchy: one root for each page it is built for, in
    order, each built by a pass of its own, where a page for which no
    root is built is left out; the [KeyError] when no page is asked for
    and a page found has no identifier. *)
Definition expected_roots (client : SearchClient)
    (root_page_id : option string) (max_depth : nat)
  : Result (list PageNode) :=
  if negb (Py.truthy_opt root_page_id) &&
     negb (all_identified (discover_all_root_pages client).1)
  then Raise "'id'"
  else Ok (omap (root_for client max_depth)
                (root_candidates client root_page_id)).
(** ** The paging loops of the client ([client_wrapper.py]) *)

Module NotionClientWrapper.

(** What the loops read of one response of the SDK: [results],
    [has_more] and [next_cursor] ([None]: the key is absent). *)
Record Response (A : Type) := {
  results : option (list A);
  has_more : option bool;
  next_cursor : option string
}.
Arguments results {A} _.
Arguments has_more {A} _.
Arguments next_cursor {A} _.

(** The calls of the SDK the wrapper pages through, each for a given
    [start_cursor]: [client.search], [client.blocks.children.list] and
    [client.databases.query].  A call answers the same cursor in the same
    way while a loop runs. *)
Record Client := {
  search : option string → Result (Response FoundPage);
  blocks_children_list : string → option string → Result (Response Block);
  databases_query : string → option string → Result (Response Page)
}.

Section Paging.

Context {A : Type}.
Variable request : option string → Result (Response A).

(** The loop [while has_more] of the three methods, entered with
    [has_more] true.  [None]: the loop has not ended after [fuel]
    requests. *)
Fixpoint while_has_more (fuel : nat) (results_so_far : list A)
    (start_cursor : option string) : option (Result (list A)) :=
  match fuel with
  | O => None
  | S fuel' =>
    match request start_cursor with
    | Raise e => Some (Raise e)
    | Ok response =>
      let results_so_far := results_so_far ++ default [] (results response) in
      if default false (has_more response)
      then while_has_more fuel' results_so_far (next_cursor response)
      else Some (Ok results_so_far)
    end
  end.

(** The responses [responses] are those of a run of the loop that starts
    with [start_cursor] and ends: each but the last announces more, and
    each request carries the cursor of the response before. *)
Fixpoint served (start_cursor : option string) (responses : list (Response A))
  : Prop :=
  match responses with
  | [] => False
  | response :: rest =>
    request start_cursor = Ok response ∧
    match rest with
    | [] => default false (has_more response) = false
    | _ :: _ =>
      default false (has_more response) = true ∧
      served (next_cursor response) rest
    end
  end.

End Paging.

Definition all_results {A : Type} (responses : list (Response A)) : list A :=
  flat_map (λ response, default [] (results response)) responses.

Definition search_pages (fuel : nat) (self : Client)
  : option (Result (list FoundPage)) :=
  while_has_more (search self) fuel [] None.

Definition get_block_children (fuel : nat) (self : Client) (block_id : string)
  : option (Result (list Block)) :=
  while_has_more (blocks_children_list self block_id) fuel [] None.

Definition query_database (fuel : nat) (self : Client) (database_id : string)
  : option (Result (list Page)) :=
  while_has_more (databases_query self database_id) fuel [] None.

(** A server that announces more blocks without giving a cursor. *)
Definition cursorless_client : Client :=
  {| search _ := Raise "not used";
     blocks_children_list _ _ :=
       Ok {| results := Some [block_of "divider" "b1" empty_payload];
             has_more := Some true; next_cursor := None |};
     databases_query _ _ := Raise "not used" |}.

End NotionClientWrapper.


(** * Properties *)

#[local] Set Warnings "-clear-no-such-hyp".
#[local] Arguments convert_blocks : simpl never.
#[local] Arguments sanitize_filename : simpl never.

(** ** Strings *)

Lemma app_nil_l_str (s : string) : "" +:+ s = s.
Proof. reflexivity. Qed.

Lemma app_cons_str (c : ascii) (s t : string) :
  String c s +:+ t = String c (s +:+ t).
Proof. reflexivity. Qed.

Lemma app_nil_r_str (s : string) : s +:+ "" = s.
Proof. induction s as [|c s IH]; [done|]. by rewrite app_cons_str, IH. Qed.

Lemma app_assoc_str (s t u : string) : (s +:+ t) +:+ u = s +:+ (t +:+ u).
Proof.
  induction s as [|c s IH]; [done|]. by rewrite !app_cons_str, IH.
Qed.

Lemma length_app_str (s t : string) :
  String.length (s +:+ t) = (String.length s + String.length t)%nat.
Proof.
  induction s as [|c s IH]; [done|]. rewrite app_cons_str. simpl. by rewrite IH.
Qed.

Create Rewrite HintDb pystr.
#[local] Hint Rewrite app_assoc_str app_cons_str app_nil_l_str app_nil_r_str
  : pystr.

(** Bring both sides of an equation between concatenations to the same
    right-nested form. *)
Ltac str_norm := autorewrite with pystr; try reflexivity.

(** ** Inline spans *)

Lemma convert_span_nested (text_obj : RichText) :
  convert_span text_obj = nested_span text_obj.
Proof.
  unfold convert_span, nested_span.
  destruct (span_content text_obj) as [content link]; simpl.
  destruct (rt_annotations text_obj) as [[] [] [] []]; simpl;
    destruct (Py.truthy_opt _); unfold marker; str_norm.
Qed.

(** C1: every span is rendered with code innermost, then bold, then italic,
    then strikethrough, and the link outermost; the spans of a sequence are
    joined without separator; a bold and struck-through "x" is rendered
    [~~**x**~~]; and no spans give the empty string. *)
Theorem convert_rich_text_nesting_order :
  (∀ spans : list RichText,
     convert_rich_text spans = String.concat "" (map nested_span spans)) ∧
  convert_rich_text
    [text_span "x" {| ann_code := false; ann_bold := true;
                      ann_italic := false; ann_strikethrough := true |}]
  = "~~**x**~~" ∧
  convert_rich_text [] = "".
Proof.
  split; [|split; reflexivity].
  intros spans. unfold convert_rich_text.
  destruct spans as [|s spans]; [reflexivity|].
  f_equal. apply map_ext. intros. apply convert_span_nested.
Qed.

(** ** The loop of the assembler *)

Lemma collect_rows_spec (fuel : nat) (blocks : list Block) (j : nat)
    (rows : list Block) :
  length blocks ≤ fuel + j →
  collect_rows fuel blocks j rows =
    (rows ++ leading_rows (drop j blocks),
     j + length (leading_rows (drop j blocks))).
Proof.
  revert j rows. induction fuel as [|fuel IH]; intros j rows Hlen; simpl.
  - rewrite drop_ge by lia. simpl. by rewrite app_nil_r, Nat.add_0_r.
  - destruct (blocks !! j) as [row|] eqn:Hj.
    + rewrite (drop_S _ _ _ Hj). simpl.
      destruct (opt_is (b_type row) "table_row").
      * rewrite IH by lia. simpl. rewrite <- app_assoc. f_equal. lia.
      * by rewrite app_nil_r, Nat.add_0_r.
    + apply lookup_ge_None in Hj. rewrite drop_ge by lia. simpl.
      by rewrite app_nil_r, Nat.add_0_r.
Qed.

Lemma leading_rows_length (l : list Block) : length (leading_rows l) ≤ length l.
Proof.
  induction l as [|b l IH]; simpl; [lia|].
  destruct (opt_is _ _); simpl; lia.
Qed.

Lemma leading_rows_app (l rest : list Block) :
  starts_with_row rest = false →
  leading_rows (l ++ rest) = leading_rows l.
Proof.
  intros Hrest. induction l as [|b l IH]; simpl.
  - destruct rest as [|r rest]; [done|]. simpl in *. by rewrite Hrest.
  - destruct (opt_is _ _); [by rewrite IH|done].
Qed.

Lemma leading_rows_Forall (l : list Block) :
  Forall (λ row, opt_is (b_type row) "table_row" = true) (leading_rows l).
Proof.
  induction l as [|b l IH]; simpl; [constructor|].
  destruct (opt_is _ _) eqn:Hb; by constructor.
Qed.

(** The body of the loop at a table: the rows that follow are taken, one
    fragment at most is appended, and the index moves past the rows. *)
Lemma loop_body_table (blocks : list Block) (block : Block) (st : LoopState) :
  opt_is (b_type block) "table" = true →
  let rows := leading_rows (drop (S (ls_i st)) blocks) in
  loop_body blocks block st =
    {| ls_i := S (ls_i st) + length rows;
       ls_result := append_fragment (ls_result st) (convert_table block rows);
       ls_counter := ∅;
       ls_self := ls_self st |}.
Proof.
  intros Htable. unfold loop_body. rewrite Htable.
  rewrite collect_rows_spec by lia. reflexivity.
Qed.

Lemma loop_body_other (blocks : list Block) (block : Block) (st : LoopState) :
  opt_is (b_type block) "table" = false →
  loop_body blocks block st =
    let list_counter :=
      if is_numbered block then ls_counter st
      else delete "numbered" (ls_counter st) in
    let r := convert_block (ls_self st) block list_counter in
    {| ls_i := S (ls_i st);
       ls_result := append_fragment (ls_result st) r.1.1.1;
       ls_counter := r.2;
       ls_self := r.1.2 |}.
Proof.
  intros Htable. unfold loop_body, is_numbered. rewrite Htable.
  by destruct (convert_block _ _ _) as [[[md ok] self] c].
Qed.

Lemma loop_body_bounds (blocks : list Block) (block : Block) (st : LoopState) :
  blocks !! ls_i st = Some block →
  ls_i st < ls_i (loop_body blocks block st) ≤ length blocks.
Proof.
  intros Hi. apply lookup_lt_Some in Hi.
  destruct (opt_is (b_type block) "table") eqn:Htable.
  - rewrite loop_body_table by done. simpl.
    pose proof (leading_rows_length (drop (S (ls_i st)) blocks)) as Hle.
    rewrite length_drop in Hle. lia.
  - rewrite loop_body_other by done. simpl. lia.
Qed.

(** Fuel beyond the number of blocks left changes nothing. *)
Lemma while_loop_enough (f1 f2 : nat) (blocks : list Block) (st : LoopState) :
  length blocks ≤ f1 + ls_i st → length blocks ≤ f2 + ls_i st →
  while_loop f1 blocks st = while_loop f2 blocks st.
Proof.
  revert f2 st. induction f1 as [|f1 IH]; intros f2 st H1 H2.
  - assert (blocks !! ls_i st = None) as Hnone by (apply lookup_ge_None; lia).
    destruct f2; simpl; [done|]. by rewrite Hnone.
  - destruct f2 as [|f2]; simpl.
    + assert (blocks !! ls_i st = None) as Hnone by (apply lookup_ge_None; lia).
      by rewrite Hnone.
    + destruct (blocks !! ls_i st) as [block|] eqn:Hi; [|done].
      pose proof (loop_body_bounds _ _ _ Hi). apply IH; lia.
Qed.


Lemma run_done (blocks : list Block) (st : LoopState) :
  blocks !! ls_i st = None → run blocks st = st.
Proof.
  intros Hnone. unfold run.
  destruct (length blocks - ls_i st); simpl; [done|]. by rewrite Hnone.
Qed.

Lemma run_step (blocks : list Block) (block : Block) (st : LoopState) :
  blocks !! ls_i st = Some block →
  run blocks st = run blocks (loop_body blocks block st).
Proof.
  intros Hi. unfold run.
  pose proof (lookup_lt_Some _ _ _ Hi).
  pose proof (loop_body_bounds _ _ _ Hi).
  destruct (length blocks - ls_i st) as [|n] eqn:Hn; [lia|].
  simpl. rewrite Hi. apply while_loop_enough; lia.
Qed.



Lemma final_state_run (self : MarkdownConverter) (blocks : list Block) :
  final_state self blocks = run blocks (initial_state self).
Proof. unfold final_state, run. simpl. by rewrite Nat.sub_0_r. Qed.

(** Induction along the iterations of the loop. *)
Lemma loop_ind (blocks : list Block) (P : LoopState → Prop) :
  (∀ st, blocks !! ls_i st = None → P st) →
  (∀ st block, blocks !! ls_i st = Some block →
               P (loop_body blocks block st) → P st) →
  ∀ st, P st.
Proof.
  intros Hdone Hstep st.
  remember (length blocks - ls_i st) as n eqn:Hn.
  revert st Hn. induction (lt_wf n) as [n _ IH]. intros st ->.
  destruct (blocks !! ls_i st) as [block|] eqn:Hi; [|by apply Hdone].
  apply (Hstep _ _ Hi).
  pose proof (lookup_lt_Some _ _ _ Hi).
  pose proof (loop_body_bounds _ _ _ Hi).
  eapply IH; [|reflexivity]. lia.
Qed.

(** The blocks before a block that is no table row are processed as if
    they were the whole list. *)
Lemma run_app (pre rest : list Block) (st : LoopState) :
  starts_with_row rest = false →
  ls_i st ≤ length pre →
  ls_i (run pre st) = length pre ∧
  run (pre ++ rest) st = run (pre ++ rest) (run pre st).
Proof.
  intros Hrest. revert st.
  apply (loop_ind pre (λ st, ls_i st ≤ length pre →
    ls_i (run pre st) = length pre ∧
    run (pre ++ rest) st = run (pre ++ rest) (run pre st))).
  - intros st Hnone Hle. apply lookup_ge_None in Hnone.
    rewrite run_done by (apply lookup_ge_None; lia). split; [lia|done].
  - intros st block Hi IH Hle.
    pose proof (loop_body_bounds _ _ _ Hi) as Hb.
    pose proof (lookup_lt_Some _ _ _ Hi) as Hlt.
    assert (loop_body (pre ++ rest) block st = loop_body pre block st) as Heq.
    { destruct (opt_is (b_type block) "table") eqn:Htable.
      - rewrite !loop_body_table by done. simpl.
        rewrite drop_app_le by lia. by rewrite leading_rows_app.
      - by rewrite !loop_body_other. }
    rewrite (run_step pre block st Hi).
    rewrite (run_step (pre ++ rest) block st) by (by apply lookup_app_l_Some).
    rewrite Heq. apply IH. lia.
Qed.

(** A block that is no numbered item leaves the dictionary alone. *)
Lemma convert_block_counter (self : MarkdownConverter) (block : Block)
    (list_counter : gmap string Z) :
  is_numbered block = false →
  (convert_block self block list_counter).2 = list_counter.
Proof.
  unfold is_numbered, convert_block. intros ->.
  repeat (destruct (opt_is _ _); [done|]).
  repeat case_match; done.
Qed.

Lemma convert_block_numbered (self : MarkdownConverter) (block : Block)
    (list_counter : gmap string Z) :
  is_numbered block = true →
  convert_block self block list_counter =
    ((convert_numbered_list_item block (next_number list_counter), true), self,
     <["numbered" := next_number list_counter]> list_counter).
Proof.
  unfold is_numbered, convert_block, next_number. intros Hn.
  destruct (b_type block) as [t|]; [|done]. simpl in *.
  apply String.eqb_eq in Hn as ->. reflexivity.
Qed.

Lemma numbered_is_no_table (block : Block) :
  is_numbered block = true → opt_is (b_type block) "table" = false.
Proof.
  unfold is_numbered. destruct (b_type block) as [t|]; [|done]. simpl.
  intros ->%String.eqb_eq. reflexivity.
Qed.

Lemma numbered_is_no_row (block : Block) :
  is_numbered block = true → opt_is (b_type block) "table_row" = false.
Proof.
  unfold is_numbered. destruct (b_type block) as [t|]; [|done]. simpl.
  intros ->%String.eqb_eq. reflexivity.
Qed.

Lemma counter_reset_step (blocks : list Block) (block : Block) (st : LoopState) :
  blocks !! ls_i st = Some block →
  counter_reset blocks (loop_body blocks block st).
Proof.
  intros Hi. destruct (opt_is (b_type block) "table") eqn:Htable.
  - rewrite loop_body_table by done. unfold counter_reset. simpl. done.
  - rewrite loop_body_other by done. unfold counter_reset. simpl.
    intros b Hb Hnum. rewrite Hi in Hb. injection Hb as <-.
    rewrite Hnum, convert_block_counter by done. apply lookup_delete_eq.
Qed.

Lemma counter_reset_run (blocks : list Block) (st : LoopState) :
  counter_reset blocks st → counter_reset blocks (run blocks st).
Proof.
  revert st. apply (loop_ind blocks
    (λ st, counter_reset blocks st → counter_reset blocks (run blocks st))).
  - intros st Hnone Hst. by rewrite run_done.
  - intros st block Hi IH _. rewrite (run_step _ _ _ Hi).
    apply IH. by apply counter_reset_step.
Qed.

Lemma numbered_fragment_truthy (block : Block) (n : Z) :
  Py.truthy (convert_numbered_list_item block n) = true.
Proof.
  unfold convert_numbered_list_item. by destruct (pretty n).
Qed.

(** The fragments the loop has collected are never taken back. *)
Lemma run_result_grows (blocks : list Block) (st : LoopState) :
  ∃ after, ls_result (run blocks st) = ls_result st ++ after.
Proof.
  revert st. apply (loop_ind blocks
    (λ st, ∃ after, ls_result (run blocks st) = ls_result st ++ after)).
  - intros st Hnone. exists []. by rewrite run_done, app_nil_r.
  - intros st block Hi [after IH]. rewrite (run_step _ _ _ Hi), IH.
    assert (∃ more, ls_result (loop_body blocks block st) = ls_result st ++ more)
      as [more ->]; [|exists (more ++ after); by rewrite app_assoc].
    destruct (opt_is (b_type block) "table") eqn:Htable.
    + rewrite loop_body_table by done. simpl. unfold append_fragment.
      destruct (Py.truthy _); [by eexists|exists []; by rewrite app_nil_r].
    + rewrite loop_body_other by done. simpl. unfold append_fragment.
      destruct (Py.truthy _); [by eexists|exists []; by rewrite app_nil_r].
Qed.

(** A run of numbered items met with a given dictionary: the items get
    consecutive numbers from [next_number] on. *)
Lemma run_numbered_items (blocks items : list Block) (st : LoopState) :
  Forall (λ block, is_numbered block = true) items →
  take (length items) (drop (ls_i st) blocks) = items →
  ∃ st', run blocks st = run blocks st' ∧
         ls_result st' =
           ls_result st ++
           imap (λ k block,
                   convert_numbered_list_item block
                     (next_number (ls_counter st) + Z.of_nat k)) items.
Proof.
  intros Hall. revert st.
  induction Hall as [|block items Hnum Hall IH]; intros st Htake.
  - exists st. simpl. by rewrite app_nil_r.
  - assert (blocks !! ls_i st = Some block) as Hi.
    { rewrite <- (Nat.add_0_r (ls_i st)), <- lookup_drop.
      rewrite <- (lookup_take_lt _ (length (block :: items))) by (simpl; lia).
      by rewrite Htake. }
    destruct (IH (loop_body blocks block st)) as (st' & Hrun & Hres).
    { rewrite loop_body_other by by apply numbered_is_no_table. simpl.
      rewrite (drop_S _ _ _ Hi) in Htake. simpl in Htake. by injection Htake. }
    exists st'. split; [by rewrite (run_step _ _ _ Hi)|].
    rewrite Hres. rewrite loop_body_other by by apply numbered_is_no_table.
    simpl. rewrite Hnum, convert_block_numbered by done. simpl.
    unfold append_fragment. rewrite numbered_fragment_truthy.
    rewrite <- app_assoc. simpl. rewrite Z.add_0_r. do 2 f_equal.
    apply imap_ext. intros k b _. simpl. f_equal.
    unfold next_number at 1. rewrite lookup_insert_eq. lia.
Qed.

(** C2: in a sequence of sibling blocks, the items of a run of numbered
    list items that starts the sequence or follows a block of another type
    are emitted, in order and right after the fragments of the blocks before
    them, with the prefixes 1., 2., ..., K.; and the number of an item is
    read from, and written back to, the dictionary the caller passes, not
    the block. *)
Theorem numbered_runs_count_from_one
    (self : MarkdownConverter) (pre items post : list Block) :
  items ≠ [] →
  Forall (λ block, is_numbered block = true) items →
  (∀ block, last pre = Some block → is_numbered block = false) →
  (∃ after,
     ls_result (final_state self (pre ++ items ++ post)) =
       ls_result (final_state self pre) ++
       imap (λ k block,
               pretty (Z.of_nat (S k)) +:+ ". " +:+
               convert_rich_text
                 (rich_text_of (payload block "numbered_list_item")))
            items ++
       after) ∧
  (∀ (conv : MarkdownConverter) (block : Block) (list_counter : gmap string Z),
     is_numbered block = true →
     convert_block conv block list_counter =
       ((pretty (next_number list_counter) +:+ ". " +:+
         convert_rich_text (rich_text_of (payload block "numbered_list_item")),
         true),
        conv, <["numbered" := next_number list_counter]> list_counter)).
Proof.
  intros Hne Hall Hlast. split; [|intros; by apply convert_block_numbered].
  rewrite !final_state_run.
  assert (starts_with_row (items ++ post) = false) as Hrow.
  { destruct Hall as [|block items Hnum _]; [done|].
    simpl. by apply numbered_is_no_row. }
  destruct (run_app pre (items ++ post) (initial_state self) Hrow)
    as [Hi Hrun]; [simpl; lia|].
  rewrite Hrun.
  assert (next_number (ls_counter (run pre (initial_state self))) = 1%Z) as Hnext.
  { pose proof (counter_reset_run pre (initial_state self)) as Hreset.
    unfold counter_reset in Hreset at 2. rewrite Hi in Hreset.
    unfold next_number. destruct (length pre) as [|k] eqn:Hlen.
    - rewrite Hreset; [done|]. unfold counter_reset. simpl. apply lookup_empty.
    - destruct (pre !! k) as [block|] eqn:Hk.
      + rewrite (Hreset ltac:(unfold counter_reset; simpl; apply lookup_empty)
                        block eq_refl); [done|].
        apply Hlast. rewrite last_lookup, Hlen. done.
      + apply lookup_ge_None in Hk. lia. }
  destruct (run_numbered_items (pre ++ items ++ post) items
              (run pre (initial_state self)) Hall) as (st' & Hrun' & Hres).
  { rewrite Hi, drop_app_length. by rewrite take_app_length. }
  rewrite Hrun'. destruct (run_result_grows (pre ++ items ++ post) st')
    as [after Hafter].
  exists after. rewrite Hafter, Hres, Hnext, <- app_assoc. do 2 f_equal.
  apply imap_ext. intros k block _. simpl.
  unfold convert_numbered_list_item. do 2 f_equal. lia.
Qed.

Lemma numbered_runs_count_from_one_witness :
  ∃ after,
    ls_result (final_state new_converter
      ([block_of "paragraph" "p1" (text_payload "intro")] ++
       [block_of "numbered_list_item" "n1" (text_payload "one");
        block_of "numbered_list_item" "n2" (text_payload "two")] ++
       [block_of "table" "t1" empty_payload;
        block_of "numbered_list_item" "n3" (text_payload "again")])) =
    ["intro"] ++ ["1. one"; "2. two"] ++ after.
Proof.
  apply (numbered_runs_count_from_one new_converter
           [block_of "paragraph" "p1" (text_payload "intro")]
           [block_of "numbered_list_item" "n1" (text_payload "one");
            block_of "numbered_list_item" "n2" (text_payload "two")]
           [block_of "table" "t1" empty_payload;
            block_of "numbered_list_item" "n3" (text_payload "again")]).
  - discriminate.
  - repeat constructor.
  - intros block [= <-]. reflexivity.
Defined.

(** ** Tables and their rows *)








(** ** Blocks without a branch of their own, and blocks without a URL *)

Lemma opt_is_ne (o : option string) (s : string) :
  o ≠ Some s → opt_is o s = false.
Proof.
  destruct o as [t|]; [|done]. simpl. intros Hne.
  apply String.eqb_neq. congruence.
Qed.

Lemma opt_is_eq (s : string) : opt_is (Some s) s = true.
Proof. simpl. apply String.eqb_refl. Qed.

(** C8, where the code departs from it: for the tag [unsupported] the
    record carries the feature [unknown], not [unknown_type]. *)
Lemma unsupported_tag_is_not_unknown_type :
  ¬ records_once "unknown_type" new_converter
      (block_of "unsupported" "b1" empty_payload) ∅.
Proof. intros [_ Hlog]. vm_compute in Hlog. discriminate Hlog. Qed.

(** C8, amended: a block whose type tag has no branch in [convert_block]
    gives the placeholder [[Unsupported: <type>]], not supported, and one
    record with feature [unknown_type]; a block tagged [unsupported] gives
    [[Unsupported block]], not supported, and one record with feature
    [unknown]. *)
Theorem unrecognized_blocks_are_recorded
    (self : MarkdownConverter) (block : Block) (list_counter : gmap string Z) :
  (b_type block ∉ Some <$> known_types →
   b_type block ≠ Some "unsupported" →
   convert_block self block list_counter =
     (("[Unsupported: " +:+ Py.str_opt (b_type block) +:+ "]", false),
      add_unsupported self (b_type block) "unknown_type"
                      (default "unknown" (b_id block)),
      list_counter) ∧
   records_once "unknown_type" self block list_counter) ∧
  (b_type block = Some "unsupported" →
   convert_block self block list_counter =
     (("[Unsupported block]", false),
      add_unsupported self (Some "unsupported") "unknown"
                      (default "unknown" (b_id block)),
      list_counter) ∧
   records_once "unknown" self block list_counter).
Proof.
  split.
  - intros Hknown Hunsupported.
    assert (convert_block self block list_counter =
     (("[Unsupported: " +:+ Py.str_opt (b_type block) +:+ "]", false),
      add_unsupported self (b_type block) "unknown_type"
                      (default "unknown" (b_id block)),
      list_counter)) as Heq.
    { unfold known_types in Hknown. simpl in Hknown.
      rewrite !not_elem_of_cons in Hknown.
      unfold convert_block.
      repeat (rewrite opt_is_ne by tauto).
      reflexivity. }
    split; [exact Heq|]. unfold records_once. by rewrite Heq.
  - intros Htype.
    assert (convert_block self block list_counter =
     (("[Unsupported block]", false),
      add_unsupported self (Some "unsupported") "unknown"
                      (default "unknown" (b_id block)),
      list_counter)) as Heq.
    { unfold convert_block. rewrite Htype. reflexivity. }
    split; [exact Heq|]. unfold records_once. rewrite Heq, Htype. done.
Qed.

Lemma unrecognized_blocks_are_recorded_witness :
  records_once "unknown_type" new_converter
    (block_of "synced_block" "b1" empty_payload) ∅ ∧
  records_once "unknown" new_converter
    (block_of "unsupported" "b2" empty_payload) ∅.
Proof.
  split.
  - apply (unrecognized_blocks_are_recorded new_converter
             (block_of "synced_block" "b1" empty_payload) ∅).
    + vm_compute. intros H. repeat (apply elem_of_cons in H as [H|H]; [discriminate H|]).
      by apply elem_of_nil in H.
    + discriminate.
  - apply (unrecognized_blocks_are_recorded new_converter
             (block_of "unsupported" "b2" empty_payload) ∅).
    reflexivity.
Defined.

(** An image without a resolvable URL: the placeholder, not supported, and
    one record with feature [no_url]. *)
Lemma image_without_url (self : MarkdownConverter) (block : Block)
    (list_counter : gmap string Z) :
  b_type block = Some "image" →
  resolve_url (payload block "image") = "" →
  convert_block self block list_counter =
    (("[Image: " +:+ caption_or (payload block "image") "image" +:+ "]", false),
     add_unsupported self (Some "image") "no_url"
                     (default "unknown" (b_id block)),
     list_counter) ∧
  records_once "no_url" self block list_counter.
Proof.
  intros Htype Hurl.
  assert (convert_block self block list_counter =
    (("[Image: " +:+ caption_or (payload block "image") "image" +:+ "]", false),
     add_unsupported self (Some "image") "no_url"
                     (default "unknown" (b_id block)),
     list_counter)) as Heq.
  { unfold convert_block. rewrite Htype. simpl. by rewrite Hurl. }
  split; [exact Heq|]. unfold records_once. by rewrite Heq, Htype.
Qed.

Example image_diagram_placeholder :
  convert_block new_converter
    (block_of "image" "b1" (caption_payload "diagram")) ∅ =
  (("[Image: diagram]", false),
   {| unsupported_features :=
        [{| uf_block_type := Some "image"; uf_feature := "no_url";
            uf_block_id := "b1" |}];
      track_skipped_databases := true |},
   ∅).
Proof. reflexivity. Qed.

(** C4, where the code departs from it: a file block and a bookmark block
    without URL give their placeholder, not supported, and the log of
    unsupported features stays as it was. *)
Theorem file_and_bookmark_without_url_are_not_recorded :
  convert_block new_converter (block_of "file" "b1" empty_payload) ∅ =
    (("[File: file]", false), new_converter, ∅) ∧
  convert_block new_converter (block_of "bookmark" "b2" empty_payload) ∅ =
    (("[Bookmark]", false), new_converter, ∅) ∧
  ¬ records_once "no_url" new_converter
      (block_of "file" "b1" empty_payload) ∅ ∧
  ¬ records_once "no_url" new_converter
      (block_of "bookmark" "b2" empty_payload) ∅.
Proof.
  repeat split; try reflexivity.
  - intros [_ Hlog]. vm_compute in Hlog. discriminate Hlog.
  - intros [_ Hlog]. vm_compute in Hlog. discriminate Hlog.
Qed.

(** ** File names *)

Lemma truthy_nonempty (s : string) : Py.truthy s = true → s ≠ "".
Proof. by destruct s. Qed.

Lemma length_rstrip (p : ascii → bool) (s : string) :
  String.length (Py.rstrip p s) ≤ String.length s.
Proof.
  induction s as [|c s IH]; simpl; [lia|].
  destruct (Py.rstrip p s); [destruct (p c)|]; simpl in *; lia.
Qed.

Lemma length_take (n : nat) (s : string) :
  String.length (Py.take n s) ≤ n.
Proof.
  revert s. induction n as [|n IH]; intros [|c s]; simpl; try lia.
  specialize (IH s). lia.
Qed.

(** The result of [sanitize_filename] is never empty. *)
Lemma sanitize_filename_nonempty (name : string) (max_length : nat) :
  sanitize_filename name max_length ≠ "".
Proof.
  unfold sanitize_filename.
  destruct (Py.truthy _) eqn:Ht; [by apply truthy_nonempty|done].
Qed.

(** The result of [sanitize_filename] is at most [max_length] long, when
    [max_length] leaves room for the fallback name, as the default does. *)
Lemma sanitize_filename_bounded (name : string) (max_length : nat) :
  8 ≤ max_length →
  String.length (sanitize_filename name max_length) ≤ max_length.
Proof.
  intros Hmax. unfold sanitize_filename.
  destruct (Py.truthy _); [|simpl; lia].
  destruct (max_length <? _) eqn:Hlt.
  - etrans; [apply length_rstrip|apply length_take].
  - apply Nat.ltb_ge in Hlt. lia.
Qed.

(** C7, where the code departs from it: a name that begins with a tab is
    sanitized to a name that begins with a space, which a second call
    strips; the function is not idempotent. *)
Theorem sanitize_filename_is_not_idempotent :
  sanitize_filename (String tab "a") default_max_length = " a" ∧
  sanitize_filename " a" default_max_length = "a" ∧
  sanitize_filename (sanitize_filename (String tab "a") default_max_length)
                    default_max_length
  ≠ sanitize_filename (String tab "a") default_max_length.
Proof. repeat split; try reflexivity. vm_compute. discriminate. Qed.

(** ** The hierarchy builder *)

Lemma PageNode_children_ind (P : PageNode → Prop) :
  (∀ node, Forall P (children node) → P node) → ∀ node, P node.
Proof.
  intros Hnode. fix IH 1. intros node. apply Hnode.
  destruct node as [id t parent cs db hc]. simpl.
  revert cs. fix IHcs 1. intros [|c cs].
  - constructor.
  - constructor; [apply IH|apply IHcs].
Qed.

Lemma build_children_returns
    (build : string → BuildState → option (option PageNode * BuildState))
    (blocks : list Block) (acc : list PageNode) (st : BuildState) :
  (∀ child_id st, is_Some (build child_id st)) →
  is_Some (build_children build blocks acc st).
Proof.
  intros Hbuild. revert acc st.
  induction blocks as [|block blocks IH]; intros acc st; simpl; [eauto|].
  destruct (b_id block) as [child_id|]; [|eauto].
  destruct (Hbuild child_id st) as [[[node|] st'] ->]; apply IH.
Qed.

(** With more calls allowed than levels are left below [max_depth], the
    build returns. *)
Lemma build_page_tree_fuel_returns (fuel : nat) (client : NotionClient)
    (page_id : string) (parent_id : option string) (st : BuildState)
    (depth max_depth : nat) :
  max_depth - depth < fuel →
  is_Some (build_page_tree_fuel fuel client page_id parent_id st depth max_depth).
Proof.
  revert page_id parent_id st depth.
  induction fuel as [|fuel IH]; intros page_id parent_id st depth Hfuel; [lia|].
  simpl. destruct (decide (page_id ∈ visited st)); [eauto|].
  destruct (max_depth <=? depth) eqn:Hdepth; [eauto|].
  apply Nat.leb_gt in Hdepth.
  destruct (get_page client page_id) as [page|e]; [|eauto].
  destruct (discover_child_pages client page_id _) as [blocks st1].
  destruct (build_children_returns
              (λ child_id st, build_page_tree_fuel fuel client child_id
                                (Some page_id) st (S depth) max_depth)
              blocks [] st1) as [[[cs|] st2] ->]; [|eauto..].
  intros child_id st'. apply IH. lia.
Qed.

Lemma discover_child_pages_visited (client : NotionClient) (page_id : string)
    (st : BuildState) :
  visited (discover_child_pages client page_id st).2 = visited st.
Proof.
  unfold discover_child_pages.
  by destruct (get_block_children client page_id).
Qed.

(** The loop over the children keeps what the calls it makes guarantee:
    the trees collected so far have pairwise different identifiers, none
    of which was visited when the loop started. *)
Lemma build_children_ok
    (build : string → BuildState → option (option PageNode * BuildState))
    (base : gset string) (blocks : list Block) :
  (∀ child_id st r st', build child_id st = Some (r, st') → build_ok st r st') →
  ∀ (acc : list PageNode) (st : BuildState) r st',
    build_children build blocks acc st = Some (r, st') →
    base ⊆ visited st →
    NoDup (flat_map tree_ids acc) →
    (∀ x, x ∈ flat_map tree_ids acc → (x ∉ base) ∧ x ∈ visited st) →
    visited st ⊆ visited st' ∧
    match r with
    | None => True
    | Some cs =>
      NoDup (flat_map tree_ids cs) ∧
      ∀ x, x ∈ flat_map tree_ids cs → (x ∉ base) ∧ x ∈ visited st'
    end.
Proof.
  intros Hbuild.
  induction blocks as [|block blocks IH]; intros acc st r st' Hrun Hbase Hnd Hacc;
    simpl in Hrun.
  - injection Hrun as <- <-. done.
  - destruct (b_id block) as [child_id|]; [|by injection Hrun as <- <-].
    destruct (build child_id st) as [[[node|] st1]|] eqn:Hcall; [| |done].
    + destruct (Hbuild _ _ _ _ Hcall) as (Hsub & Hnode & Hids).
      destruct (IH _ _ _ _ Hrun) as [Hsub' Hr].
      * set_solver.
      * rewrite flat_map_app. simpl. rewrite app_nil_r.
        apply NoDup_app. split; [done|]. split; [|done].
        intros x Hx Hx'. destruct (Hacc x Hx). destruct (Hids x Hx'). done.
      * intros x. rewrite flat_map_app. simpl. rewrite app_nil_r.
        intros [Hx|Hx]%elem_of_app.
        -- destruct (Hacc x Hx). set_solver.
        -- destruct (Hids x Hx). set_solver.
      * split; [set_solver|done].
    + destruct (Hbuild _ _ _ _ Hcall) as (Hsub & _).
      destruct (IH _ _ _ _ Hrun) as [Hsub' Hr]; [set_solver|done| |].
      * intros x Hx. destruct (Hacc x Hx). set_solver.
      * split; [set_solver|done].
Qed.

(** Every call of the build keeps [build_ok]. *)
Lemma build_page_tree_fuel_ok (fuel : nat) (client : NotionClient)
    (page_id : string) (parent_id : option string) (st : BuildState)
    (depth max_depth : nat) (r : option PageNode) (st' : BuildState) :
  build_page_tree_fuel fuel client page_id parent_id st depth max_depth
    = Some (r, st') →
  build_ok st r st'.
Proof.
  revert page_id parent_id st depth r st'.
  induction fuel as [|fuel IH]; intros page_id parent_id st depth r st' Hrun;
    [done|].
  simpl in Hrun.
  destruct (decide (page_id ∈ visited st)) as [Hin|Hnotin].
  { injection Hrun as <- <-. by split. }
  destruct (max_depth <=? depth).
  { injection Hrun as <- <-. by split. }
  destruct (get_page client page_id) as [page|e].
  2:{ injection Hrun as <- <-. split; [simpl; set_solver|done]. }
  pose proof (discover_child_pages_visited client page_id
                (mark_visited st page_id)) as Hdisc.
  destruct (discover_child_pages client page_id _) as [blocks st1].
  simpl in Hdisc.
  destruct (build_children _ blocks [] st1) as [[[cs|] st2]|] eqn:Hloop;
    [| |done].
  - injection Hrun as <- <-.
    destruct (build_children_ok _ ({[page_id]} ∪ visited st) blocks
                (λ child_id st0 r0 st0', IH child_id (Some page_id) st0
                                            (S depth) r0 st0')
                _ _ _ _ Hloop) as (Hsub & Hnd & Hids).
    + by rewrite Hdisc.
    + constructor.
    + intros x Hx. by apply elem_of_nil in Hx.
    + rewrite Hdisc in Hsub. split; [set_solver|]. simpl. split.
      * constructor; [|done]. intros Hx. destruct (Hids _ Hx). set_solver.
      * intros x [->|Hx]%elem_of_cons; [set_solver|].
        destruct (Hids _ Hx). set_solver.
  - injection Hrun as <- <-.
    destruct (build_children_ok _ ({[page_id]} ∪ visited st) blocks
                (λ child_id st0 r0 st0', IH child_id (Some page_id) st0
                                            (S depth) r0 st0')
                _ _ _ _ Hloop) as (Hsub & _).
    + by rewrite Hdisc.
    + constructor.
    + intros x Hx. by apply elem_of_nil in Hx.
    + rewrite Hdisc in Hsub. split; [simpl; set_solver|done].
Qed.

Lemma sublist_flat_map_elem {A B : Type} (f : A → list B) (x : A) (l : list A) :
  x ∈ l → f x `sublist_of` flat_map f l.
Proof.
  induction 1 as [x l|x y l _ IH]; simpl.
  - by apply sublist_inserts_r.
  - by apply sublist_inserts_l.
Qed.

(** A path from the root lists some of the identifiers of the tree, in the
    order of [tree_ids]. *)
Lemma tree_paths_sublist (node : PageNode) :
  Forall (λ path, path `sublist_of` tree_ids node) (tree_paths node).
Proof.
  induction node as [node IH] using PageNode_children_ind.
  destruct node as [id t parent cs db hc]. simpl in *.
  constructor.
  - apply sublist_skip, sublist_nil_l.
  - apply Forall_forall. intros path Hpath.
    apply list_elem_of_In, in_map_iff in Hpath as (sub & <- & Hsub).
    apply in_flat_map in Hsub as (child & Hchild & Hsub).
    apply sublist_skip. rewrite Forall_forall in IH.
    apply list_elem_of_In in Hchild, Hsub.
    specialize (IH child Hchild). rewrite Forall_forall in IH.
    etrans; [apply (IH sub Hsub)|]. by apply sublist_flat_map_elem.
Qed.

Lemma build_page_tree_returns (client : NotionClient) (page_id : string)
    (parent_id : option string) (st : BuildState) (depth max_depth : nat) :
  is_Some (build_page_tree client page_id parent_id st depth max_depth).
Proof. apply build_page_tree_fuel_returns. lia. Qed.

Lemma build_page_tree_ok (client : NotionClient) (page_id : string)
    (parent_id : option string) (st : BuildState) (depth max_depth : nat)
    (r : option PageNode) (st' : BuildState) :
  build_page_tree client page_id parent_id st depth max_depth = Some (r, st') →
  build_ok st r st'.
Proof. apply build_page_tree_fuel_ok. Qed.

(** C5: whatever the pages and their children are, [build_page_tree]
    returns, and on no path from the root of the tree it returns does a
    page identifier occur twice; on the graph in which B is a child of A
    and A a child of B, the tree built from A is A with the one child B,
    and the repeat of A is reported as a circular reference. *)
Theorem build_page_tree_terminates_without_cycle
    (client : NotionClient) (page_id : string) (parent_id : option string)
    (st : BuildState) (depth max_depth : nat) :
  (∃ r st',
     build_page_tree client page_id parent_id st depth max_depth
       = Some (r, st') ∧
     match r with
     | Some node => Forall NoDup (tree_paths node)
     | None => True
     end) ∧
  outcome <$>
    build_page_tree (graph_client cyclic_graph) "A" None fresh_pass 0 10
  = Some (Some [["A"]; ["A"; "B"]], [CircularReference "A"]).
Proof.
  split; [|reflexivity].
  destruct (build_page_tree_returns client page_id parent_id st depth max_depth)
    as [[r st'] Hrun].
  exists r, st'. split; [done|].
  destruct r as [node|]; [|done].
  destruct (build_page_tree_ok _ _ _ _ _ _ _ _ Hrun) as (_ & Hnd & _).
  eapply Forall_impl; [apply tree_paths_sublist|].
  intros path Hsub. by eapply sublist_NoDup.
Qed.

(** C9: in a tree [build_page_tree] returns every page identifier labels
    at most one node; the visited set only grows during a build; a call on
    a page that is already visited returns no node, with a circular
    reference warning and without asking the client; a page whose fetch
    fails stays in the visited set.  On the graph in which C is a child of
    both A and B and D, listed twice under R, cannot be fetched, C is
    attached under A only and D is fetched once. *)
Theorem visited_set_is_shared_by_the_whole_build
    (client : NotionClient) (page_id : string) (parent_id : option string)
    (st : BuildState) (depth max_depth : nat) :
  (∀ node st',
     build_page_tree client page_id parent_id st depth max_depth
       = Some (Some node, st') →
     NoDup (tree_ids node)) ∧
  (∀ r st',
     build_page_tree client page_id parent_id st depth max_depth
       = Some (r, st') →
     visited st ⊆ visited st') ∧
  (page_id ∈ visited st →
   ∀ other : NotionClient,
     build_page_tree other page_id parent_id st depth max_depth
       = Some (None, say st (CircularReference page_id))) ∧
  (page_id ∉ visited st → depth < max_depth →
   (∃ e, get_page client page_id = Raise e) →
   build_page_tree client page_id parent_id st depth max_depth
     = Some (None, say (mark_visited st page_id) (ErrorProcessing page_id)) ∧
   page_id ∈ visited (mark_visited st page_id)) ∧
  outcome <$>
    build_page_tree (graph_client shared_graph) "R" None fresh_pass 0 10
  = Some (Some [["R"]; ["R"; "A"]; ["R"; "A"; "C"]; ["R"; "B"]],
          [CircularReference "C"; ErrorProcessing "D"; CircularReference "D"]).
Proof.
  repeat split; try reflexivity.
  - intros node st' Hrun.
    by destruct (build_page_tree_ok _ _ _ _ _ _ _ _ Hrun) as (_ & Hnd & _).
  - intros r st' Hrun.
    by destruct (build_page_tree_ok _ _ _ _ _ _ _ _ Hrun) as (Hsub & _).
  - intros Hin other. unfold build_page_tree. simpl.
    by destruct (decide (page_id ∈ visited st)).
  - unfold build_page_tree. simpl.
    match goal with H : ∃ e, _ |- _ => destruct H as [e He] end.
    destruct (decide (page_id ∈ visited st)); [done|].
    assert ((max_depth <=? depth) = false) as -> by (apply Nat.leb_gt; lia).
    by rewrite He.
  - simpl. set_solver.
Qed.

Lemma visited_set_is_shared_by_the_whole_build_witness :
  build_page_tree (graph_client shared_graph) "C" (Some "B")
                  (mark_visited fresh_pass "C") 2 10
    = Some (None, say (mark_visited fresh_pass "C") (CircularReference "C")) ∧
  build_page_tree (graph_client shared_graph) "D" (Some "R") fresh_pass 1 10
    = Some (None, say (mark_visited fresh_pass "D") (ErrorProcessing "D")).
Proof.
  split.
  - apply (visited_set_is_shared_by_the_whole_build
             (graph_client shared_graph) "C" (Some "B")
             (mark_visited fresh_pass "C") 2 10).
    simpl. apply elem_of_union_l, elem_of_singleton. reflexivity.
  - apply (visited_set_is_shared_by_the_whole_build
             (graph_client shared_graph) "D" (Some "R") fresh_pass 1 10).
    + simpl. apply not_elem_of_empty.
    + lia.
    + eexists. reflexivity.
Defined.

(** ** Unique file names *)

Lemma app_inv_tail_str (s1 s2 t : string) : s1 +:+ t = s2 +:+ t → s1 = s2.
Proof.
  revert s2. induction s1 as [|c1 s1 IH]; intros [|c2 s2] Heq.
  - done.
  - apply (f_equal String.length) in Heq.
    rewrite app_cons_str, app_nil_l_str in Heq. simpl in Heq.
    rewrite length_app_str in Heq. lia.
  - apply (f_equal String.length) in Heq.
    rewrite app_cons_str, app_nil_l_str in Heq. simpl in Heq.
    rewrite length_app_str in Heq. lia.
  - rewrite !app_cons_str in Heq. injection Heq as -> Heq.
    f_equal. by apply IH.
Qed.

Lemma numbered_name_inj (base_path : Path) (sanitized extension : string) :
  Inj (=) (=) (numbered_name base_path sanitized extension).
Proof.
  intros j k Heq. unfold numbered_name, path_join in Heq.
  apply app_inv_head in Heq. injection Heq as Heq.
  apply (inj (String.append sanitized)) in Heq.
  apply (inj (String.append "_")) in Heq.
  apply app_inv_tail_str in Heq. by apply (inj pretty) in Heq.
Qed.

Lemma path_exists_true (fs : FileSystem) (path : Path) :
  path_exists fs path = true ↔ path ∈ dom (fs_files fs) ∪ fs_dirs fs.
Proof.
  unfold path_exists. rewrite orb_true_iff, !bool_decide_eq_true.
  by rewrite elem_of_union.
Qed.

(** What the loop of [make_unique_filename] returns: it ends at the first
    name from [counter] on that is free or at which [exists()] raises, or
    it does not end when [fuel] names in a row are taken. *)
Lemma next_free_name_spec (env : Surroundings) (fuel : nat) (fs : FileSystem)
    (base_path : Path) (sanitized extension : string) (counter : nat) :
  match next_free_name env fuel fs base_path sanitized extension counter with
  | Some r =>
    ∃ k, counter ≤ k < counter + fuel ∧
         (∀ j, counter ≤ j < k →
               exists_raises env fs
                 (numbered_name base_path sanitized extension j) = None ∧
               path_exists fs (numbered_name base_path sanitized extension j)
                 = true) ∧
         match exists_raises env fs
                 (numbered_name base_path sanitized extension k) with
         | Some e => r = Raise e
         | None =>
           path_exists fs (numbered_name base_path sanitized extension k)
             = false ∧
           r = Ok (numbered_name base_path sanitized extension k)
         end
  | None =>
    ∀ j, counter ≤ j < counter + fuel →
         path_exists fs (numbered_name base_path sanitized extension j) = true
  end.
Proof.
  revert counter. induction fuel as [|fuel IH]; intros counter; simpl.
  - intros j. lia.
  - fold (numbered_name base_path sanitized extension counter).
    unfold exists_at.
    destruct (exists_raises env fs (numbered_name _ _ _ counter)) as [e|]
      eqn:Hraise.
    { exists counter. split; [lia|]. split; [intros j; lia|].
      by rewrite Hraise. }
    destruct (path_exists fs (numbered_name _ _ _ counter)) eqn:Hex.
    + specialize (IH (S counter)).
      destruct (next_free_name env fuel fs base_path sanitized extension
                               (S counter)) as [r|].
      * destruct IH as (k & Hk & Hbelow & Hat).
        exists k. split; [lia|]. split; [|done].
        intros j Hj. destruct (decide (j = counter)) as [->|]; [done|].
        apply Hbelow. lia.
      * intros j Hj. destruct (decide (j = counter)) as [->|]; [done|].
        apply IH. lia.
    + exists counter. split; [lia|]. split; [intros j; lia|].
      by rewrite Hraise.
Qed.

(** Not more names in a row are taken than paths exist. *)
Lemma taken_names_bounded (fs : FileSystem) (base_path : Path)
    (sanitized extension : string) (counter n : nat) :
  (∀ j, counter ≤ j < counter + n →
        path_exists fs (numbered_name base_path sanitized extension j) = true) →
  n ≤ fs_size fs.
Proof.
  intros Htaken. unfold fs_size.
  set (names := numbered_name base_path sanitized extension <$> seq counter n).
  assert (NoDup names) as Hnd.
  { pose proof (numbered_name_inj base_path sanitized extension) as Hinj.
    apply (NoDup_fmap_2 _). apply NoDup_seq. }
  assert (length names = n) as Hlen.
  { unfold names. by rewrite length_fmap, length_seq. }
  rewrite <- Hlen, <- (size_list_to_set (C := gset Path) names Hnd).
  apply subseteq_size. intros path Hpath.
  apply elem_of_list_to_set, list_elem_of_fmap in Hpath as (j & -> & Hj).
  apply elem_of_seq in Hj. apply path_exists_true, Htaken. lia.
Qed.

(** [make_unique_filename] ends, at the first of the names it tries that
    is free or at which [exists()] raises: it returns that name, or the
    exception leaves it. *)
Lemma make_unique_filename_ends (env : Surroundings) (fs : FileSystem)
    (base_path : Path) (name extension : string) :
  let sanitized := sanitize_filename name default_max_length in
  ∃ k,
    (∀ j, j < k →
          exists_raises env fs (candidate base_path sanitized extension j)
            = None ∧
          path_exists fs (candidate base_path sanitized extension j) = true) ∧
    match exists_raises env fs (candidate base_path sanitized extension k) with
    | Some e =>
      make_unique_filename env fs base_path name extension = Some (Raise e)
    | None =>
      path_exists fs (candidate base_path sanitized extension k) = false ∧
      make_unique_filename env fs base_path name extension
        = Some (Ok (candidate base_path sanitized extension k))
    end.
Proof.
  intros sanitized. unfold make_unique_filename, exists_at.
  fold sanitized.
  change (path_join base_path (sanitized +:+ extension))
    with (candidate base_path sanitized extension 0).
  destruct (exists_raises env fs (candidate base_path sanitized extension 0))
    as [e|] eqn:Hraise.
  { exists 0. split; [intros j; lia|]. by rewrite Hraise. }
  destruct (path_exists fs (candidate base_path sanitized extension 0))
    eqn:Hplain.
  2:{ exists 0. split; [intros j; lia|]. by rewrite Hraise. }
  pose proof (next_free_name_spec env (S (fs_size fs)) fs base_path sanitized
                extension 1) as Hspec.
  destruct (next_free_name env _ fs base_path sanitized extension 1) as [r|].
  - destruct Hspec as (k & Hk & Hbelow & Hat).
    exists k. destruct k as [|k]; [lia|]. split.
    + intros j Hj. destruct j as [|j]; [done|]. apply Hbelow. lia.
    + change (candidate base_path sanitized extension (S k))
        with (numbered_name base_path sanitized extension (S k)).
      destruct (exists_raises env fs
                  (numbered_name base_path sanitized extension (S k)));
        [by subst|].
      by destruct Hat as [? ->].
  - apply taken_names_bounded in Hspec. lia.
Qed.

(** The name is the first that is free, when [exists()] raises at none of
    the names up to it. *)
Lemma make_unique_filename_first (env : Surroundings) (fs : FileSystem)
    (base_path : Path) (name extension : string) (k : nat) :
  let sanitized := sanitize_filename name default_max_length in
  (∀ j, j ≤ k →
        exists_raises env fs (candidate base_path sanitized extension j)
          = None) →
  (∀ j, j < k →
        path_exists fs (candidate base_path sanitized extension j) = true) →
  path_exists fs (candidate base_path sanitized extension k) = false →
  make_unique_filename env fs base_path name extension
    = Some (Ok (candidate base_path sanitized extension k)).
Proof.
  intros sanitized Hquiet Htaken Hfree.
  destruct (make_unique_filename_ends env fs base_path name extension)
    as (k' & Hbelow & Hat).
  fold sanitized in Hbelow, Hat.
  destruct (Nat.lt_trichotomy k' k) as [Hlt|[->|Hgt]].
  - rewrite Hquiet in Hat by lia. destruct Hat as [Hfree' _].
    rewrite Htaken in Hfree' by done. discriminate Hfree'.
  - rewrite Hquiet in Hat by lia. by destruct Hat.
  - destruct (Hbelow k Hgt) as [_ Htaken']. congruence.
Qed.

(** ** Leaf documents *)

(** [export_node] unfolded once. *)
Lemma export_node_unfold (env : Surroundings)
    (node : PageNode) (parent_path : Path) (self : Exporter) (fs : FileSystem) :
  export_node env node parent_path self fs =
    let '(content, self) := export_page_content env self (page_id node) in
    match content with
    | None => (Ok false, self, fs)
    | Some content =>
      match children node with
      | _ :: _ =>
        let folder_path := folder_of node parent_path in
        let '(created, self, fs) := create_directory env self fs folder_path in
        if negb created then
          (Ok false,
           record_error self (page_id node) "Failed to create directory", fs)
        else
          let index_path := index_of node parent_path in
          let '(written, self, fs) :=
            write_file env self fs index_path content in
          if negb written then
            (Ok false,
             record_error self (page_id node) "Failed to write index.md", fs)
          else
            let self := count_page self in
            let '(raised, self, fs) :=
              export_each (λ child, export_node env child folder_path)
                          (children node) self fs in
            match raised with
            | Some e => (Raise e, self, fs)
            | None => (Ok true, self, fs)
            end
      | [] =>
        match make_unique_filename env fs parent_path (title node) ".md" with
        | None => (Ok false, self, fs)
        | Some (Raise e) => (Raise e, self, fs)
        | Some (Ok file_path) =>
          let '(written, self, fs) :=
            write_file env self fs file_path content in
          if negb written then
            (Ok false,
             record_error self (page_id node) "Failed to write file", fs)
          else (Ok true, count_page self, fs)
        end
      end
    end.
Proof. by destruct node as [id t parent cs db hc]. Qed.

(** The content of a page that is fetched and converted. *)
Lemma export_page_content_fetched (env : Surroundings) (self : Exporter)
    (page_id : string) (blocks : list Block) :
  get_block_children (client self) page_id = Ok blocks →
  convert_raises env page_id blocks = None →
  export_page_content env self page_id =
    (Some (convert_blocks (converter self) blocks).1,
     set_converter self (convert_blocks (converter self) blocks).2).
Proof.
  intros Hget Hconv. unfold export_page_content. rewrite Hget, Hconv.
  by destruct (convert_blocks (converter self) blocks).
Qed.

Lemma export_node_leaf (env : Surroundings)
    (node : PageNode) (parent_path : Path) (self : Exporter) (fs : FileSystem)
    (blocks : list Block) (file_path : Path) :
  children node = [] →
  get_block_children (client self) (page_id node) = Ok blocks →
  convert_raises env (page_id node) blocks = None →
  dry_run self = false →
  make_unique_filename env fs parent_path (title node) ".md"
    = Some (Ok file_path) →
  write_raises env fs file_path (convert_blocks (converter self) blocks).1
    = None →
  export_node env node parent_path self fs =
    (Ok true,
     count_page (count_file
       (set_converter self (convert_blocks (converter self) blocks).2)),
     {| fs_files :=
          <[file_path := (convert_blocks (converter self) blocks).1]>
            (fs_files fs);
        fs_dirs := fs_dirs fs |}).
Proof.
  intros Hleaf Hget Hconv Hdry Hname Hwrite.
  rewrite export_node_unfold, (export_page_content_fetched _ _ _ blocks) by done.
  rewrite Hleaf, Hname. unfold write_file. cbn [set_converter dry_run].
  by rewrite Hdry, Hwrite.
Qed.

Lemma path_exists_insert (fs : FileSystem) (path other : Path) (content : string) :
  path_exists {| fs_files := <[path := content]> (fs_files fs);
                 fs_dirs := fs_dirs fs |} other =
  bool_decide (other = path) || path_exists fs other.
Proof.
  unfold path_exists. simpl. rewrite dom_insert_L.
  apply eq_true_iff_eq.
  rewrite !orb_true_iff, !bool_decide_eq_true. set_solver.
Qed.

(** The document of a childless node goes to the first free name. *)
Lemma export_node_leaf_at (env : Surroundings)
    (node : PageNode) (parent_path : Path) (self : Exporter) (fs : FileSystem)
    (blocks : list Block) (k : nat) :
  let sanitized := sanitize_filename (title node) default_max_length in
  let md := (convert_blocks (converter self) blocks).1 in
  children node = [] →
  dry_run self = false →
  get_block_children (client self) (page_id node) = Ok blocks →
  convert_raises env (page_id node) blocks = None →
  (∀ j, j ≤ k →
        exists_raises env fs (candidate parent_path sanitized ".md" j) = None) →
  (∀ j, j < k →
        path_exists fs (candidate parent_path sanitized ".md" j) = true) →
  path_exists fs (candidate parent_path sanitized ".md" k) = false →
  write_raises env fs (candidate parent_path sanitized ".md" k) md = None →
  export_node env node parent_path self fs =
    (Ok true,
     count_page (count_file
       (set_converter self (convert_blocks (converter self) blocks).2)),
     {| fs_files := <[candidate parent_path sanitized ".md" k := md]> (fs_files fs);
        fs_dirs := fs_dirs fs |}).
Proof.
  intros sanitized md Hleaf Hdry Hget Hconv Hquiet Htaken Hfree Hwrite.
  apply export_node_leaf; try done.
  by apply make_unique_filename_first.
Qed.

(** C6: the document of a childless node is named after the sanitized
    title.  [make_unique_filename] tries the plain name and then the names
    with the suffix _1, _2, ... and ends at the first that does not exist
    at the destination, whatever put the others there (or at the first at
    which the check raises); [export_node] writes the document of a
    childless node to that name and to no other path; and two childless
    siblings whose titles sanitize to Notes, exported one after the other
    into a directory that holds neither name, are written to Notes.md and
    to Notes_1.md. *)
Theorem leaf_names_are_unique_at_the_destination
    (env : Surroundings)
    (self : Exporter) (fs : FileSystem) (parent_path : Path)
    (first second : PageNode) (blocks1 blocks2 : list Block) :
  (∀ name extension,
     let sanitized := sanitize_filename name default_max_length in
     ∃ k,
       (∀ j, j < k →
             exists_raises env fs (candidate parent_path sanitized extension j)
               = None ∧
             path_exists fs (candidate parent_path sanitized extension j)
               = true) ∧
       match exists_raises env fs
               (candidate parent_path sanitized extension k) with
       | Some e =>
         make_unique_filename env fs parent_path name extension
           = Some (Raise e)
       | None =>
         path_exists fs (candidate parent_path sanitized extension k) = false ∧
         make_unique_filename env fs parent_path name extension
           = Some (Ok (candidate parent_path sanitized extension k))
       end) ∧
  (∀ node blocks k,
     let sanitized := sanitize_filename (title node) default_max_length in
     let md := (convert_blocks (converter self) blocks).1 in
     children node = [] →
     dry_run self = false →
     get_block_children (client self) (page_id node) = Ok blocks →
     convert_raises env (page_id node) blocks = None →
     (∀ j, j ≤ k →
           exists_raises env fs (candidate parent_path sanitized ".md" j)
             = None) →
     (∀ j, j < k →
           path_exists fs (candidate parent_path sanitized ".md" j) = true) →
     path_exists fs (candidate parent_path sanitized ".md" k) = false →
     write_raises env fs (candidate parent_path sanitized ".md" k) md = None →
     let r := export_node env node parent_path self fs in
     r.1.1 = Ok true ∧
     fs_files r.2 =
       <[candidate parent_path sanitized ".md" k := md]> (fs_files fs) ∧
     fs_dirs r.2 = fs_dirs fs) ∧
  (children first = [] → children second = [] →
   sanitize_filename (title first) default_max_length = "Notes" →
   sanitize_filename (title second) default_max_length = "Notes" →
   dry_run self = false →
   get_block_children (client self) (page_id first) = Ok blocks1 →
   get_block_children (client self) (page_id second) = Ok blocks2 →
   convert_raises env (page_id first) blocks1 = None →
   convert_raises env (page_id second) blocks2 = None →
   (∀ fs' path, exists_raises env fs' path = None) →
   (∀ fs' path content, write_raises env fs' path content = None) →
   path_exists fs (path_join parent_path "Notes.md") = false →
   path_exists fs (path_join parent_path "Notes_1.md") = false →
   let r1 := export_node env first parent_path self fs in
   let r2 := export_node env second parent_path r1.1.2 r1.2 in
   r1.1.1 = Ok true ∧ r2.1.1 = Ok true ∧
   fs_files r1.2 =
     <[path_join parent_path "Notes.md" :=
         (convert_blocks (converter self) blocks1).1]> (fs_files fs) ∧
   fs_files r2.2 =
     <[path_join parent_path "Notes_1.md" :=
         (convert_blocks (converter r1.1.2) blocks2).1]> (fs_files r1.2)).
Proof.
  split; [intros name extension; apply make_unique_filename_ends|].
  split.
  { intros node blocks k sanitized md Hleaf Hdry Hget Hconv Hquiet Htaken Hfree
           Hwrite r.
    unfold r. by rewrite (export_node_leaf_at env node parent_path self fs
                            blocks k). }
  intros Hleaf1 Hleaf2 Hname1 Hname2 Hdry Hget1 Hget2 Hconv1 Hconv2 Hquiet Hwrite
         Hfree Hfree1 r1 r2.
  assert (r1 = (Ok true,
     count_page (count_file
       (set_converter self (convert_blocks (converter self) blocks1).2)),
     {| fs_files :=
          <[path_join parent_path "Notes.md" :=
              (convert_blocks (converter self) blocks1).1]> (fs_files fs);
        fs_dirs := fs_dirs fs |})) as Hr1.
  { unfold r1.
    rewrite (export_node_leaf_at env first parent_path self fs blocks1 0);
      rewrite ?Hname1; try done.
    intros j Hj. lia. }
  set (fs1 := {| fs_files :=
          <[path_join parent_path "Notes.md" :=
              (convert_blocks (converter self) blocks1).1]> (fs_files fs);
        fs_dirs := fs_dirs fs |}) in *.
  assert (r2 = (Ok true,
     count_page (count_file
       (set_converter r1.1.2 (convert_blocks (converter r1.1.2) blocks2).2)),
     {| fs_files :=
          <[path_join parent_path "Notes_1.md" :=
              (convert_blocks (converter r1.1.2) blocks2).1]> (fs_files r1.2);
        fs_dirs := fs_dirs r1.2 |})) as Hr2.
  { unfold r2. rewrite Hr1. cbn [fst snd].
    rewrite (export_node_leaf_at env second parent_path _ fs1 blocks2 1);
      rewrite ?Hname2; try done.
    - intros j Hj. assert (j = 0) as -> by lia.
      unfold fs1. rewrite path_exists_insert.
      by rewrite bool_decide_eq_true_2.
    - unfold fs1. rewrite path_exists_insert.
      change (candidate parent_path "Notes" ".md" 1)
        with (path_join parent_path "Notes_1.md").
      rewrite Hfree1, orb_false_r. apply bool_decide_eq_false.
      unfold path_join. intros Heq%app_inv_head. discriminate Heq. }
  rewrite Hr2. rewrite Hr1. cbn [fst snd fs_files]. done.
Qed.

Lemma leaf_names_are_unique_at_the_destination_witness :
  let r1 :=
    export_node quiet (leaf_node "n1" "Notes") ["out"]
                notes_exporter empty_fs in
  let r2 :=
    export_node quiet (leaf_node "n2" "Notes") ["out"]
                r1.1.2 r1.2 in
  r1.1.1 = Ok true ∧ r2.1.1 = Ok true ∧
  fs_files r1.2 = <[ ["out"; "Notes.md"] := "first" ]> ∅ ∧
  fs_files r2.2 = <[ ["out"; "Notes_1.md"] := "second" ]> (fs_files r1.2).
Proof.
  apply (proj2 (proj2 (leaf_names_are_unique_at_the_destination
           quiet notes_exporter empty_fs ["out"]
           (leaf_node "n1" "Notes") (leaf_node "n2" "Notes")
           [block_of "paragraph" "b1" (text_payload "first")]
           [block_of "paragraph" "b2" (text_payload "second")])));
    try reflexivity; try done.
Defined.


(** ** Failures at a node with children *)

Lemma export_node_fetch_fails (env : Surroundings)
    (node : PageNode) (parent_path : Path) (self : Exporter) (fs : FileSystem)
    (e : string) :
  get_block_children (client self) (page_id node) = Raise e →
  export_node env node parent_path self fs =
    (Ok false, record_error self (page_id node) e, fs).
Proof.
  intros Hget. rewrite export_node_unfold.
  unfold export_page_content. by rewrite Hget.
Qed.

Lemma export_node_convert_fails (env : Surroundings)
    (node : PageNode) (parent_path : Path) (self : Exporter) (fs : FileSystem)
    (blocks : list Block) (i : nat) (e : string) :
  get_block_children (client self) (page_id node) = Ok blocks →
  convert_raises env (page_id node) blocks = Some (i, e) →
  export_node env node parent_path self fs =
    (Ok false,
     record_error
       (set_converter self (convert_blocks (converter self) (take i blocks)).2)
       (page_id node) e,
     fs).
Proof.
  intros Hget Hconv. rewrite export_node_unfold.
  unfold export_page_content. by rewrite Hget, Hconv.
Qed.

Lemma export_node_mkdir_fails (env : Surroundings)
    (node : PageNode) (parent_path : Path) (self : Exporter) (fs : FileSystem)
    (blocks : list Block) (made : nat) :
  children node ≠ [] →
  get_block_children (client self) (page_id node) = Ok blocks →
  convert_raises env (page_id node) blocks = None →
  dry_run self = false →
  mkdir_raises env fs (folder_of node parent_path) = Some made →
  export_node env node parent_path self fs =
    (Ok false,
     record_error
       (set_converter self (convert_blocks (converter self) blocks).2)
       (page_id node) "Failed to create directory",
     {| fs_files := fs_files fs;
        fs_dirs :=
          with_parents
            (take (made `min` (length (folder_of node parent_path) - 1))
                  (folder_of node parent_path)) ∪ fs_dirs fs |}).
Proof.
  intros Hchildren Hget Hconv Hdry Hmkdir.
  rewrite export_node_unfold, (export_page_content_fetched _ _ _ blocks) by done.
  destruct (children node) as [|c cs]; [done|].
  cbv zeta. unfold create_directory. cbn [set_converter dry_run].
  by rewrite Hdry, Hmkdir.
Qed.

Lemma export_node_index_fails (env : Surroundings)
    (node : PageNode) (parent_path : Path) (self : Exporter) (fs : FileSystem)
    (blocks : list Block) (remains : option string) :
  let folder_path := folder_of node parent_path in
  let md := (convert_blocks (converter self) blocks).1 in
  children node ≠ [] →
  get_block_children (client self) (page_id node) = Ok blocks →
  convert_raises env (page_id node) blocks = None →
  dry_run self = false →
  mkdir_raises env fs folder_path = None →
  write_raises env (with_directory fs folder_path) (index_of node parent_path)
               md = Some remains →
  export_node env node parent_path self fs =
    (Ok false,
     record_error
       (count_folder
          (set_converter self (convert_blocks (converter self) blocks).2)
          folder_path)
       (page_id node) "Failed to write index.md",
     match remains with
     | Some partial =>
       {| fs_files := <[index_of node parent_path := partial]> (fs_files fs);
          fs_dirs := with_parents folder_path ∪ fs_dirs fs |}
     | None => with_directory fs folder_path
     end).
Proof.
  intros folder_path md Hchildren Hget Hconv Hdry Hmkdir Hwrite.
  rewrite export_node_unfold, (export_page_content_fetched _ _ _ blocks) by done.
  destruct (children node) as [|c cs]; [done|].
  cbv zeta. unfold create_directory. cbn [set_converter dry_run].
  fold folder_path. rewrite Hdry, Hmkdir. cbn [negb].
  unfold write_file.
  assert (dry_run (count_folder
                     (set_converter self
                        (convert_blocks (converter self) blocks).2)
                     folder_path) = false) as ->.
  { unfold count_folder. by destruct (decide _). }
  fold (with_directory fs folder_path). fold md. rewrite Hwrite. cbn [negb].
  by destruct remains.
Qed.

(** The loops over siblings go on with the next sibling whatever a call
    returned, and end when a call raises. *)
Lemma export_each_siblings (env : Surroundings) (path : Path)
    (nodes : list PageNode) :
  ∀ (b : bool) (self : Exporter) (fs : FileSystem),
    let final := foldl (next_sibling env path) (Ok b, self, fs) nodes in
    export_each (λ child, export_node env child path) nodes self fs =
      (match final.1.1 with Raise e => Some e | Ok _ => None end,
       final.1.2, final.2).
Proof.
  induction nodes as [|node nodes IH]; intros b self fs; [done|].
  cbv zeta. cbn [export_each foldl].
  change (next_sibling env path (Ok b, self, fs) node)
    with (export_node env node path self fs).
  destruct (export_node env node path self fs) as [[[b'|e] self1] fs1].
  - apply IH.
  - assert (∀ l, foldl (next_sibling env path) (Raise e, self1, fs1) l
                 = (Raise e, self1, fs1)) as ->; [|done].
    intros l. induction l as [|n l IHl]; [done|]. by cbn.
Qed.

(** The export of a node with children whose folder is ready. *)
Lemma export_node_ready (env : Surroundings)
    (node : PageNode) (parent_path : Path) (self : Exporter) (fs : FileSystem)
    (ready : Exporter * FileSystem) :
  children node ≠ [] →
  folder_ready env node parent_path self fs ready →
  let final :=
    after_siblings env (folder_of node parent_path) ready.1 ready.2
                   (children node) in
  export_node env node parent_path self fs =
    (match final.1.1 with Raise e => Raise e | Ok _ => Ok true end,
     final.1.2, final.2).
Proof.
  intros Hchildren (blocks & Hget & Hconv & Hready) final.
  rewrite export_node_unfold, (export_page_content_fetched _ _ _ blocks) by done.
  destruct (children node) as [|c cs] eqn:Hcs; [done|].
  cbv zeta in *. unfold create_directory, write_file.
  cbn [set_converter dry_run].
  destruct (dry_run self) eqn:Hdry.
  - cbn [negb set_converter dry_run]. rewrite Hdry. cbn [negb].
    rewrite (export_each_siblings env _ (c :: cs) true).
    unfold final, after_siblings. rewrite Hready. cbn [fst snd].
    by destruct (foldl _ _ _) as [[[?|?] ?] ?].
  - destruct Hready as (Hmkdir & Hwrite & Hready).
    rewrite Hmkdir. cbn [negb].
    assert (dry_run (count_folder
                       (set_converter self
                          (convert_blocks (converter self) blocks).2)
                       (folder_of node parent_path)) = false) as ->.
    { unfold count_folder. by destruct (decide _). }
    fold (with_directory fs (folder_of node parent_path)).
    rewrite Hwrite. cbn [negb].
    rewrite (export_each_siblings env _ (c :: cs) true).
    unfold final, after_siblings. rewrite Hready. cbn [fst snd].
    by destruct (foldl _ _ _) as [[[?|?] ?] ?].
Qed.

Lemma export_hierarchy_ready (env : Surroundings)
    (self : Exporter) (fs : FileSystem) (roots : list PageNode)
    (ready : Exporter * FileSystem) :
  output_ready env self fs ready →
  let final := after_siblings env (output_dir self) ready.1 ready.2 roots in
  export_hierarchy env self fs roots =
    match final.1.1 with
    | Raise e => (Raise e, final.1.2, final.2)
    | Ok _ => (Ok (stats (with_log final.1.2)), with_log final.1.2, final.2)
    end.
Proof.
  intros Hready final. unfold export_hierarchy, create_directory.
  unfold output_ready in Hready.
  destruct (dry_run self) eqn:Hdry.
  - cbn [negb]. rewrite (export_each_siblings env _ roots true).
    unfold final, after_siblings. rewrite Hready. cbn [fst snd].
    by destruct (foldl _ _ _) as [[[?|?] ?] ?].
  - destruct Hready as [Hmkdir Hready]. rewrite Hmkdir. cbn [negb].
    assert (output_dir (count_folder self (output_dir self)) = output_dir self)
      as -> by (unfold count_folder; by destruct (decide _)).
    rewrite (export_each_siblings env _ roots true).
    unfold final, after_siblings. rewrite Hready. cbn [fst snd].
    by destruct (foldl _ _ _) as [[[?|?] ?] ?].
Qed.

(** C10: when the export of a node that has children fails at the fetch of
    its content, at the creation of its directory or at the writing of its
    index.md, [export_node] returns false with exactly one more error, for
    that page, and one more failed page; no page is counted as exported
    and no file is counted; at the destination no file but the index.md of
    the node can differ; and the result does not depend on the children:
    none of them is visited.  Siblings are still processed, at every
    level: once the folder of a node (or the output directory) is ready,
    the children of the node (or the roots) are exported one after the
    other, each from what the one before left, whatever the calls
    returned, up to the end of the list or to a call that raises. *)
Theorem failed_folder_drops_its_subtree
    (env : Surroundings)
    (node : PageNode) (parent_path : Path) (self : Exporter) (fs : FileSystem) :
  (children node ≠ [] →
   folder_export_fails env node parent_path self fs →
   let r := export_node env node parent_path self fs in
   r.1.1 = Ok false ∧
   (∃ msg, errors (stats r.1.2) = errors (stats self) ++ [(page_id node, msg)]) ∧
   pages_failed (stats r.1.2) = S (pages_failed (stats self)) ∧
   pages_exported (stats r.1.2) = pages_exported (stats self) ∧
   files_created (stats r.1.2) = files_created (stats self) ∧
   (∀ path, path ≠ index_of node parent_path →
            fs_files r.2 !! path = fs_files fs !! path) ∧
   ∀ cs, cs ≠ [] →
         export_node env (with_children node cs) parent_path self fs = r) ∧
  (∀ ready,
     children node ≠ [] →
     folder_ready env node parent_path self fs ready →
     let final :=
       after_siblings env (folder_of node parent_path) ready.1 ready.2
                      (children node) in
     export_node env node parent_path self fs =
       (match final.1.1 with Raise e => Raise e | Ok _ => Ok true end,
        final.1.2, final.2)) ∧
  (∀ ready roots,
     output_ready env self fs ready →
     let final := after_siblings env (output_dir self) ready.1 ready.2 roots in
     export_hierarchy env self fs roots =
       match final.1.1 with
       | Raise e => (Raise e, final.1.2, final.2)
       | Ok _ => (Ok (stats (with_log final.1.2)), with_log final.1.2, final.2)
       end).
Proof.
  split; [|split; [intros ready; apply export_node_ready
                  |intros ready roots; apply export_hierarchy_ready]].
  intros Hchildren
    [[e Hget]|(blocks & Hget &
               [[[i e] Hconv]|(Hconv & Hdry &
                               [[made Hmkdir]|(Hmkdir & remains & Hwrite)])])] r.
  - unfold r. rewrite (export_node_fetch_fails _ _ _ _ _ e Hget).
    repeat split; [by exists e|].
    intros cs Hcs. by rewrite (export_node_fetch_fails _ _ _ _ _ e).
  - unfold r. rewrite (export_node_convert_fails _ _ _ _ _ blocks i e Hget Hconv).
    repeat split; [by exists e|].
    intros cs Hcs. by rewrite (export_node_convert_fails _ _ _ _ _ blocks i e).
  - unfold r.
    rewrite (export_node_mkdir_fails _ _ _ _ _ blocks made Hchildren Hget Hconv
               Hdry Hmkdir).
    repeat split; [by eexists|].
    intros cs Hcs.
    by rewrite (export_node_mkdir_fails _ _ _ _ _ blocks made).
  - unfold r.
    rewrite (export_node_index_fails _ _ _ _ _ blocks remains Hchildren Hget
               Hconv Hdry Hmkdir Hwrite).
    cbn [fst snd]. unfold count_folder.
    assert (∀ path, path ≠ index_of node parent_path →
      fs_files
        match remains with
        | Some partial =>
          {| fs_files :=
               <[index_of node parent_path := partial]> (fs_files fs);
             fs_dirs := with_parents (folder_of node parent_path) ∪ fs_dirs fs |}
        | None => with_directory fs (folder_of node parent_path)
        end !! path = fs_files fs !! path) as Hfiles.
    { intros path Hne. destruct remains; [|done].
      simpl. by rewrite lookup_insert_ne. }
    destruct (decide _);
      (repeat split; [by eexists|done|]);
      intros cs Hcs;
      rewrite (export_node_index_fails _ _ _ _ _ blocks remains) by done;
      unfold count_folder; cbn [title page_id with_children];
      by destruct (decide _).
Qed.

Lemma failed_folder_drops_its_subtree_witness :
  let node := folder_node "n1" "Notes" [leaf_node "n2" "Notes"] in
  let r := export_node no_directories node ["out"] notes_exporter empty_fs in
  r.1.1 = Ok false ∧
  (∃ msg, errors (stats r.1.2) = [] ++ [("n1", msg)]) ∧
  pages_failed (stats r.1.2) = 1 ∧
  pages_exported (stats r.1.2) = 0 ∧
  files_created (stats r.1.2) = 0 ∧
  (∀ path, path ≠ ["out"; "Notes"; "index.md"] →
           fs_files r.2 !! path = (∅ : gmap Path string) !! path) ∧
  ∀ cs, cs ≠ [] →
        export_node no_directories (with_children node cs)
                    ["out"] notes_exporter empty_fs = r.
Proof.
  apply (proj1 (failed_folder_drops_its_subtree no_directories
                  (folder_node "n1" "Notes" [leaf_node "n2" "Notes"])
                  ["out"] notes_exporter empty_fs)).
  - discriminate.
  - right. eexists. split; [reflexivity|]. right.
    split; [reflexivity|]. split; [reflexivity|].
    left. by eexists.
Defined.

(** A sibling of a failed folder is exported: below [out], a folder that
    cannot be fetched is followed by a page that is written. *)
Example sibling_of_a_failed_folder_is_exported :
  let self := new_exporter notes_client ["out"] false false in
  let r := export_hierarchy quiet self empty_fs
             [folder_node "gone" "Lost" [leaf_node "n1" "Notes"];
              leaf_node "n2" "Notes"] in
  fs_files r.2 = {[ ["out"; "Notes.md"] := "second" ]} ∧
  ∃ stats, r.1.1 = Ok stats ∧
           pages_exported stats = 1 ∧ pages_failed stats = 1.
Proof. vm_compute. split; [done|]. by eexists. Qed.
(** * Further properties *)

(** ** Inline spans and fragments *)

Lemma concat_empty_cons (x : string) (xs : list string) :
  String.concat "" (x :: xs) = x +:+ String.concat "" xs.
Proof.
  destruct xs as [|y ys]; simpl; [by rewrite app_nil_r_str|reflexivity].
Qed.

Lemma concat_empty_app (l1 l2 : list string) :
  String.concat "" (l1 ++ l2) = String.concat "" l1 +:+ String.concat "" l2.
Proof.
  induction l1 as [|x l1 IH]; [reflexivity|].
  rewrite <- app_comm_cons, !concat_empty_cons, IH. by rewrite app_assoc_str.
Qed.

Lemma convert_rich_text_concat (spans : list RichText) :
  convert_rich_text spans = String.concat "" (map convert_span spans).
Proof. by destruct spans. Qed.

(** X1: the rendering of a sequence of spans is the renderings of its
    parts put side by side, without any separator. *)
Theorem convert_rich_text_app (spans1 spans2 : list RichText) :
  convert_rich_text (spans1 ++ spans2) =
    convert_rich_text spans1 +:+ convert_rich_text spans2.
Proof.
  rewrite !convert_rich_text_concat, map_app. apply concat_empty_app.
Qed.

Lemma append_fragment_truthy (result : list string) (md : string) :
  Forall (λ f, Py.truthy f = true) result →
  Forall (λ f, Py.truthy f = true) (append_fragment result md).
Proof.
  intros Hres. unfold append_fragment.
  destruct (Py.truthy md) eqn:Hmd; [|done].
  apply Forall_app. split; [done|]. by constructor.
Qed.

Lemma run_fragments_truthy (blocks : list Block) (st : LoopState) :
  Forall (λ f, Py.truthy f = true) (ls_result st) →
  Forall (λ f, Py.truthy f = true) (ls_result (run blocks st)).
Proof.
  revert st. apply (loop_ind blocks (λ st,
    Forall (λ f, Py.truthy f = true) (ls_result st) →
    Forall (λ f, Py.truthy f = true) (ls_result (run blocks st)))).
  - intros st Hnone Hst. by rewrite run_done.
  - intros st block Hi IH Hst. rewrite (run_step _ _ _ Hi). apply IH.
    destruct (opt_is (b_type block) "table") eqn:Htable.
    + rewrite loop_body_table by done. simpl. by apply append_fragment_truthy.
    + rewrite loop_body_other by done. simpl. by apply append_fragment_truthy.
Qed.

Lemma concat_truthy (sep : string) (l : list string) :
  Forall (λ f, Py.truthy f = true) l →
  String.concat sep l = "" → l = [].
Proof.
  intros Hall Hempty. destruct Hall as [|x l Hx Hl]; [done|].
  destruct x as [|c x]; [done|]. simpl in Hempty.
  destruct l; discriminate Hempty.
Qed.

(** X2: no fragment that [convert_blocks] joins is empty, so the body of a
    page is empty only when no block gave a fragment. *)
Theorem convert_blocks_keeps_no_empty_fragment
    (self : MarkdownConverter) (blocks : list Block) :
  Forall (λ f, Py.truthy f = true) (ls_result (final_state self blocks)) ∧
  ((convert_blocks self blocks).1 = "" ↔ ls_result (final_state self blocks) = []).
Proof.
  assert (Forall (λ f, Py.truthy f = true)
                 (ls_result (final_state self blocks))) as Hall.
  { rewrite final_state_run. apply run_fragments_truthy. constructor. }
  split; [done|]. unfold convert_blocks. cbn [fst]. split.
  - by apply concat_truthy.
  - by intros ->.
Qed.

(** ** The log of unsupported features *)

(** What [convert_block] does to the converter: it appends the records of
    the block and nothing else. *)
Lemma convert_block_log (self : MarkdownConverter) (block : Block)
    (list_counter : gmap string Z) :
  (convert_block self block list_counter).1.2 =
    {| unsupported_features :=
         unsupported_features self ++
         block_records (track_skipped_databases self) block;
       track_skipped_databases := track_skipped_databases self |}.
Proof.
  unfold block_records, convert_block. destruct self as [log track].
  repeat (destruct (opt_is (b_type block) _);
          [simpl; rewrite ?app_nil_r; try reflexivity;
           repeat case_match; simpl; rewrite ?app_nil_r; reflexivity|]).
  reflexivity.
Qed.

Lemma block_records_table (track : bool) (block : Block) :
  opt_is (b_type block) "table" = true → block_records track block = [].
Proof.
  unfold block_records, convert_block.
  destruct (b_type block) as [t|]; [|done]. simpl.
  intros ->%String.eqb_eq. reflexivity.
Qed.

Lemma block_records_row (track : bool) (block : Block) :
  opt_is (b_type block) "table_row" = true → block_records track block = [].
Proof.
  unfold block_records, convert_block.
  destruct (b_type block) as [t|]; [|done]. simpl.
  intros ->%String.eqb_eq. reflexivity.
Qed.

Lemma leading_rows_split (l : list Block) :
  l = leading_rows l ++ drop (length (leading_rows l)) l.
Proof.
  induction l as [|b l IH]; simpl; [done|].
  destruct (opt_is (b_type b) "table_row"); simpl; [by f_equal|done].
Qed.

Lemma flat_map_records_rows (track : bool) (l : list Block) :
  flat_map (block_records track) l =
  flat_map (block_records track) (drop (length (leading_rows l)) l).
Proof.
  rewrite (leading_rows_split l) at 1. rewrite flat_map_app.
  assert (flat_map (block_records track) (leading_rows l) = []) as ->; [|done].
  pose proof (leading_rows_Forall l) as Hrows.
  induction Hrows as [|row rows Hrow _ IH]; simpl; [done|].
  by rewrite IH, block_records_row.
Qed.

Lemma run_log (blocks : list Block) (st : LoopState) :
  ls_self (run blocks st) =
    {| unsupported_features :=
         unsupported_features (ls_self st) ++
         flat_map (block_records (track_skipped_databases (ls_self st)))
                  (drop (ls_i st) blocks);
       track_skipped_databases := track_skipped_databases (ls_self st) |}.
Proof.
  revert st. apply (loop_ind blocks (λ st,
    ls_self (run blocks st) =
    {| unsupported_features :=
         unsupported_features (ls_self st) ++
         flat_map (block_records (track_skipped_databases (ls_self st)))
                  (drop (ls_i st) blocks);
       track_skipped_databases := track_skipped_databases (ls_self st) |})).
  - intros st Hnone. rewrite run_done by done.
    apply lookup_ge_None in Hnone. rewrite drop_ge by done. simpl.
    rewrite app_nil_r. by destruct (ls_self st).
  - intros st block Hi IH. rewrite (run_step _ _ _ Hi), IH.
    rewrite (drop_S _ _ _ Hi). simpl.
    destruct (opt_is (b_type block) "table") eqn:Htable.
    + rewrite loop_body_table by done. simpl.
      rewrite block_records_table by done. simpl.
      rewrite (flat_map_records_rows _ (drop (S (ls_i st)) blocks)).
      by rewrite drop_drop.
    + rewrite loop_body_other by done. simpl.
      rewrite convert_block_log. simpl. by rewrite app_assoc.
Qed.

(** X3: the log of unsupported features after a page is the log before it
    followed by the records of each block of the page, in the order of the
    blocks; tables and the rows they take contribute nothing, and the
    setting of the converter is kept. *)
Theorem convert_blocks_log_in_block_order
    (self : MarkdownConverter) (blocks : list Block) :
  unsupported_features (convert_blocks self blocks).2 =
    unsupported_features self ++
    flat_map (block_records (track_skipped_databases self)) blocks ∧
  track_skipped_databases (convert_blocks self blocks).2 =
    track_skipped_databases self.
Proof.
  unfold convert_blocks. cbn [snd]. rewrite final_state_run, run_log.
  simpl. by rewrite drop_0.
Qed.

(** X6: a block reported as not supported is still rendered, as a
    placeholder that opens with a square bracket; it is never dropped from
    the page. *)
Theorem unsupported_blocks_leave_a_placeholder
    (self : MarkdownConverter) (block : Block) (list_counter : gmap string Z) :
  (convert_block self block list_counter).1.1.2 = false →
  ∃ rest,
    (convert_block self block list_counter).1.1.1 = String "["%char rest ∧
    Py.truthy (convert_block self block list_counter).1.1.1 = true.
Proof.
  unfold convert_block.
  repeat (destruct (opt_is (b_type block) _);
          [simpl; try discriminate;
           repeat case_match; simpl; try discriminate;
           intros _; eexists; split; reflexivity|]).
  simpl. intros _. eexists. split; reflexivity.
Qed.

Lemma unsupported_blocks_leave_a_placeholder_witness :
  ∃ rest,
    (convert_block new_converter
       (block_of "bookmark" "b1" empty_payload) ∅).1.1.1
      = String "["%char rest ∧
    Py.truthy (convert_block new_converter
                 (block_of "bookmark" "b1" empty_payload) ∅).1.1.1 = true.
Proof.
  apply (unsupported_blocks_leave_a_placeholder new_converter
           (block_of "bookmark" "b1" empty_payload) ∅).
  reflexivity.
Defined.

(** ** Pages put together from parts *)

Lemma counter_shape_step (blocks : list Block) (block : Block) (st : LoopState) :
  counter_shape st → counter_shape (loop_body blocks block st).
Proof.
  intros Hshape. destruct (opt_is (b_type block) "table") eqn:Htable.
  - rewrite loop_body_table by done. by left.
  - rewrite loop_body_other by done. unfold counter_shape. simpl.
    destruct (is_numbered block) eqn:Hnum.
    + rewrite convert_block_numbered by done. simpl. right.
      destruct Hshape as [->|[n ->]]; eexists.
      * apply insert_empty.
      * apply insert_singleton_eq.
    + rewrite convert_block_counter by done. left.
      destruct Hshape as [->|[n ->]].
      * apply delete_empty.
      * apply delete_singleton_eq.
Qed.

Lemma counter_shape_run (blocks : list Block) (st : LoopState) :
  counter_shape st → counter_shape (run blocks st).
Proof.
  revert st. apply (loop_ind blocks
    (λ st, counter_shape st → counter_shape (run blocks st))).
  - intros st Hnone Hst. by rewrite run_done.
  - intros st block Hi IH Hst. rewrite (run_step _ _ _ Hi).
    apply IH. by apply counter_shape_step.
Qed.

Lemma append_fragment_app (before result : list string) (md : string) :
  append_fragment (before ++ result) md = before ++ append_fragment result md.
Proof.
  unfold append_fragment. destruct (Py.truthy md); [|done].
  by rewrite app_assoc.
Qed.

Lemma loop_body_shift (pre rest : list Block) (before : list string)
    (block : Block) (st : LoopState) :
  loop_body (pre ++ rest) block (shift (length pre) before st) =
    shift (length pre) before (loop_body rest block st).
Proof.
  destruct (opt_is (b_type block) "table") eqn:Htable.
  - rewrite !loop_body_table by done. unfold shift. simpl.
    replace (S (length pre + ls_i st)) with (length pre + S (ls_i st)) by lia.
    rewrite drop_app_add, append_fragment_app. f_equal. lia.
  - rewrite !loop_body_other by done. unfold shift. simpl.
    rewrite append_fragment_app. f_equal. lia.
Qed.

(** The loop on the blocks after [pre] does what it does on these blocks
    alone. *)
Lemma run_shift (pre rest : list Block) (before : list string) (st : LoopState) :
  run (pre ++ rest) (shift (length pre) before st) =
    shift (length pre) before (run rest st).
Proof.
  revert st. apply (loop_ind rest (λ st,
    run (pre ++ rest) (shift (length pre) before st) =
    shift (length pre) before (run rest st))).
  - intros st Hnone. rewrite (run_done rest) by done. apply run_done.
    simpl. rewrite lookup_app_r by lia.
    by replace (length pre + ls_i st - length pre) with (ls_i st) by lia.
  - intros st block Hi IH.
    rewrite (run_step rest _ _ Hi), <- IH, <- loop_body_shift.
    apply run_step. simpl. rewrite lookup_app_r by lia.
    by replace (length pre + ls_i st - length pre) with (ls_i st) by lia.
Qed.

(** X4: a page cut between two blocks, where the cut is neither inside a
    table (the second part does not begin with a table row) nor after a
    numbered item, is converted part by part: the fragments of the page
    are those of the first part followed by those of the second, the
    second converted by the converter the first leaves. *)
Theorem convert_blocks_part_by_part
    (self : MarkdownConverter) (pre rest : list Block) :
  starts_with_row rest = false →
  (∀ block, last pre = Some block → is_numbered block = false) →
  let self1 := (convert_blocks self pre).2 in
  ls_result (final_state self (pre ++ rest)) =
    ls_result (final_state self pre) ++ ls_result (final_state self1 rest) ∧
  (convert_blocks self (pre ++ rest)).2 = (convert_blocks self1 rest).2.
Proof.
  intros Hrow Hlast self1.
  assert (final_state self (pre ++ rest) =
          shift (length pre) (ls_result (final_state self pre))
                (final_state self1 rest)) as Heq.
  { rewrite (final_state_run self (pre ++ rest)).
    destruct (run_app pre rest (initial_state self) Hrow) as [Hi ->];
      [simpl; lia|].
    rewrite (final_state_run self1 rest), <- run_shift. f_equal.
    unfold self1, convert_blocks. cbn [snd]. rewrite final_state_run.
    set (st1 := run pre (initial_state self)) in *.
    assert (ls_counter st1 = ∅) as Hcounter.
    { pose proof (counter_reset_run pre (initial_state self)) as Hreset.
      pose proof (counter_shape_run pre (initial_state self)) as Hshape.
      fold st1 in Hreset, Hshape.
      assert (ls_counter st1 !! "numbered" = None) as Hnone.
      { unfold counter_reset in Hreset at 2. rewrite Hi in Hreset.
        destruct (length pre) as [|k] eqn:Hlen.
        - apply Hreset. unfold counter_reset. simpl. apply lookup_empty.
        - destruct (pre !! k) as [block|] eqn:Hk.
          + apply (Hreset ltac:(unfold counter_reset; simpl; apply lookup_empty)
                          block eq_refl).
            apply Hlast. by rewrite last_lookup, Hlen.
          + apply lookup_ge_None in Hk. lia. }
      destruct Hshape as [Hs|[n Hs]]; [by left|done|].
      rewrite Hs, lookup_singleton_eq in Hnone. discriminate Hnone. }
    destruct st1 as [i1 r1 c1 s1]. unfold shift, initial_state. simpl in *.
    subst. f_equal; [lia|by rewrite app_nil_r]. }
  rewrite Heq. split; [reflexivity|].
  unfold convert_blocks. cbn [snd]. by rewrite Heq.
Qed.

Lemma convert_blocks_part_by_part_witness :
  let pre := [block_of "table" "t1" empty_payload;
              block_of "table_row" "r1" (cells_payload ["a"; "b"])] in
  let rest := [block_of "numbered_list_item" "n1" (text_payload "one");
               block_of "synced_block" "s1" empty_payload] in
  let self1 := (convert_blocks new_converter pre).2 in
  ls_result (final_state new_converter (pre ++ rest)) =
    ls_result (final_state new_converter pre) ++
    ls_result (final_state self1 rest) ∧
  (convert_blocks new_converter (pre ++ rest)).2 =
    (convert_blocks self1 rest).2.
Proof.
  apply (convert_blocks_part_by_part new_converter
           [block_of "table" "t1" empty_payload;
            block_of "table_row" "r1" (cells_payload ["a"; "b"])]
           [block_of "numbered_list_item" "n1" (text_payload "one");
            block_of "synced_block" "s1" empty_payload]).
  - reflexivity.
  - intros block [= <-]. reflexivity.
Defined.

(** ** Tables *)





(** ** Sanitized names *)

Lemma str_forall_impl (P Q : ascii → Prop) (s : string) :
  (∀ c, P c → Q c) → str_forall P s → str_forall Q s.
Proof. induction s; simpl; naive_solver. Qed.

Lemma str_forall_replace_invalid (s : string) :
  str_forall (λ c, is_invalid_char c = false) (replace_invalid s).
Proof.
  induction s as [|c s IH]; simpl; [done|]. split; [|done].
  by destruct (is_invalid_char c) eqn:Hc.
Qed.

Lemma str_forall_lstrip (P : ascii → Prop) (p : ascii → bool) (s : string) :
  str_forall P s → str_forall P (Py.lstrip p s).
Proof.
  induction s as [|c s IH]; simpl; [done|]. intros [Hc Hs].
  destruct (p c); [by apply IH|by split].
Qed.

Lemma str_forall_rstrip (P : ascii → Prop) (p : ascii → bool) (s : string) :
  str_forall P s → str_forall P (Py.rstrip p s).
Proof.
  induction s as [|c s IH]; simpl; [done|]. intros [Hc Hs].
  specialize (IH Hs). destruct (Py.rstrip p s); [by destruct (p c)|by split].
Qed.

Lemma str_forall_take (P : ascii → Prop) (n : nat) (s : string) :
  str_forall P s → str_forall P (Py.take n s).
Proof.
  revert s. induction n as [|n IH]; intros [|c s]; simpl; try done.
  intros [Hc Hs]. split; [done|by apply IH].
Qed.

Lemma str_forall_collapse (P : ascii → Prop) (in_run : bool) (s : string) :
  P " "%char → str_forall P s → str_forall P (collapse_spaces in_run s).
Proof.
  intros Hspace. revert in_run.
  induction s as [|c s IH]; intros in_run; simpl; [done|]. intros [Hc Hs].
  destruct (Py.isspace c); [destruct in_run|]; simpl; auto.
Qed.

Lemma first_char_lstrip (p : ascii → bool) (s : string) (c : ascii) :
  first_char (Py.lstrip p s) = Some c → p c = false.
Proof.
  induction s as [|a s IH]; simpl; [done|].
  destruct (p a) eqn:Ha; [done|]. simpl. by intros [= <-].
Qed.

Lemma first_char_rstrip (p : ascii → bool) (s : string) (c : ascii) :
  first_char (Py.rstrip p s) = Some c → first_char s = Some c.
Proof.
  destruct s as [|a s]; simpl; [done|].
  destruct (Py.rstrip p s); [by destruct (p a)|done].
Qed.

Lemma first_char_take (n : nat) (s : string) (c : ascii) :
  first_char (Py.take n s) = Some c → first_char s = Some c.
Proof. by destruct n, s. Qed.

Lemma first_char_collapse (s : string) (c : ascii) :
  first_char (collapse_spaces false s) = Some c →
  c = " "%char ∨ first_char s = Some c.
Proof.
  destruct s as [|a s]; simpl; [done|].
  destruct (Py.isspace a); simpl; intros [= <-]; auto.
Qed.

(** The first character of a sanitized name is no dot. *)
Lemma sanitize_filename_first_char (name : string) (max_length : nat) (c : ascii) :
  first_char (sanitize_filename name max_length) = Some c → c ≠ "."%char.
Proof.
  unfold sanitize_filename.
  set (u := Py.strip is_dot_or_space (replace_invalid name)).
  assert (∀ a, first_char (collapse_spaces false u) = Some a → a ≠ "."%char)
    as Hfirst.
  { intros a [->|Ha]%first_char_collapse; [done|].
    unfold u, Py.strip in Ha.
    apply first_char_rstrip, first_char_lstrip in Ha. by intros ->. }
  destruct (Py.truthy _); [|by intros [= <-]].
  destruct (max_length <? _); [|by apply Hfirst].
  intros Hc. by apply first_char_rstrip, first_char_take, Hfirst in Hc.
Qed.

Lemma sanitize_filename_no_invalid (name : string) (max_length : nat) :
  str_forall (λ c, is_invalid_char c = false)
             (sanitize_filename name max_length).
Proof.
  unfold sanitize_filename.
  assert (str_forall (λ c, is_invalid_char c = false)
            (collapse_spaces false
               (Py.strip is_dot_or_space (replace_invalid name)))) as Hall.
  { apply str_forall_collapse; [reflexivity|].
    apply str_forall_rstrip, str_forall_lstrip, str_forall_replace_invalid. }
  destruct (Py.truthy _); [|by vm_compute].
  destruct (max_length <? _); [|done].
  by apply str_forall_rstrip, str_forall_take.
Qed.

(** X7: a sanitized name is a single safe path segment: it is not empty,
    it holds none of the characters a slash, a backslash, a colon, a star,
    a question mark, a double quote, an angle bracket or a vertical bar,
    it does not begin with a dot (so it is neither the current nor the
    parent directory), and it is at most [max_length] long when
    [max_length] is 8 or more. *)
Theorem sanitize_filename_is_a_safe_segment (name : string) (max_length : nat) :
  sanitize_filename name max_length ≠ "" ∧
  str_forall (λ c, is_invalid_char c = false)
             (sanitize_filename name max_length) ∧
  first_char (sanitize_filename name max_length) ≠ Some "."%char ∧
  (8 ≤ max_length →
   String.length (sanitize_filename name max_length) ≤ max_length).
Proof.
  split; [apply sanitize_filename_nonempty|].
  split; [apply sanitize_filename_no_invalid|].
  split; [|apply sanitize_filename_bounded].
  intros Hc. by apply sanitize_filename_first_char in Hc.
Qed.

Lemma sanitize_filename_is_a_safe_segment_witness :
  String.length (sanitize_filename "../a/b: c" default_max_length)
    ≤ default_max_length.
Proof.
  apply (sanitize_filename_is_a_safe_segment "../a/b: c" default_max_length).
  unfold default_max_length. lia.
Defined.

Lemma replace_invalid_id (s : string) :
  str_forall (λ c, is_invalid_char c = false) s → replace_invalid s = s.
Proof.
  induction s as [|c s IH]; simpl; [done|]. intros [-> Hs]. by rewrite IH.
Qed.

Lemma lstrip_id (p : ascii → bool) (s : string) :
  (∀ c, first_char s = Some c → p c = false) → Py.lstrip p s = s.
Proof.
  destruct s as [|a s]; simpl; [done|]. intros Hfirst.
  by rewrite (Hfirst a eq_refl).
Qed.

Lemma last_char_None (s : string) : last_char s = None → s = "".
Proof.
  destruct s as [|a s]; simpl; [done|]. by destruct (last_char s).
Qed.

Lemma rstrip_id (p : ascii → bool) (s : string) :
  (∀ c, last_char s = Some c → p c = false) → Py.rstrip p s = s.
Proof.
  induction s as [|a s IH]; simpl; [done|]. intros Hlast.
  destruct (last_char s) as [l|] eqn:Hl.
  - rewrite IH by done. destruct s; [discriminate Hl|done].
  - apply last_char_None in Hl as ->. simpl. by rewrite (Hlast a eq_refl).
Qed.

Lemma last_char_rstrip (p : ascii → bool) (s : string) (c : ascii) :
  last_char (Py.rstrip p s) = Some c → p c = false.
Proof.
  induction s as [|a s IH]; simpl; [done|].
  destruct (Py.rstrip p s) as [|b r] eqn:Hr.
  - destruct (p a) eqn:Ha; simpl; [done|]. by intros [= <-].
  - change (last_char (String a (String b r)))
      with (match last_char (String b r) with
            | None => Some a | Some l => Some l end).
    destruct (last_char (String b r)) as [l|] eqn:Hl.
    + intros [= <-]. by apply IH.
    + by apply last_char_None in Hl.
Qed.

Lemma last_char_collapse (in_run : bool) (s : string) (c : ascii) :
  last_char (collapse_spaces in_run s) = Some c →
  c = " "%char ∨ last_char s = Some c.
Proof.
  revert in_run. induction s as [|a s IH]; intros in_run; simpl; [done|].
  destruct (Py.isspace a).
  - destruct in_run.
    + intros Hc. destruct (IH _ Hc) as [->|Hs]; [by left|].
      right. by rewrite Hs.
    + simpl. destruct (last_char (collapse_spaces true s)) as [l|] eqn:Hl.
      * intros [= <-]. destruct (IH _ Hl) as [->|Hs]; [by left|].
        right. by rewrite Hs.
      * intros [= <-]. by left.
  - simpl. destruct (last_char (collapse_spaces false s)) as [l|] eqn:Hl.
    + intros [= <-]. destruct (IH _ Hl) as [->|Hs]; [by left|].
      right. by rewrite Hs.
    + intros [= <-]. apply last_char_None in Hl.
      destruct s as [|b s]; [by right|].
      simpl in Hl. by destruct (Py.isspace b).
Qed.

Lemma collapsed_collapse (in_run : bool) (s : string) :
  collapsed in_run (collapse_spaces in_run s).
Proof.
  revert in_run. induction s as [|a s IH]; intros in_run; simpl; [done|].
  destruct (Py.isspace a) eqn:Ha.
  - destruct in_run; [apply IH|]. simpl. repeat split. apply IH.
  - simpl. rewrite Ha. apply IH.
Qed.

Lemma collapsed_id (in_run : bool) (s : string) :
  collapsed in_run s → collapse_spaces in_run s = s.
Proof.
  revert in_run. induction s as [|a s IH]; intros in_run; simpl; [done|].
  destruct (Py.isspace a).
  - intros (-> & -> & Hs). by rewrite IH.
  - intros Hs. by rewrite IH.
Qed.

Lemma collapsed_take (in_run : bool) (n : nat) (s : string) :
  collapsed in_run s → collapsed in_run (Py.take n s).
Proof.
  revert in_run s. induction n as [|n IH]; intros in_run [|a s]; simpl;
    try done.
  destruct (Py.isspace a); [|by apply IH].
  intros (-> & -> & Hs). repeat split. by apply IH.
Qed.

Lemma collapsed_rstrip (p : ascii → bool) (in_run : bool) (s : string) :
  collapsed in_run s → collapsed in_run (Py.rstrip p s).
Proof.
  revert in_run. induction s as [|a s IH]; intros in_run; simpl; [done|].
  destruct (Py.isspace a) eqn:Ha.
  - intros (-> & -> & Hs). specialize (IH true Hs).
    destruct (Py.rstrip p s) as [|b r]; [destruct (p " "%char)|];
      simpl; rewrite ?Ha; done.
  - intros Hs. specialize (IH false Hs).
    destruct (Py.rstrip p s) as [|b r]; [destruct (p a)|];
      simpl; rewrite ?Ha; done.
Qed.

Lemma sanitize_filename_collapsed (name : string) (max_length : nat) :
  collapsed false (sanitize_filename name max_length).
Proof.
  unfold sanitize_filename.
  destruct (Py.truthy _); [|by vm_compute].
  destruct (max_length <? _); [|apply collapsed_collapse].
  apply collapsed_rstrip, collapsed_take, collapsed_collapse.
Qed.

Lemma sanitize_filename_edges (name : string) (max_length : nat) (c : ascii) :
  first_char (sanitize_filename name max_length) = Some c ∨
  last_char (sanitize_filename name max_length) = Some c →
  c = " "%char ∨ is_dot_or_space c = false.
Proof.
  unfold sanitize_filename.
  set (u := Py.strip is_dot_or_space (replace_invalid name)).
  assert (∀ a, first_char (collapse_spaces false u) = Some a →
               a = " "%char ∨ is_dot_or_space a = false) as Hfirst.
  { intros a [->|Ha]%first_char_collapse; [by left|]. right.
    unfold u, Py.strip in Ha. by apply first_char_rstrip, first_char_lstrip in Ha. }
  assert (∀ a, last_char (collapse_spaces false u) = Some a →
               a = " "%char ∨ is_dot_or_space a = false) as Hlast.
  { intros a [->|Ha]%last_char_collapse; [by left|]. right.
    unfold u, Py.strip in Ha. by apply last_char_rstrip in Ha. }
  destruct (Py.truthy _).
  2:{ intros [[= <-]|[= <-]]; by right. }
  destruct (max_length <? _).
  - intros [Hc|Hc].
    + by apply first_char_rstrip, first_char_take, Hfirst in Hc.
    + right. by apply last_char_rstrip in Hc.
  - intros [Hc|Hc]; auto.
Qed.

(** X8: when [max_length] is 8 or more, [sanitize_filename] leaves
    unchanged every name it returns that neither begins nor ends with a
    space: a second pass changes a sanitized name only at such a space. *)
Theorem sanitize_filename_idempotent_without_edge_space
    (name : string) (max_length : nat) :
  8 ≤ max_length →
  first_char (sanitize_filename name max_length) ≠ Some " "%char →
  last_char (sanitize_filename name max_length) ≠ Some " "%char →
  sanitize_filename (sanitize_filename name max_length) max_length =
    sanitize_filename name max_length.
Proof.
  intros Hmax Hfirst Hlast.
  pose proof (sanitize_filename_no_invalid name max_length) as Hvalid.
  pose proof (sanitize_filename_collapsed name max_length) as Hcollapsed.
  pose proof (sanitize_filename_bounded name max_length Hmax) as Hlen.
  pose proof (sanitize_filename_nonempty name max_length) as Hne.
  pose proof (sanitize_filename_edges name max_length) as Hedges.
  set (r := sanitize_filename name max_length) in *.
  unfold sanitize_filename at 1.
  rewrite (replace_invalid_id r Hvalid). unfold Py.strip.
  rewrite (lstrip_id _ r).
  2:{ intros c Hc. destruct (Hedges c (or_introl Hc)) as [->|Hd]; done. }
  rewrite (rstrip_id _ r).
  2:{ intros c Hc. destruct (Hedges c (or_intror Hc)) as [->|Hd]; done. }
  rewrite (collapsed_id false r Hcollapsed).
  assert ((max_length <? String.length r) = false) as ->
    by (apply Nat.ltb_ge; lia).
  by destruct r.
Qed.

Lemma sanitize_filename_idempotent_without_edge_space_witness :
  sanitize_filename (sanitize_filename "a/b: c" default_max_length)
                    default_max_length =
    sanitize_filename "a/b: c" default_max_length.
Proof.
  apply (sanitize_filename_idempotent_without_edge_space "a/b: c"
           default_max_length).
  - unfold default_max_length. lia.
  - discriminate.
  - discriminate.
Defined.

(** ** The exporter, one node at a time *)

(** [make_unique_filename] raises, or returns a path right in the base
    directory that does not exist. *)
Lemma make_unique_filename_cases (env : Surroundings) (fs : FileSystem)
    (base_path : Path) (name extension : string) :
  (∃ e, make_unique_filename env fs base_path name extension
          = Some (Raise e)) ∨
  (∃ file_name,
     make_unique_filename env fs base_path name extension
       = Some (Ok (path_join base_path file_name)) ∧
     path_exists fs (path_join base_path file_name) = false).
Proof.
  destruct (make_unique_filename_ends env fs base_path name extension)
    as (k & _ & Hat).
  cbv zeta in Hat. destruct (exists_raises env fs _) as [e|].
  - left. by exists e.
  - right. destruct Hat as [Hfree Hmk]. destruct k as [|k]; by eexists.
Qed.

(** What [write_file] does to the destination: nothing, or it puts some
    content at the path. *)
Lemma write_file_cases (env : Surroundings) (self : Exporter)
    (fs : FileSystem) (path : Path) (content : string) :
  let r := write_file env self fs path content in
  r.2 = fs ∨
  ∃ written, r.2 = {| fs_files := <[path := written]> (fs_files fs);
                      fs_dirs := fs_dirs fs |}.
Proof.
  unfold write_file. destruct (dry_run self); [by left|].
  destruct (write_raises env fs path content) as [[partial|]|]; simpl;
    [right|left|right]; by eexists.
Qed.

(** X9: the export of a childless node never changes or removes what is
    at the destination already: the directories stay as they are, and the
    files are those before the call, or those and one new file at a path
    that did not exist. *)
Theorem leaf_export_never_overwrites
    (env : Surroundings)
    (node : PageNode) (parent_path : Path) (self : Exporter) (fs : FileSystem) :
  children node = [] →
  let r := export_node env node parent_path self fs in
  fs_dirs r.2 = fs_dirs fs ∧
  (fs_files r.2 = fs_files fs ∨
   ∃ path content,
     path_exists fs path = false ∧
     fs_files r.2 = <[path := content]> (fs_files fs)) ∧
  (∀ path, path_exists fs path = true →
           fs_files r.2 !! path = fs_files fs !! path).
Proof.
  intros Hleaf r.
  assert (fs_dirs r.2 = fs_dirs fs ∧
          (fs_files r.2 = fs_files fs ∨
           ∃ path content,
             path_exists fs path = false ∧
             fs_files r.2 = <[path := content]> (fs_files fs))) as [Hdirs Hfiles].
  { unfold r. rewrite export_node_unfold, Hleaf.
    destruct (export_page_content env self (page_id node))
      as [[content|] self1]; [|by split; [|left]].
    destruct (make_unique_filename_cases env fs parent_path (title node) ".md")
      as [[e ->]|(file_name & -> & Hfree)]; [by split; [|left]|].
    pose proof (write_file_cases env self1 fs (path_join parent_path file_name)
                  content) as Hwrite.
    destruct (write_file env self1 fs _ content) as [[written self2] fs2].
    cbn [snd] in Hwrite.
    assert (fs_dirs fs2 = fs_dirs fs ∧
            (fs_files fs2 = fs_files fs ∨
             ∃ path content0,
               path_exists fs path = false ∧
               fs_files fs2 = <[path := content0]> (fs_files fs))) as Hfs2.
    { destruct Hwrite as [->|[w ->]]; [by split; [|left]|].
      split; [done|]. right. by exists (path_join parent_path file_name), w. }
    by destruct written. }
  split; [done|]. split; [done|].
  intros path Hpath. destruct Hfiles as [->|(new & content & Hnew & ->)]; [done|].
  apply lookup_insert_ne. intros ->. congruence.
Qed.

Lemma leaf_export_never_overwrites_witness :
  let fs := {| fs_files := {[ ["out"; "Notes.md"] := "kept" ]}; fs_dirs := ∅ |} in
  let r := export_node quiet (leaf_node "n1" "Notes") ["out"]
                       notes_exporter fs in
  fs_files r.2 !! ["out"; "Notes.md"] = Some "kept".
Proof.
  intros fs r.
  destruct (leaf_export_never_overwrites quiet
              (leaf_node "n1" "Notes") ["out"] notes_exporter fs eq_refl)
    as (_ & _ & Hkept).
  unfold r. rewrite Hkept; reflexivity.
Defined.

(** A property of the exporter and the destination that every call of a
    loop keeps is kept by the loop. *)
Lemma export_each_keeps (P : Exporter → FileSystem → Prop)
    (export : PageNode → Exporter → FileSystem →
              Result bool * Exporter * FileSystem)
    (nodes : list PageNode) (self : Exporter) (fs : FileSystem) :
  Forall (λ node, ∀ self fs, P self fs →
                  P (export node self fs).1.2 (export node self fs).2) nodes →
  P self fs →
  P (export_each export nodes self fs).1.2 (export_each export nodes self fs).2.
Proof.
  intros Hnodes. revert self fs.
  induction Hnodes as [|node nodes Hnode _ IH]; intros self fs HP; [done|].
  simpl. specialize (Hnode self fs HP).
  destruct (export node self fs) as [[[b|e] self1] fs1]; [by apply IH|done].
Qed.

(** The steps of [export_node] between the content of the page and the
    loop over the children keep a property that [count_folder],
    [count_file], [count_page], [record_error] and the changes of the
    destination keep. *)
Lemma export_node_keeps (env : Surroundings)
    (P : Exporter → FileSystem → Prop) (node : PageNode) :
  (∀ self fs page_id,
     P self fs → P (export_page_content env self page_id).2 fs) →
  (∀ self fs path,
     P self fs →
     P (create_directory env self fs path).1.2
       (create_directory env self fs path).2) →
  (∀ self fs path content,
     P self fs →
     P (write_file env self fs path content).1.2
       (write_file env self fs path content).2) →
  (∀ self fs, P self fs → P (count_page self) fs) →
  (∀ self fs page_id e, P self fs → P (record_error self page_id e) fs) →
  ∀ parent_path self fs,
    P self fs →
    P (export_node env node parent_path self fs).1.2
      (export_node env node parent_path self fs).2.
Proof.
  intros Hcontent Hmkdir Hwrite Hpage Herror.
  induction node as [node IH] using PageNode_children_ind.
  intros parent_path self fs HP. rewrite export_node_unfold.
  specialize (Hcontent self fs (page_id node) HP).
  destruct (export_page_content env self (page_id node))
    as [[content|] self1]; [|done].
  cbn [snd] in Hcontent. cbv zeta.
  destruct (children node) as [|c cs] eqn:Hcs.
  - destruct (make_unique_filename env fs parent_path (title node) ".md")
      as [[file_path|e]|]; [|done|done].
    specialize (Hwrite self1 fs file_path content Hcontent).
    destruct (write_file env self1 fs file_path content)
      as [[written self2] fs2].
    cbn [fst snd] in Hwrite. destruct written; cbn [negb fst snd]; auto.
  - specialize (Hmkdir self1 fs (folder_of node parent_path) Hcontent).
    destruct (create_directory env self1 fs _) as [[created self2] fs2].
    cbn [fst snd] in Hmkdir. destruct created; cbn [negb fst snd]; [|auto].
    specialize (Hwrite self2 fs2 (index_of node parent_path) content Hmkdir).
    destruct (write_file env self2 fs2 _ content) as [[written self3] fs3].
    cbn [fst snd] in Hwrite. destruct written; cbn [negb fst snd]; [|auto].
    pose proof (export_each_keeps P
      (λ child, export_node env child (folder_of node parent_path))
      (c :: cs) (count_page self3) fs3) as Hloop.
    destruct (export_each _ (c :: cs) _ _) as [[raised self4] fs4].
    cbn [fst snd] in Hloop.
    assert (P self4 fs4) as Hfinal.
    { apply Hloop; [|by apply Hpage].
      eapply Forall_impl; [exact IH|]. intros child Hchild self' fs'.
      apply Hchild. }
    by destruct raised.
Qed.

Lemma export_node_preview (env : Surroundings)
    (fs0 : FileSystem) (files folders : nat) (node : PageNode) :
  ∀ parent_path self fs,
    preview_state fs0 files folders self fs →
    preview_state fs0 files folders
      (export_node env node parent_path self fs).1.2
      (export_node env node parent_path self fs).2.
Proof.
  apply export_node_keeps.
  - intros self fs page_id (Hdry & -> & Hfiles & Hfolders).
    unfold export_page_content.
    destruct (get_block_children (client self) page_id) as [blocks|e]; [|done].
    destruct (convert_raises env page_id blocks) as [[i e]|]; [done|].
    by destruct (convert_blocks (converter self) blocks).
  - intros self fs path (Hdry & -> & Hfiles & Hfolders).
    unfold create_directory. by rewrite Hdry.
  - intros self fs path content (Hdry & -> & Hfiles & Hfolders).
    unfold write_file. by rewrite Hdry.
  - by intros self fs (Hdry & -> & Hfiles & Hfolders).
  - by intros self fs page_id e (Hdry & -> & Hfiles & Hfolders).
Qed.

(** X10: in dry run mode an export, of one node with all below it or of
    the whole hierarchy, leaves the destination as it is and counts no
    file and no folder as created. *)
Theorem dry_run_creates_nothing
    (env : Surroundings)
    (self : Exporter) (fs : FileSystem) :
  dry_run self = true →
  (∀ node parent_path,
     let r := export_node env node parent_path self fs in
     r.2 = fs ∧
     files_created (stats r.1.2) = files_created (stats self) ∧
     folders_created (stats r.1.2) = folders_created (stats self)) ∧
  (∀ roots,
     let r := export_hierarchy env self fs roots in
     r.2 = fs ∧
     files_created (stats r.1.2) = files_created (stats self) ∧
     folders_created (stats r.1.2) = folders_created (stats self) ∧
     ∀ returned, r.1.1 = Ok returned →
       files_created returned = files_created (stats self) ∧
       folders_created returned = folders_created (stats self)).
Proof.
  intros Hdry. split.
  - intros node parent_path r.
    destruct (export_node_preview env fs
                (files_created (stats self)) (folders_created (stats self))
                node parent_path self fs) as (_ & ? & ? & ?); done.
  - intros roots r. unfold r, export_hierarchy, create_directory.
    rewrite Hdry. cbn [negb].
    pose proof (export_each_keeps
      (preview_state fs (files_created (stats self))
                     (folders_created (stats self)))
      (λ root, export_node env root (output_dir self))
      roots self fs) as Hloop.
    destruct (export_each _ roots self fs) as [[raised self2] fs2].
    destruct Hloop as (_ & ? & ? & ?); [|done|].
    { apply Forall_forall. intros root _ self' fs'.
      apply export_node_preview. }
    cbn [fst snd] in *. subst fs2.
    destruct raised; cbn [fst snd].
    + split; [done|]. split; [done|]. split; [done|].
      intros st Hst. discriminate Hst.
    + split; [done|]. split; [done|]. split; [done|].
      by intros st [= <-].
Qed.

Lemma dry_run_creates_nothing_witness :
  let self := new_exporter notes_client ["out"] true false in
  let r := export_hierarchy hostile self empty_fs
             [folder_node "n1" "Notes" [leaf_node "n2" "Notes"]] in
  r.2 = empty_fs ∧ files_created (stats r.1.2) = 0 ∧
  folders_created (stats r.1.2) = 0.
Proof.
  intros self r.
  destruct (dry_run_creates_nothing hostile self empty_fs eq_refl)
    as [_ Hall].
  destruct (Hall [folder_node "n1" "Notes" [leaf_node "n2" "Notes"]])
    as (Hfs & Hfiles & Hfolders & _).
  split; [exact Hfs|]. split; [exact Hfiles|exact Hfolders].
Defined.

(** ** The statistics of an export *)

Lemma export_each_accounting
    (export : PageNode → Exporter → FileSystem →
              Result bool * Exporter * FileSystem)
    (nodes : list PageNode) (self : Exporter) (fs : FileSystem) :
  Forall (λ node, ∀ self fs, errors_counted (stats self) →
                  accounted node (stats self) (export node self fs)) nodes →
  errors_counted (stats self) →
  errors_counted (stats (export_each export nodes self fs).1.2) ∧
  counted_at_most (sum_list (map count_pages nodes)) (stats self)
                  (stats (export_each export nodes self fs).1.2).
Proof.
  intros Hnodes. revert self fs.
  induction Hnodes as [|node nodes Hnode _ IH]; intros self fs Herr.
  - simpl. split; [done|]. unfold counted_at_most. lia.
  - simpl. destruct (Hnode self fs Herr) as (Herr1 & Hcount1 & _).
    destruct (export node self fs) as [[[b|e] self1] fs1]; simpl in *.
    + destruct (IH self1 fs1 Herr1) as [Herr2 Hcount2]. split; [done|].
      unfold counted_at_most in *. lia.
    + split; [done|]. unfold counted_at_most in *. lia.
Qed.

Lemma export_page_content_accounted (env : Surroundings) (self : Exporter)
    (page_id : string) :
  errors_counted (stats self) →
  let r := export_page_content env self page_id in
  errors_counted (stats r.2) ∧
  pages_exported (stats r.2) = pages_exported (stats self) ∧
  match r.1 with
  | Some _ => pages_failed (stats r.2) = pages_failed (stats self)
  | None => pages_failed (stats r.2) = S (pages_failed (stats self))
  end.
Proof.
  intros Herr. unfold export_page_content, errors_counted in *.
  destruct (get_block_children (client self) page_id) as [blocks|e].
  - destruct (convert_raises env page_id blocks) as [[i e]|].
    + simpl. rewrite length_app. simpl. split; [lia|done].
    + by destruct (convert_blocks (converter self) blocks).
  - simpl. rewrite length_app. simpl. split; [lia|done].
Qed.

Lemma export_node_accounted (env : Surroundings) (node : PageNode) :
  ∀ parent_path self fs,
    errors_counted (stats self) →
    accounted node (stats self) (export_node env node parent_path self fs).
Proof.
  induction node as [node IH] using PageNode_children_ind.
  intros parent_path self fs Herr.
  rewrite export_node_unfold.
  assert (1 ≤ count_pages node) as Hone by (destruct node; simpl; lia).
  pose proof (export_page_content_accounted env self (page_id node) Herr)
    as Hcontent.
  destruct (export_page_content env self (page_id node))
    as [[content|] self1]; cbv zeta in Hcontent; cbn [fst snd] in Hcontent;
    destruct Hcontent as (Herr1 & Hexp1 & Hfail1).
  2:{ unfold accounted, counted_at_most. cbn [fst snd].
      repeat split; try done; try lia. }
  cbv zeta.
  assert (∀ (self2 : Exporter) (fs2 : FileSystem) (msg : string),
    errors_counted (stats self2) →
    pages_exported (stats self2) = pages_exported (stats self) →
    pages_failed (stats self2) = pages_failed (stats self) →
    accounted node (stats self)
      (Ok false, record_error self2 (page_id node) msg, fs2)) as Hfails.
  { intros self2 fs2 msg Herr2 Hexp2 Hfail2.
    unfold accounted, errors_counted, counted_at_most in *. simpl.
    rewrite length_app. simpl. repeat split; try done; lia. }
  assert (∀ (self2 : Exporter) (fs2 : FileSystem) (e : string),
    errors_counted (stats self2) →
    pages_exported (stats self2) = pages_exported (stats self) →
    pages_failed (stats self2) = pages_failed (stats self) →
    accounted node (stats self) (Raise e, self2, fs2)) as Hraises.
  { intros self2 fs2 e Herr2 Hexp2 Hfail2.
    unfold accounted, errors_counted, counted_at_most in *. simpl.
    repeat split; try done; lia. }
  assert (∀ self2 fs2 path content,
    errors_counted (stats self2) →
    pages_exported (stats self2) = pages_exported (stats self) →
    pages_failed (stats self2) = pages_failed (stats self) →
    let w := write_file env self2 fs2 path content in
    errors_counted (stats w.1.2) ∧
    pages_exported (stats w.1.2) = pages_exported (stats self) ∧
    pages_failed (stats w.1.2) = pages_failed (stats self)) as Hwrite.
  { intros self2 fs2 path content0 Herr2 Hexp2 Hfail2. unfold write_file.
    destruct (dry_run self2); [done|].
    by destruct (write_raises env fs2 path content0). }
  destruct (children node) as [|c cs] eqn:Hcs.
  - destruct (make_unique_filename_cases env fs parent_path (title node) ".md")
      as [[e ->]|(file_name & -> & _)]; [by apply Hraises|].
    specialize (Hwrite self1 fs (path_join parent_path file_name) content
                       Herr1 Hexp1 Hfail1).
    destruct (write_file env self1 fs _ content) as [[written self2] fs2].
    cbv zeta in Hwrite. cbn [fst snd] in Hwrite.
    destruct Hwrite as (Herr2 & Hexp2 & Hfail2).
    destruct written; cbn [negb]; [|by apply Hfails].
    unfold accounted, errors_counted, counted_at_most in *. simpl.
    repeat split; try done; lia.
  - assert (errors_counted
              (stats (create_directory env self1 fs
                        (folder_of node parent_path)).1.2) ∧
            pages_exported
              (stats (create_directory env self1 fs
                        (folder_of node parent_path)).1.2)
              = pages_exported (stats self) ∧
            pages_failed
              (stats (create_directory env self1 fs
                        (folder_of node parent_path)).1.2)
              = pages_failed (stats self)) as Hmk.
    { unfold create_directory. destruct (dry_run self1); [done|].
      destruct (mkdir_raises env fs _); [done|].
      cbn [fst snd]. unfold count_folder, errors_counted in *.
      by destruct (decide _). }
    destruct (create_directory env self1 fs _) as [[created self2] fs2].
    cbn [fst snd] in Hmk. destruct Hmk as (Herr2 & Hexp2 & Hfail2).
    destruct created; cbn [negb]; [|by apply Hfails].
    specialize (Hwrite self2 fs2 (index_of node parent_path) content
                       Herr2 Hexp2 Hfail2).
    destruct (write_file env self2 fs2 _ content) as [[written self3] fs3].
    cbv zeta in Hwrite. cbn [fst snd] in Hwrite.
    destruct Hwrite as (Herr3 & Hexp3 & Hfail3).
    destruct written; cbn [negb]; [|by apply Hfails].
    pose proof (export_each_accounting
      (λ child, export_node env child (folder_of node parent_path))
      (c :: cs) (count_page self3) fs3) as Hall.
    destruct (export_each _ (c :: cs) _ _) as [[raised self4] fs4].
    cbn [fst snd] in Hall. destruct Hall as [Herr4 Hcount4].
    { eapply Forall_impl; [exact IH|]. intros child Hchild self' fs'.
      apply Hchild. }
    { done. }
    assert (count_pages node = 1 + sum_list (map count_pages (c :: cs)))
      as Hsize by (destruct node; simpl in *; by subst).
    destruct raised;
      unfold accounted, errors_counted, counted_at_most in *; simpl in *;
      repeat split; try done; lia.
Qed.

(** X11: an export keeps the list of errors as long as the counter of
    failed pages; it counts every page of the tree at most once, as
    exported or as failed; and [export_node] returns true only when it
    counted the page of the node itself as exported, and false only
    when it counted that page, and no other, as failed. *)
Theorem export_node_accounting
    (env : Surroundings)
    (node : PageNode) (parent_path : Path) (self : Exporter) (fs : FileSystem) :
  errors_counted (stats self) →
  let r := export_node env node parent_path self fs in
  errors_counted (stats r.1.2) ∧
  counted_at_most (count_pages node) (stats self) (stats r.1.2) ∧
  (r.1.1 = Ok true →
   pages_exported (stats self) < pages_exported (stats r.1.2)) ∧
  (r.1.1 = Ok false →
   pages_exported (stats r.1.2) = pages_exported (stats self) ∧
   pages_failed (stats r.1.2) = S (pages_failed (stats self))).
Proof. intros Herr. by apply export_node_accounted. Qed.

Lemma export_node_accounting_witness :
  let r := export_node no_files
             (folder_node "n1" "Notes" [leaf_node "n2" "Notes"]) ["out"]
             notes_exporter empty_fs in
  errors_counted (stats r.1.2) ∧
  counted_at_most 2 (stats notes_exporter) (stats r.1.2).
Proof.
  intros r.
  destruct (export_node_accounting no_files
              (folder_node "n1" "Notes" [leaf_node "n2" "Notes"]) ["out"]
              notes_exporter empty_fs eq_refl) as (Herr & Hcount & _).
  split; [exact Herr|exact Hcount].
Defined.

(** ** The shape of a built tree *)

Lemma well_linked_Forall (node : PageNode) :
  well_linked node ↔
  Forall (λ c, parent_id c = Some (page_id node) ∧ well_linked c)
         (children node).
Proof.
  destruct node as [id t parent cs db hc]. simpl.
  induction cs as [|c cs IH]; simpl.
  - split; [constructor|done].
  - rewrite Forall_cons, <- IH. tauto.
Qed.

Lemma tree_height_children (node : PageNode) (h : nat) :
  Forall (λ c, tree_height c ≤ h) (children node) →
  tree_height node ≤ S h.
Proof.
  destruct node as [id t parent cs db hc]. simpl. intros Hcs.
  assert (max_list (map tree_height cs) ≤ h); [|lia].
  induction Hcs as [|c cs Hc _ IH]; simpl; lia.
Qed.

(** The loop over the child blocks: the nodes it collects are built for
    identifiers taken, in order, from the blocks. *)
Lemma build_children_built
    (build : string → BuildState → option (option PageNode * BuildState))
    (parent : string) (levels : nat) (blocks : list Block) :
  (∀ child_id st node st',
     build child_id st = Some (Some node, st') →
     built_for child_id (Some parent) levels node) →
  ∀ (acc : list PageNode) (st : BuildState) cs st',
    build_children build blocks acc st = Some (Some cs, st') →
    ∃ more ids,
      cs = acc ++ more ∧
      ids `sublist_of` omap b_id blocks ∧
      Forall2 (λ id node, built_for id (Some parent) levels node) ids more.
Proof.
  intros Hbuild.
  induction blocks as [|block blocks IH]; intros acc st cs st' Hrun;
    simpl in Hrun.
  - injection Hrun as <- <-. exists [], []. by rewrite app_nil_r.
  - destruct (b_id block) as [child_id|] eqn:Hid; [|discriminate Hrun].
    simpl. rewrite Hid. simpl.
    destruct (build child_id st) as [[[node|] st1]|] eqn:Hcall; [| |done].
    + destruct (IH _ _ _ _ Hrun) as (more & ids & -> & Hsub & Hall).
      exists (node :: more), (child_id :: ids).
      rewrite <- app_assoc. split; [done|]. split; [by apply sublist_skip|].
      constructor; [by eapply Hbuild|done].
    + destruct (IH _ _ _ _ Hrun) as (more & ids & -> & Hsub & Hall).
      exists more, ids. split; [done|]. split; [by apply sublist_cons|done].
Qed.

Lemma build_page_tree_fuel_built (fuel : nat) (client : NotionClient)
    (pid : string) (parent : option string) (st : BuildState)
    (depth max_depth : nat) (node : PageNode) (st' : BuildState) :
  build_page_tree_fuel fuel client pid parent st depth max_depth
    = Some (Some node, st') →
  built_for pid parent (max_depth - depth) node ∧
  ∃ page ids,
    get_page client pid = Ok page ∧
    title node = extract_page_title page ∧
    is_database node = opt_is (pg_object page) "database" ∧
    map page_id (children node) = ids ∧
    ids `sublist_of`
      omap b_id (discover_child_pages client pid
                   (mark_visited st pid)).1.
Proof.
  revert pid parent st depth node st'.
  induction fuel as [|fuel IH]; intros pid parent st depth node st' Hrun;
    [done|].
  simpl in Hrun.
  destruct (decide (pid ∈ visited st)); [discriminate Hrun|].
  destruct (max_depth <=? depth) eqn:Hdepth; [discriminate Hrun|].
  apply Nat.leb_gt in Hdepth.
  destruct (get_page client pid) as [page|e]; [|discriminate Hrun].
  destruct (discover_child_pages client pid _) as [blocks st1].
  destruct (build_children _ blocks [] st1) as [[[cs|] st2]|] eqn:Hloop;
    [|discriminate Hrun|discriminate Hrun].
  injection Hrun as <- <-.
  destruct (build_children_built _ pid (max_depth - S depth) blocks
              (λ child_id st0 node0 st0' Hcall,
                 proj1 (IH child_id (Some pid) st0 (S depth) node0 st0'
                           Hcall))
              _ _ _ _ Hloop) as (more & ids & -> & Hsub & Hall).
  set (built := {| page_id := pid;
                   title := extract_page_title page;
                   parent_id := parent; children := [] ++ more;
                   is_database := opt_is (pg_object page) "database";
                   has_content := true |}).
  split.
  - unfold built_for. split; [done|]. split; [done|]. split; [done|]. split.
    + apply well_linked_Forall. unfold built. cbn [children page_id].
      eapply Forall2_Forall_r; [exact Hall|]. apply Forall_true.
      intros id node (Hid & Hparent & _ & Hlinked & _). done.
    + replace (max_depth - depth) with (S (max_depth - S depth)) by lia.
      apply tree_height_children. unfold built. cbn [children].
      eapply Forall2_Forall_r; [exact Hall|]. apply Forall_true.
      intros id node (_ & _ & _ & _ & Hheight). done.
  - exists page, ids. split; [done|]. split; [done|]. split; [done|].
    split; [|done]. unfold built. cbn [children app].
    clear -Hall. induction Hall as [|id node ids more [Hid _] _ IH]; simpl;
      [done|]. by rewrite Hid, IH.
Qed.

Lemma tree_paths_height (node : PageNode) :
  Forall (λ path, length path ≤ tree_height node) (tree_paths node).
Proof.
  induction node as [node IH] using PageNode_children_ind.
  destruct node as [id t parent cs db hc]. simpl in *.
  constructor; [simpl; lia|].
  apply Forall_forall. intros path Hpath.
  apply list_elem_of_In, in_map_iff in Hpath as (sub & <- & Hsub).
  apply in_flat_map in Hsub as (child & Hchild & Hsub).
  apply list_elem_of_In in Hchild, Hsub.
  rewrite Forall_forall in IH. specialize (IH child Hchild).
  rewrite Forall_forall in IH. specialize (IH sub Hsub).
  assert (tree_height child ≤ max_list (map tree_height cs)).
  { apply max_list_elem_of_le. apply list_elem_of_fmap. by exists child. }
  simpl. lia.
Qed.

(** X12: a tree built at depth [depth] with bound [max_depth] has at most
    [max_depth - depth] levels: no path from its root is longer. *)
Theorem built_tree_respects_max_depth
    (client : NotionClient) (pid : string) (parent : option string)
    (st : BuildState) (depth max_depth : nat)
    (node : PageNode) (st' : BuildState) :
  build_page_tree client pid parent st depth max_depth
    = Some (Some node, st') →
  depth < max_depth ∧
  tree_height node ≤ max_depth - depth ∧
  Forall (λ path, length path ≤ max_depth - depth) (tree_paths node).
Proof.
  intros Hrun.
  destruct (build_page_tree_fuel_built _ _ _ _ _ _ _ _ _ Hrun)
    as [(_ & _ & _ & _ & Hheight) _].
  assert (1 ≤ tree_height node) by (destruct node; simpl; lia).
  split; [lia|]. split; [done|].
  eapply Forall_impl; [apply tree_paths_height|]. simpl. lia.
Qed.

Lemma built_tree_respects_max_depth_witness :
  0 < 2 ∧ tree_height cyclic_tree ≤ 2 - 0 ∧
  Forall (λ path, length path ≤ 2 - 0) (tree_paths cyclic_tree).
Proof.
  apply (built_tree_respects_max_depth (graph_client cyclic_graph) "A" None
           fresh_pass 0 2 cyclic_tree
           (state_of (build_page_tree (graph_client cyclic_graph) "A" None
                                      fresh_pass 0 2))).
  vm_compute. reflexivity.
Defined.

(** X13: the node [build_page_tree] returns stands for the page asked for:
    it carries its identifier and the parent given, its title and kind are
    read from the page the client returns, its children are built, in
    order, for identifiers of the child page and child database blocks of
    the page, and every node below it names the node it hangs from as its
    parent. *)
Theorem built_tree_mirrors_the_pages
    (client : NotionClient) (pid : string) (parent : option string)
    (st : BuildState) (depth max_depth : nat)
    (node : PageNode) (st' : BuildState) :
  build_page_tree client pid parent st depth max_depth
    = Some (Some node, st') →
  page_id node = pid ∧
  parent_id node = parent ∧
  well_linked node ∧
  ∃ page blocks,
    get_page client pid = Ok page ∧
    title node = extract_page_title page ∧
    is_database node = opt_is (pg_object page) "database" ∧
    (get_block_children client pid = Ok blocks ∨
     (∃ e, get_block_children client pid = Raise e) ∧ blocks = []) ∧
    map page_id (children node) `sublist_of`
      omap b_id (filter (λ block, is_child_block block = true) blocks).
Proof.
  intros Hrun.
  destruct (build_page_tree_fuel_built _ _ _ _ _ _ _ _ _ Hrun)
    as [(Hid & Hparent & _ & Hlinked & _)
        (page & ids & Hpage & Htitle & Hdb & <- & Hsub)].
  repeat split; try done.
  unfold discover_child_pages in Hsub.
  destruct (get_block_children client pid) as [blocks|e] eqn:Hget.
  - exists page, blocks. repeat split; try done. by left.
  - exists page, []. repeat split; try done. right. split; [by exists e|done].
Qed.

Lemma built_tree_mirrors_the_pages_witness :
  page_id cyclic_tree = "A" ∧
  parent_id cyclic_tree = None ∧
  well_linked cyclic_tree.
Proof.
  destruct (built_tree_mirrors_the_pages (graph_client cyclic_graph) "A" None
              fresh_pass 0 2 cyclic_tree
              (state_of (build_page_tree (graph_client cyclic_graph) "A" None
                                         fresh_pass 0 2)))
    as (Hid & Hparent & Hlinked & _).
  - vm_compute. reflexivity.
  - split; [exact Hid|]. split; [exact Hparent|exact Hlinked].
Defined.

(** ** What an export leaves at the destination *)

Lemma grows_below_refl (base : Path) (fs : FileSystem) : grows_below base fs fs.
Proof. split; [done|]. split; [done|]. intros path Hne. done. Qed.

Lemma path_exists_mono (fs fs' : FileSystem) (path : Path) :
  fs_dirs fs ⊆ fs_dirs fs' → dom (fs_files fs) ⊆ dom (fs_files fs') →
  path_exists fs' path = false → path_exists fs path = false.
Proof.
  unfold path_exists. intros Hdirs Hfiles Hfree.
  apply orb_false_iff in Hfree as [Hf Hd].
  apply bool_decide_eq_false in Hf, Hd.
  apply orb_false_iff. split; apply bool_decide_eq_false; set_solver.
Qed.

Lemma grows_below_trans (base : Path) (fs fs1 fs2 : FileSystem) :
  grows_below base fs fs1 → grows_below base fs1 fs2 → grows_below base fs fs2.
Proof.
  intros (Hd1 & Hf1 & Hc1) (Hd2 & Hf2 & Hc2).
  split; [set_solver|]. split; [set_solver|].
  intros path Hne.
  destruct (decide (fs_files fs1 !! path = fs_files fs !! path)) as [Heq|Hne1].
  - destruct (Hc2 path) as (rest & -> & Hrest & Hfresh); [congruence|].
    exists rest. split; [done|]. split; [done|].
    intros Hlen. eapply path_exists_mono; eauto.
  - by apply Hc1.
Qed.

(** What happens below a folder of [base] happens below [base], and not
    right in it. *)
Lemma grows_below_deeper (base : Path) (name : string) (fs fs' : FileSystem) :
  grows_below (path_join base name) fs fs' →
  fs_dirs fs ⊆ fs_dirs fs' ∧
  dom (fs_files fs) ⊆ dom (fs_files fs') ∧
  ∀ path, fs_files fs' !! path ≠ fs_files fs !! path →
    ∃ rest, path = base ++ rest ∧ 2 ≤ length rest.
Proof.
  intros (Hd & Hf & Hc). split; [done|]. split; [done|].
  intros path Hne. destruct (Hc path Hne) as (rest & -> & Hrest & _).
  exists (name :: rest). unfold path_join. rewrite <- app_assoc.
  split; [done|]. destruct rest; [done|]. simpl. lia.
Qed.

Lemma grows_below_folder (base : Path) (name : string) (fs fs' : FileSystem) :
  grows_below (path_join base name) fs fs' → grows_below base fs fs'.
Proof.
  intros H. destruct (grows_below_deeper _ _ _ _ H) as (Hd & Hf & Hc).
  split; [done|]. split; [done|]. intros path Hne.
  destruct (Hc path Hne) as (rest & -> & Hlen). exists rest.
  split; [done|]. split; [destruct rest; [simpl in Hlen; lia|done]|]. lia.
Qed.

(** [create_directory] adds directories and leaves the files alone,
    whether it succeeds or not. *)
Lemma create_directory_grows (env : Surroundings)
    (base : Path) (self : Exporter) (fs : FileSystem) (path : Path) :
  grows_below base fs (create_directory env self fs path).2 ∧
  fs_files (create_directory env self fs path).2 = fs_files fs.
Proof.
  unfold create_directory.
  destruct (dry_run self); [split; [apply grows_below_refl|done]|].
  destruct (mkdir_raises env fs path); simpl;
    (split; [|done]); (split; [simpl; set_solver|]); (split; [done|]);
    intros p Hne; done.
Qed.

Lemma export_each_grows (base : Path)
    (export : PageNode → Exporter → FileSystem →
              Result bool * Exporter * FileSystem)
    (nodes : list PageNode) (self : Exporter) (fs : FileSystem) :
  Forall (λ node, ∀ self fs, grows_below base fs (export node self fs).2) nodes →
  grows_below base fs (export_each export nodes self fs).2.
Proof.
  intros Hnodes. revert self fs.
  induction Hnodes as [|node nodes Hnode _ IH]; intros self fs.
  - apply grows_below_refl.
  - simpl. specialize (Hnode self fs).
    destruct (export node self fs) as [[[b|e] self1] fs1]; [|done].
    eapply grows_below_trans; [exact Hnode|apply IH].
Qed.

(** A file written, in full or in part, at a path right in [base] that
    did not exist. *)
Lemma write_file_fresh_grows (env : Surroundings)
    (base : Path) (name : string) (self : Exporter) (fs : FileSystem)
    (content : string) :
  path_exists fs (path_join base name) = false →
  grows_below base fs
    (write_file env self fs (path_join base name) content).2.
Proof.
  intros Hfree.
  destruct (write_file_cases env self fs (path_join base name) content)
    as [->|[written ->]]; [apply grows_below_refl|].
  split; [done|]. split; [simpl; set_solver|].
  intros p Hne. simpl in Hne.
  destruct (decide (p = path_join base name)) as [->|Hp].
  - exists [name]. split; [done|]. split; [done|]. done.
  - by rewrite lookup_insert_ne in Hne.
Qed.

(** The [index.md] of a folder of [base], written in full or in part. *)
Lemma write_file_index_grows (env : Surroundings)
    (base : Path) (name : string) (self : Exporter) (fs : FileSystem)
    (content : string) :
  grows_below base fs
    (write_file env self fs
       (path_join (path_join base name) "index.md") content).2.
Proof.
  destruct (write_file_cases env self fs
              (path_join (path_join base name) "index.md") content)
    as [->|[written ->]]; [apply grows_below_refl|].
  split; [done|]. split; [simpl; set_solver|].
  intros p Hne. simpl in Hne.
  destruct (decide (p = path_join (path_join base name) "index.md")) as [->|Hp].
  - exists [name; "index.md"]. unfold path_join. rewrite <- app_assoc.
    split; [done|]. split; [done|]. simpl. lia.
  - by rewrite lookup_insert_ne in Hne.
Qed.

Lemma export_node_grows (env : Surroundings) (node : PageNode) :
  ∀ parent_path self fs,
    grows_below parent_path fs (export_node env node parent_path self fs).2.
Proof.
  induction node as [node IH] using PageNode_children_ind.
  intros parent_path self fs. rewrite export_node_unfold.
  destruct (export_page_content env self (page_id node))
    as [[content|] self1]; [|apply grows_below_refl].
  cbv zeta.
  destruct (children node) as [|c cs] eqn:Hcs.
  - destruct (make_unique_filename_cases env fs parent_path (title node) ".md")
      as [[e ->]|(file_name & -> & Hfree)]; [apply grows_below_refl|].
    pose proof (write_file_fresh_grows env parent_path file_name
                  self1 fs content Hfree) as Hwrite.
    destruct (write_file env self1 fs _ content) as [[written self2] fs2].
    by destruct written.
  - unfold index_of, folder_of.
    set (folder_name := sanitize_filename (title node) default_max_length).
    pose proof (create_directory_grows env parent_path self1 fs
                  (path_join parent_path folder_name)) as [Hmk _].
    destruct (create_directory env self1 fs _) as [[created self2] fs2].
    cbn [snd] in Hmk.
    destruct created; cbn [negb]; [|exact Hmk].
    pose proof (write_file_index_grows env parent_path folder_name
                  self2 fs2 content) as Hwr.
    destruct (write_file env self2 fs2 _ content) as [[written self3] fs3].
    cbn [snd] in Hwr.
    destruct written; cbn [negb]; [|by eapply grows_below_trans].
    pose proof (export_each_grows (path_join parent_path folder_name)
      (λ child, export_node env child (path_join parent_path folder_name))
      (c :: cs) (count_page self3) fs3) as Hloop.
    destruct (export_each _ (c :: cs) _ _) as [[raised self4] fs4].
    cbn [snd] in *.
    assert (grows_below parent_path fs fs4) as Hfinal.
    { eapply grows_below_trans; [exact Hmk|].
      eapply grows_below_trans; [exact Hwr|].
      apply grows_below_folder with folder_name. apply Hloop.
      eapply Forall_impl; [exact IH|]. intros child Hchild self' fs'.
      apply Hchild. }
    by destruct raised.
Qed.

(** X14: an export changes files below the directory it is given only.
    Directories and file names are never removed; a file whose content
    differs after the call lies below [parent_path]; and a file right in
    [parent_path] differs only if the node has no children and the path
    did not exist before. *)
Theorem export_writes_only_below_its_parent
    (env : Surroundings)
    (node : PageNode) (parent_path : Path) (self : Exporter) (fs : FileSystem) :
  let r := export_node env node parent_path self fs in
  fs_dirs fs ⊆ fs_dirs r.2 ∧
  dom (fs_files fs) ⊆ dom (fs_files r.2) ∧
  ∀ path, fs_files r.2 !! path ≠ fs_files fs !! path →
    ∃ rest, path = parent_path ++ rest ∧ rest ≠ [] ∧
            (length rest = 1 →
             path_exists fs path = false ∧ children node = []).
Proof.
  intros r.
  destruct (export_node_grows env node parent_path self fs)
    as (Hdirs & Hfiles & Hchanged).
  split; [done|]. split; [done|]. intros path Hne.
  destruct (Hchanged path Hne) as (rest & -> & Hrest & Hfresh).
  exists rest. split; [done|]. split; [done|]. intros Hlen.
  split; [by apply Hfresh|].
  destruct (children node) as [|c cs] eqn:Hcs; [done|]. exfalso.
  unfold r in Hne. rewrite export_node_unfold in Hne.
  destruct (export_page_content env self (page_id node))
    as [[content|] self1]; [|done].
  cbv zeta in Hne. rewrite Hcs in Hne. unfold index_of, folder_of in Hne.
  set (folder_name := sanitize_filename (title node) default_max_length) in *.
  pose proof (create_directory_grows env parent_path self1 fs
                (path_join parent_path folder_name)) as [_ Hmk].
  destruct (create_directory env self1 fs _) as [[created self2] fs2].
  cbn [snd] in Hmk.
  destruct created; cbn [negb] in Hne; [|simpl in Hne; congruence].
  assert (∀ p, fs_files
                 (write_file env self2 fs2
                    (path_join (path_join parent_path folder_name) "index.md")
                    content).2 !! p ≠ fs_files fs2 !! p →
               p = parent_path ++ [folder_name; "index.md"]) as Hwr.
  { intros p.
    destruct (write_file_cases env self2 fs2
                (path_join (path_join parent_path folder_name) "index.md")
                content) as [->|[written ->]]; [done|].
    simpl. intros Hp.
    destruct (decide (p = path_join (path_join parent_path folder_name)
                                    "index.md")) as [->|Hother].
    - unfold path_join. by rewrite <- app_assoc.
    - by rewrite lookup_insert_ne in Hp. }
  destruct (write_file env self2 fs2 _ content) as [[written self3] fs3].
  cbn [snd] in Hwr.
  assert (fs_files fs3 !! (parent_path ++ rest) ≠ fs_files fs !! (parent_path ++ rest)
          → False) as Hsame3.
  { rewrite <- Hmk. intros Hp. apply Hwr in Hp.
    apply app_inv_head in Hp. subst rest. simpl in Hlen. lia. }
  destruct written; cbn [negb] in Hne; [|simpl in Hne; by apply Hsame3].
  pose proof (export_each_grows (path_join parent_path folder_name)
    (λ child, export_node env child (path_join parent_path folder_name))
    (c :: cs) (count_page self3) fs3) as Hloop.
  destruct (export_each _ (c :: cs) _ _) as [[raised self4] fs4].
  cbn [snd] in *.
  assert (fs_files fs4 !! (parent_path ++ rest)
          ≠ fs_files fs !! (parent_path ++ rest)) as Hne4
    by (by destruct raised).
  destruct (decide (fs_files fs4 !! (parent_path ++ rest)
                    = fs_files fs3 !! (parent_path ++ rest))) as [Heq|Hne43].
  - apply Hsame3. congruence.
  - destruct (grows_below_deeper parent_path folder_name fs3 fs4)
      as (_ & _ & Hdeep).
    { apply Hloop. apply Forall_forall. intros child _ self' fs'.
      apply export_node_grows. }
    destruct (Hdeep _ Hne43) as (rest' & Hpath & Hlen').
    apply app_inv_head in Hpath. subst rest'. lia.
Qed.

(** When no check of a path raises, no exception leaves an export. *)
Lemma export_each_never_raises
    (export : PageNode → Exporter → FileSystem →
              Result bool * Exporter * FileSystem)
    (nodes : list PageNode) :
  Forall (λ node, ∀ self fs e, (export node self fs).1.1 ≠ Raise e) nodes →
  ∀ self fs, (export_each export nodes self fs).1.1 = None.
Proof.
  intros Hall. induction Hall as [|node nodes Hnode _ IH]; intros self fs;
    [done|].
  simpl. specialize (Hnode self fs).
  destruct (export node self fs) as [[[b|e] self1] fs1]; [apply IH|].
  by specialize (Hnode e).
Qed.

Lemma export_node_never_raises (env : Surroundings) (node : PageNode) :
  (∀ fs path, exists_raises env fs path = None) →
  ∀ parent_path self fs e,
    (export_node env node parent_path self fs).1.1 ≠ Raise e.
Proof.
  intros Hquiet.
  induction node as [node IH] using PageNode_children_ind.
  intros parent_path self fs e. rewrite export_node_unfold.
  destruct (export_page_content env self (page_id node))
    as [[content|] self1]; [|done].
  cbv zeta. destruct (children node) as [|c cs] eqn:Hcs.
  - destruct (make_unique_filename_ends env fs parent_path (title node) ".md")
      as (k & _ & Hat).
    cbv zeta in Hat. rewrite Hquiet in Hat. destruct Hat as [_ ->].
    by destruct (write_file env self1 fs _ content) as [[[] ?] ?].
  - destruct (create_directory env self1 fs _) as [[[] self2] fs2]; [|done].
    cbn [negb].
    destruct (write_file env self2 fs2 _ content) as [[[] self3] fs3]; [|done].
    cbn [negb].
    pose proof (export_each_never_raises
      (λ child, export_node env child (folder_of node parent_path))
      (c :: cs)) as Hnone.
    specialize (Hnone ltac:(eapply Forall_impl; [exact IH|];
                            intros child Hchild self' fs' e'; apply Hchild)
                      (count_page self3) fs3).
    destruct (export_each _ (c :: cs) _ _) as [[raised self5] fs5].
    cbn [fst] in Hnone. by subst raised.
Qed.

(** X15: a node with children takes the file [index.md] of its folder,
    whatever was there: when its content is fetched, the folder is created
    and the file is written, the file holds the page after the export of
    the subtree, none of the pages below having changed it, whether the
    export of the subtree ends or an exception leaves it; and an export
    that ends returns true. *)
Theorem folder_index_holds_the_page
    (env : Surroundings)
    (node : PageNode) (parent_path : Path) (self : Exporter) (fs : FileSystem)
    (blocks : list Block) :
  let folder_path := folder_of node parent_path in
  let index_path := index_of node parent_path in
  let md := (convert_blocks (converter self) blocks).1 in
  children node ≠ [] →
  dry_run self = false →
  get_block_children (client self) (page_id node) = Ok blocks →
  convert_raises env (page_id node) blocks = None →
  mkdir_raises env fs folder_path = None →
  write_raises env (with_directory fs folder_path) index_path md = None →
  let r := export_node env node parent_path self fs in
  fs_files r.2 !! index_path = Some md ∧
  r.1.1 ≠ Ok false ∧
  ((∀ fs' path, exists_raises env fs' path = None) → r.1.1 = Ok true).
Proof.
  intros folder_path index_path md Hcs Hdry Hget Hconv Hmk Hwr r.
  assert (folder_ready env node parent_path self fs
            (count_page
               (count_file
                  (count_folder
                     (set_converter self
                        (convert_blocks (converter self) blocks).2)
                     folder_path)),
             {| fs_files := <[index_path := md]> (fs_files fs);
                fs_dirs := with_parents folder_path ∪ fs_dirs fs |}))
    as Hready.
  { exists blocks. split; [done|]. split; [done|]. cbv zeta. by rewrite Hdry. }
  pose proof (export_node_ready env node parent_path self fs _ Hcs Hready)
    as Hrun.
  cbv zeta in Hrun. cbn [fst snd] in Hrun. fold r in Hrun.
  set (start_self := count_page _) in Hrun.
  set (start_fs := {| fs_files := <[index_path := md]> (fs_files fs);
                      fs_dirs := with_parents folder_path ∪ fs_dirs fs |})
    in Hrun.
  pose proof (export_each_siblings env folder_path (children node) true
                start_self start_fs) as Hloop.
  pose proof (export_each_grows folder_path
    (λ child, export_node env child folder_path) (children node)
    start_self start_fs) as Hgrows.
  cbv zeta in Hloop. fold (after_siblings env folder_path start_self start_fs
                             (children node)) in Hloop.
  rewrite Hloop in Hgrows. cbn [snd] in Hgrows.
  destruct Hgrows as (_ & _ & Hchanged).
  { apply Forall_forall. intros child _ self' fs'. apply export_node_grows. }
  rewrite Hrun. cbn [fst snd]. split; [|split].
  - destruct (decide (fs_files
                        (after_siblings env folder_path start_self start_fs
                           (children node)).2 !! index_path = Some md))
      as [Hdone|Hne]; [done|].
    destruct (Hchanged index_path) as (rest & Hpath & _ & Hfresh).
    { unfold start_fs at 2. simpl. by rewrite lookup_insert_eq. }
    unfold index_path, index_of, path_join in Hpath.
    apply app_inv_head in Hpath. subst rest. specialize (Hfresh eq_refl).
    unfold path_exists in Hfresh.
    apply orb_false_iff in Hfresh as [Hfresh _].
    apply bool_decide_eq_false in Hfresh. simpl in Hfresh.
    exfalso. apply Hfresh. set_solver.
  - by destruct (after_siblings _ _ _ _ _).1.1.
  - intros Hquiet.
    pose proof (export_node_never_raises env node Hquiet parent_path self fs)
      as Hnever.
    fold r in Hnever. rewrite Hrun in Hnever. cbn [fst] in Hnever.
    destruct (after_siblings _ _ _ _ _).1.1 as [b|e]; [done|].
    by specialize (Hnever e).
Qed.

Lemma folder_index_holds_the_page_witness :
  let fs := {| fs_files := {[ ["out"; "Notes"; "index.md"] := "old" ]};
               fs_dirs := ∅ |} in
  let r := export_node quiet
             (folder_node "n1" "Notes" [leaf_node "n2" "index"]) ["out"]
             notes_exporter fs in
  fs_files r.2 !! ["out"; "Notes"; "index.md"] = Some "first" ∧
  r.1.1 ≠ Ok false.
Proof.
  intros fs r.
  destruct (folder_index_holds_the_page quiet
              (folder_node "n1" "Notes" [leaf_node "n2" "index"]) ["out"]
              notes_exporter fs
              [block_of "paragraph" "b1" (text_payload "first")])
    as (Hindex & Hended & _);
    first [reflexivity | discriminate | idtac].
  split; [exact Hindex|exact Hended].
Defined.

(** ** An export in which nothing fails *)

Lemma same_settings_refl (self : Exporter) : same_settings self self.
Proof. done. Qed.

Lemma same_settings_trans (a b c : Exporter) :
  same_settings a b → same_settings b c → same_settings a c.
Proof.
  unfold same_settings. intros (? & ? & ? & ?) (? & ? & ? & ?).
  repeat split; congruence.
Qed.

Lemma count_folder_settings (self : Exporter) (path : Path) :
  same_settings self (count_folder self path) ∧
  pages_exported (stats (count_folder self path)) = pages_exported (stats self) ∧
  pages_failed (stats (count_folder self path)) = pages_failed (stats self) ∧
  errors (stats (count_folder self path)) = errors (stats self) ∧
  files_created (stats (count_folder self path)) = files_created (stats self) ∧
  converter (count_folder self path) = converter self ∧
  stats_unsupported_features (stats (count_folder self path))
    = stats_unsupported_features (stats self).
Proof. unfold count_folder. by destruct (decide _). Qed.

(** No call changes the client, the output directory or the modes of the
    exporter. *)
Lemma export_node_settings (env : Surroundings) (before : Exporter)
    (node : PageNode) :
  ∀ parent_path self fs,
    same_settings before self →
    same_settings before (export_node env node parent_path self fs).1.2.
Proof.
  intros parent_path self fs.
  apply (export_node_keeps env (λ self' _, same_settings before self')).
  - intros self0 _ page_id Hsame. unfold export_page_content.
    destruct (get_block_children (client self0) page_id) as [blocks|e];
      [|done].
    destruct (convert_raises env page_id blocks) as [[i e]|]; [done|].
    by destruct (convert_blocks (converter self0) blocks).
  - intros self0 fs0 path Hsame. unfold create_directory.
    destruct (dry_run self0); [done|].
    destruct (mkdir_raises env fs0 path); [done|]. cbn [fst snd].
    eapply same_settings_trans; [exact Hsame|].
    apply count_folder_settings.
  - intros self0 fs0 path content Hsame. unfold write_file.
    destruct (dry_run self0); [done|].
    by destruct (write_raises env fs0 path content).
  - done.
  - done.
Qed.

Lemma all_exported_trans (n m : nat) (a b c : Exporter) :
  dry_run b = dry_run a →
  all_exported n a b → all_exported m b c → all_exported (n + m) a c.
Proof.
  unfold all_exported. intros Hdry (? & ? & ? & ?) (? & ? & ? & ?).
  rewrite Hdry in *. repeat split; try congruence; try lia.
  destruct (dry_run a); lia.
Qed.

Lemma export_each_all_exported
    (export : PageNode → Exporter → FileSystem →
              Result bool * Exporter * FileSystem)
    (c0 : NotionClient) (nodes : list PageNode) :
  Forall (λ node, ∀ self fs,
            client self = c0 →
            same_settings self (export node self fs).1.2 ∧
            (export node self fs).1.1 = Ok true ∧
            all_exported (count_pages node) self (export node self fs).1.2)
         nodes →
  ∀ self fs,
    client self = c0 →
    (export_each export nodes self fs).1.1 = None ∧
    all_exported (sum_list (map count_pages nodes)) self
                 (export_each export nodes self fs).1.2.
Proof.
  intros Hnodes.
  induction Hnodes as [|node nodes Hnode _ IH]; intros self fs Hclient.
  - simpl. split; [done|]. unfold all_exported. repeat split; try lia.
    destruct (dry_run self); lia.
  - simpl. destruct (Hnode self fs Hclient) as (Hsame & Hok & Hone).
    destruct (export node self fs) as [[returned self1] fs1].
    cbn [fst snd] in *. subst returned.
    destruct Hsame as (Hc & _ & Hd & _).
    destruct (IH self1 fs1) as [Hnone Hrest]; [congruence|].
    split; [done|].
    by apply (all_exported_trans _ _ self self1).
Qed.

Lemma export_node_all_exported (env : Surroundings) (node : PageNode) :
  calm env →
  ∀ parent_path self fs,
    fetched env (client self) (tree_ids node) →
    (export_node env node parent_path self fs).1.1 = Ok true ∧
    all_exported (count_pages node) self
      (export_node env node parent_path self fs).1.2.
Proof.
  intros (Hexists & Hmkdir & Hwrite).
  induction node as [node IH] using PageNode_children_ind.
  intros parent_path self fs Hfetched.
  assert (tree_ids node = page_id node :: flat_map tree_ids (children node))
    as Hids by (by destruct node).
  assert (count_pages node = 1 + sum_list (map count_pages (children node)))
    as Hsize by (by destruct node).
  rewrite Hids in Hfetched.
  apply Forall_cons in Hfetched as [(blocks & Hget & Hconv) Hbelow].
  rewrite export_node_unfold, (export_page_content_fetched _ _ _ blocks) by done.
  destruct (convert_blocks (converter self) blocks) as [md conv].
  cbv zeta. cbn [fst snd]. unfold create_directory, write_file.
  cbn [set_converter dry_run]. rewrite Hsize.
  destruct (children node) as [|c cs] eqn:Hcs.
  - destruct (make_unique_filename_ends env fs parent_path (title node) ".md")
      as (k & _ & Hat).
    cbv zeta in Hat. rewrite Hexists in Hat. destruct Hat as [_ ->].
    rewrite Hwrite. unfold all_exported.
    destruct (dry_run self); simpl; repeat split; lia.
  - rewrite Hmkdir.
    assert (∀ self1 fs1,
      client self1 = client self → dry_run self1 = dry_run self →
      all_exported 1 self (count_page self1) →
      let loop :=
        export_each
          (λ child, export_node env child (folder_of node parent_path))
          (c :: cs) (count_page self1) fs1 in
      loop.1.1 = None ∧
      all_exported (1 + sum_list (map count_pages (c :: cs))) self loop.1.2)
      as Hloop.
    { intros self1 fs1 Hc Hd Hone loop.
      destruct (export_each_all_exported
                  (λ child, export_node env child (folder_of node parent_path))
                  (client self) (c :: cs)) with (self := count_page self1)
                                                (fs := fs1)
        as [Hnone Hall]; [|done|].
      - apply Forall_forall. intros child Hchild self' fs' Hclient.
        split; [by apply export_node_settings|].
        rewrite Forall_forall in IH. apply IH; [done|].
        rewrite Hclient. unfold fetched in *. rewrite Forall_forall in Hbelow.
        apply Forall_forall. intros id Hid. apply Hbelow.
        apply list_elem_of_In, in_flat_map. exists child.
        split; by apply list_elem_of_In.
      - split; [done|].
        by apply (all_exported_trans _ _ self (count_page self1)). }
    destruct (dry_run self) eqn:Hdry; cbn [negb].
    + cbn [set_converter dry_run]. rewrite ?Hdry. cbn [negb].
      specialize (Hloop (set_converter self conv) fs eq_refl Hdry).
      cbv zeta in Hloop.
      destruct (export_each _ (c :: cs) _ _) as [[raised self4] fs4].
      cbn [fst snd] in Hloop. destruct Hloop as [-> Hall].
      { unfold all_exported. rewrite Hdry. simpl. repeat split; lia. }
      done.
    + destruct (count_folder_settings (set_converter self conv)
                  (folder_of node parent_path))
        as ((Hc & _ & Hd & _) & He & Hf & Herr & Hfiles & _).
      rewrite Hd. cbn [set_converter dry_run]. rewrite Hdry, Hwrite. cbn [negb].
      match goal with
      | |- context [export_each ?f ?l (count_page ?s) ?fs1] =>
        specialize (Hloop s fs1)
      end.
      cbv zeta in Hloop.
      destruct (export_each _ (c :: cs) _ _) as [[raised self4] fs4].
      cbn [fst snd] in Hloop. destruct Hloop as [-> Hall].
      * done.
      * simpl. by rewrite Hd.
      * unfold all_exported. rewrite Hdry. simpl in *.
        rewrite He, Hf, Herr, Hfiles. repeat split; lia.
      * done.
Qed.

(** X16: when the client serves every page of the tree, the conversion
    of none of them raises and no call to the operating system raises,
    [export_node] returns true, counts every page of the tree as exported
    and none as failed, records no error, and (outside a dry run) counts
    one file per page. *)
Theorem export_without_failure_counts_every_page
    (env : Surroundings)
    (node : PageNode) (parent_path : Path) (self : Exporter) (fs : FileSystem) :
  calm env →
  fetched env (client self) (tree_ids node) →
  let r := export_node env node parent_path self fs in
  r.1.1 = Ok true ∧
  pages_exported (stats r.1.2) = pages_exported (stats self) + count_pages node ∧
  pages_failed (stats r.1.2) = pages_failed (stats self) ∧
  errors (stats r.1.2) = errors (stats self) ∧
  files_created (stats r.1.2) =
    files_created (stats self) + (if dry_run self then 0 else count_pages node).
Proof.
  intros Hcalm Hfetched r.
  by apply export_node_all_exported.
Qed.

Lemma export_without_failure_counts_every_page_witness :
  let r := export_node quiet
             (folder_node "n1" "Notes" [leaf_node "n2" "Notes"]) ["out"]
             notes_exporter empty_fs in
  r.1.1 = Ok true ∧ pages_exported (stats r.1.2) = 2 ∧
  files_created (stats r.1.2) = 2.
Proof.
  intros r.
  destruct (export_without_failure_counts_every_page quiet
              (folder_node "n1" "Notes" [leaf_node "n2" "Notes"]) ["out"]
              notes_exporter empty_fs) as (Hok & Hpages & _ & _ & Hfiles).
  - repeat split.
  - repeat constructor; eexists; split; reflexivity.
  - split; [exact Hok|]. split; [exact Hpages|exact Hfiles].
Defined.

(** ** The whole export *)

Lemma convert_blocks_extends_log (self : MarkdownConverter)
    (blocks : list Block) :
  unsupported_features self `prefix_of`
    unsupported_features (convert_blocks self blocks).2.
Proof.
  unfold convert_blocks. cbn [snd]. rewrite final_state_run, run_log.
  simpl. by eexists.
Qed.

(** The log of the converter only grows during an export. *)
Lemma export_node_extends_log (env : Surroundings)
    (log : list UnsupportedFeature) (node : PageNode) :
  ∀ parent_path self fs,
    log `prefix_of` unsupported_features (converter self) →
    log `prefix_of`
      unsupported_features
        (converter (export_node env node parent_path self fs).1.2).
Proof.
  intros parent_path self fs.
  apply (export_node_keeps env
           (λ self' _, log `prefix_of` unsupported_features (converter self'))).
  - intros self0 _ page_id Hlog. unfold export_page_content.
    destruct (get_block_children (client self0) page_id) as [blocks|e];
      [|done].
    destruct (convert_raises env page_id blocks) as [[i e]|].
    + cbn [snd record_error set_stats set_converter converter].
      etrans; [exact Hlog|]. apply convert_blocks_extends_log.
    + pose proof (convert_blocks_extends_log (converter self0) blocks) as Hext.
      destruct (convert_blocks (converter self0) blocks) as [md conv].
      cbn [snd set_converter converter] in *. by etrans.
  - intros self0 fs0 path Hlog. unfold create_directory.
    destruct (dry_run self0); [done|].
    destruct (mkdir_raises env fs0 path); [done|]. cbn [fst snd].
    by destruct (count_folder_settings self0 path)
      as (_ & _ & _ & _ & _ & -> & _).
  - intros self0 fs0 path content Hlog. unfold write_file.
    destruct (dry_run self0); [done|].
    by destruct (write_raises env fs0 path content).
  - done.
  - done.
Qed.

(** An export does not touch the log kept in the statistics. *)
Lemma export_node_keeps_copied_log (env : Surroundings)
    (log : list UnsupportedFeature) (node : PageNode) :
  ∀ parent_path self fs,
    stats_unsupported_features (stats self) = log →
    stats_unsupported_features
      (stats (export_node env node parent_path self fs).1.2) = log.
Proof.
  intros parent_path self fs.
  apply (export_node_keeps env
           (λ self' _, stats_unsupported_features (stats self') = log)).
  - intros self0 _ page_id Hlog. unfold export_page_content.
    destruct (get_block_children (client self0) page_id) as [blocks|e];
      [|done].
    destruct (convert_raises env page_id blocks) as [[i e]|]; [done|].
    by destruct (convert_blocks (converter self0) blocks).
  - intros self0 fs0 path Hlog. unfold create_directory.
    destruct (dry_run self0); [done|].
    destruct (mkdir_raises env fs0 path); [done|]. cbn [fst snd].
    by destruct (count_folder_settings self0 path)
      as (_ & _ & _ & _ & _ & _ & ->).
  - intros self0 fs0 path content Hlog. unfold write_file.
    destruct (dry_run self0); [done|].
    by destruct (write_raises env fs0 path content).
  - done.
  - done.
Qed.

(** The directories on the way to a directory on the way to a path are
    on the way to the path. *)
Lemma with_parents_take (k : nat) (path : Path) :
  with_parents (take k path) ⊆ with_parents path.
Proof.
  unfold with_parents. intros p Hp.
  apply elem_of_list_to_set, list_elem_of_fmap in Hp as (j & -> & Hj).
  apply elem_of_seq in Hj. rewrite list.length_take in Hj.
  apply elem_of_list_to_set, list_elem_of_fmap. exists j. split.
  - rewrite take_take. f_equal. lia.
  - apply elem_of_seq. lia.
Qed.

(** X17: the whole export.  The statistics [export_hierarchy] returns are
    those of the exporter, and files change below the output directory
    only.  When the output directory cannot be created it returns at
    once: the exporter and its statistics are as before (no page is
    counted as failed, no error is recorded, the log of unsupported
    features is not copied), no file has changed, and only directories
    on the way to the output directory can have appeared.  Otherwise the
    log of the converter extends the log it held before; the statistics
    returned carry that log, while an exception that leaves the export
    leaves the statistics without it; and at most the pages of the roots
    are counted. *)
Theorem export_hierarchy_reports
    (env : Surroundings)
    (self : Exporter) (fs : FileSystem) (roots : list PageNode) :
  let r := export_hierarchy env self fs roots in
  (∀ returned, r.1.1 = Ok returned → returned = stats r.1.2) ∧
  grows_below (output_dir self) fs r.2 ∧
  (dry_run self = false →
   ∀ made, mkdir_raises env fs (output_dir self) = Some made →
   r.1.1 = Ok (stats self) ∧ r.1.2 = self ∧
   fs_files r.2 = fs_files fs ∧
   fs_dirs r.2 ⊆ with_parents (output_dir self) ∪ fs_dirs fs) ∧
  (dry_run self = true ∨ mkdir_raises env fs (output_dir self) = None →
   unsupported_features (converter self) `prefix_of`
     unsupported_features (converter r.1.2) ∧
   match r.1.1 with
   | Ok returned =>
     stats_unsupported_features returned
       = unsupported_features (converter r.1.2)
   | Raise _ =>
     stats_unsupported_features (stats r.1.2)
       = stats_unsupported_features (stats self)
   end ∧
   (errors_counted (stats self) →
    errors_counted (stats r.1.2) ∧
    counted_at_most (sum_list (map count_pages roots)) (stats self)
                    (stats r.1.2))).
Proof.
  intros r.
  assert (∀ ready,
    output_ready env self fs ready →
    same_settings self ready.1 ∧
    converter ready.1 = converter self ∧
    stats_unsupported_features (stats ready.1)
      = stats_unsupported_features (stats self) ∧
    pages_exported (stats ready.1) = pages_exported (stats self) ∧
    pages_failed (stats ready.1) = pages_failed (stats self) ∧
    errors (stats ready.1) = errors (stats self) ∧
    grows_below (output_dir self) fs ready.2) as Hstart.
  { intros ready Hready. unfold output_ready in Hready.
    destruct (dry_run self).
    - subst ready. cbn [fst snd]. repeat split; try done.
    - destruct Hready as [Hmk ->]. cbn [fst snd].
      destruct (count_folder_settings self (output_dir self))
        as (Hsame & He & Hf & Herr & _ & Hconv & Hlog).
      repeat split; try done; try apply Hsame. simpl. set_solver. }
  assert (∀ ready,
    output_ready env self fs ready →
    (∀ returned, r.1.1 = Ok returned → returned = stats r.1.2) ∧
    grows_below (output_dir self) fs r.2 ∧
    unsupported_features (converter self) `prefix_of`
      unsupported_features (converter r.1.2) ∧
    match r.1.1 with
    | Ok returned =>
      stats_unsupported_features returned
        = unsupported_features (converter r.1.2)
    | Raise _ =>
      stats_unsupported_features (stats r.1.2)
        = stats_unsupported_features (stats self)
    end ∧
    (errors_counted (stats self) →
     errors_counted (stats r.1.2) ∧
     counted_at_most (sum_list (map count_pages roots)) (stats self)
                     (stats r.1.2))) as Hrun.
  { intros [self0 fs0] Hready.
    destruct (Hstart _ Hready)
      as (Hsame & Hconv & Hlog & Hexp & Hfail & Herrs & Hgrow).
    cbn [fst snd] in *.
    pose proof (export_hierarchy_ready env self fs roots _ Hready) as Heq.
    cbv zeta in Heq. cbn [fst snd] in Heq. fold r in Heq.
    pose proof (export_each_siblings env (output_dir self) roots true
                  self0 fs0) as Hloop.
    cbv zeta in Hloop.
    fold (after_siblings env (output_dir self) self0 fs0 roots) in Hloop.
    pose proof (export_each_grows (output_dir self)
      (λ root, export_node env root (output_dir self)) roots self0 fs0)
      as Hfiles.
    pose proof (export_each_keeps
      (λ self' _, unsupported_features (converter self) `prefix_of`
                    unsupported_features (converter self'))
      (λ root, export_node env root (output_dir self)) roots self0 fs0)
      as Hprefix.
    pose proof (export_each_keeps
      (λ self' _, stats_unsupported_features (stats self')
                  = stats_unsupported_features (stats self))
      (λ root, export_node env root (output_dir self)) roots self0 fs0)
      as Hcopied.
    pose proof (export_each_accounting
      (λ root, export_node env root (output_dir self)) roots self0 fs0)
      as Hcount.
    rewrite Hloop in Hfiles, Hprefix, Hcopied, Hcount.
    cbn [fst snd] in Hfiles, Hprefix, Hcopied, Hcount.
    set (final := after_siblings env (output_dir self) self0 fs0 roots) in *.
    assert (grows_below (output_dir self) fs final.2) as Hgrows.
    { eapply grows_below_trans; [exact Hgrow|]. apply Hfiles.
      apply Forall_forall. intros root _ self' fs'. apply export_node_grows. }
    assert (unsupported_features (converter self) `prefix_of`
              unsupported_features (converter final.1.2)) as Hpre.
    { apply Hprefix.
      - apply Forall_forall. intros root _ self' fs'.
        apply export_node_extends_log.
      - by rewrite Hconv. }
    assert (stats_unsupported_features (stats final.1.2)
            = stats_unsupported_features (stats self)) as Hkept.
    { apply Hcopied; [|done].
      apply Forall_forall. intros root _ self' fs'.
      apply export_node_keeps_copied_log. }
    assert (errors_counted (stats self) →
            errors_counted (stats final.1.2) ∧
            counted_at_most (sum_list (map count_pages roots)) (stats self)
                            (stats final.1.2)) as Hcounted.
    { intros Herr.
      destruct Hcount as [Herr2 Hcount2].
      - apply Forall_forall. intros root _ self' fs' Herr'.
        by apply export_node_accounted.
      - unfold errors_counted in *. by rewrite Herrs, Hfail.
      - split; [done|]. unfold counted_at_most in *.
        by rewrite Hexp, Hfail in Hcount2. }
    rewrite Heq. destruct final.1.1 as [b|e]; cbn [fst snd].
    - split; [by intros returned [= <-]|]. split; [done|]. split; [done|].
      split; [done|]. done.
    - split; [by intros returned [=]|]. split; [done|]. split; [done|].
      split; [done|]. done. }
  destruct (dry_run self) eqn:Hdry.
  - destruct (Hrun (self, fs)) as (H1 & H2 & H3 & H4 & H5).
    { unfold output_ready. by rewrite Hdry. }
    split; [done|]. split; [done|]. split; [done|]. done.
  - destruct (mkdir_raises env fs (output_dir self)) as [made|] eqn:Hmk.
    + unfold r, export_hierarchy, create_directory. rewrite Hdry, Hmk.
      cbn [negb fst snd fs_files fs_dirs].
      split; [by intros returned [= <-]|]. split.
      { split; [simpl; set_solver|]. split; [done|]. by intros path Hne. }
      split.
      { intros _ made' [= <-]. split; [done|]. split; [done|]. split; [done|].
        pose proof (with_parents_take
                      (made `min` (length (output_dir self) - 1))
                      (output_dir self)).
        set_solver. }
      intros [?|?]; done.
    + destruct (Hrun (count_folder self (output_dir self),
                      with_directory fs (output_dir self)))
        as (H1 & H2 & H3 & H4 & H5).
      { unfold output_ready. by rewrite Hdry. }
      split; [done|]. split; [done|]. split; [by intros _ made [=]|]. done.
Qed.

Lemma export_hierarchy_reports_witness :
  let r := export_hierarchy no_directories notes_exporter empty_fs
             [leaf_node "n1" "Notes"] in
  r.1.1 = Ok (stats notes_exporter) ∧ r.1.2 = notes_exporter ∧
  fs_files r.2 = ∅.
Proof.
  intros r.
  destruct (export_hierarchy_reports no_directories notes_exporter empty_fs
              [leaf_node "n1" "Notes"]) as (_ & _ & Hfails & _).
  destruct (Hfails eq_refl 0 eq_refl) as (Hstats & Hself & Hfiles & _).
  split; [exact Hstats|]. split; [exact Hself|exact Hfiles].
Defined.

(** ** The roots of a workspace *)

(** What is known of a root that [build_page_tree] returns for a pass of
    its own. *)
Lemma build_page_tree_root (client : NotionClient) (pid : string)
    (max_depth : nat) (root : PageNode) (st : BuildState) :
  build_page_tree client pid None fresh_pass 0 max_depth = Some (Some root, st) →
  page_id root = pid ∧ parent_id root = None ∧
  built_alone client max_depth root ∧
  tree_height root ≤ max_depth ∧ NoDup (tree_ids root).
Proof.
  intros Hrun.
  destruct (build_page_tree_fuel_built _ _ _ _ _ _ _ _ _ Hrun)
    as [(Hid & Hparent & _ & _ & Hheight) _].
  destruct (build_page_tree_ok _ _ _ _ _ _ _ _ Hrun) as [_ [Hnodup _]].
  split; [done|]. split; [done|]. split; [|split; [lia|done]].
  exists st. by rewrite Hid.
Qed.

(** The loop over the pages found: it adds the root of each page, in
    order, up to a page without identifier. *)
Lemma build_roots_spec (client : NotionClient) (max_depth : nat)
    (root_pages : list FoundPage) :
  ∀ roots out,
    ∃ out',
      build_roots client max_depth root_pages roots out =
        Some (if all_identified root_pages
              then Ok (roots ++ omap (root_for client max_depth)
                                     (omap found_id root_pages))
              else Raise "'id'",
              out').
Proof.
  induction root_pages as [|page rest IH]; intros roots out.
  - exists out. simpl. by rewrite app_nil_r.
  - cbn [build_roots all_identified forallb].
    fold (all_identified rest).
    destruct (found_id page) as [pid|] eqn:Hid; [|by exists out].
    rewrite bool_decide_eq_true_2 by done. cbn [andb].
    assert (omap found_id (page :: rest) = pid :: omap found_id rest) as ->
      by (simpl; by rewrite Hid).
    assert (∀ l, omap (root_for client max_depth) (pid :: l) =
                 match root_for client max_depth pid with
                 | Some root => root :: omap (root_for client max_depth) l
                 | None => omap (root_for client max_depth) l
                 end) as Hcons by done.
    rewrite Hcons. unfold root_for at 1.
    destruct (build_page_tree_returns client pid None fresh_pass 0 max_depth)
      as [[[root|] st] Hrun]; rewrite Hrun.
    + destruct (IH (roots ++ [root]) (out ++ map FromBuild (console st)))
        as (out' & ->).
      exists out'. destruct (all_identified rest); [|done].
      by rewrite <- app_assoc.
    + destruct (IH roots (out ++ map FromBuild (console st))) as (out' & ->).
      by exists out'.
Qed.

Lemma build_full_hierarchy_expected (client : SearchClient)
    (root_page_id : option string) (max_depth : nat) :
  ∃ out,
    build_full_hierarchy client root_page_id max_depth =
      Some (expected_roots client root_page_id max_depth, out).
Proof.
  unfold build_full_hierarchy, expected_roots, root_candidates.
  destruct (Py.truthy_opt root_page_id) eqn:Htruthy; cbn [negb andb].
  - assert (omap (root_for client max_depth) [default "" root_page_id] =
            match root_for client max_depth (default "" root_page_id) with
            | Some root => [root]
            | None => []
            end) as -> by done.
    unfold root_for.
    destruct (build_page_tree_returns client (default "" root_page_id) None
                fresh_pass 0 max_depth) as [[[root|] st] Hrun]; rewrite Hrun;
      by eexists.
  - destruct (discover_all_root_pages client) as [root_pages out0].
    cbn [fst].
    destruct (build_roots_spec client max_depth root_pages []
                (out0 ++ [DiscoveredRoots (length root_pages)]))
      as (out' & ->).
    exists out'. by destruct (all_identified root_pages).
Qed.

(** X18: given that the calls of the client return, [build_full_hierarchy]
    ends, and what it returns is known exactly.  For a page asked for
    (a non-empty identifier) it is the root built for that page, if one is
    built, and the search plays no part: a client that differs in the
    search only gives the same.  With no page asked for (no identifier,
    or the empty one) it is, in order, the root of each page that the
    search found right in the workspace and for which one is built (no
    root when the search raises), unless a page found has no identifier:
    then the call raises.  Every root is built by a pass of its own, so
    what other roots visited plays no part; it has no parent, is at most
    [max_depth] levels high and holds no page twice. *)
Theorem build_full_hierarchy_roots (client : SearchClient)
    (root_page_id : option string) (max_depth : nat) :
  (∃ out,
     build_full_hierarchy client root_page_id max_depth =
       Some (expected_roots client root_page_id max_depth, out)) ∧
  (Py.truthy_opt root_page_id = true →
   ∀ other : SearchClient,
     pages_client other = pages_client client →
     build_full_hierarchy other root_page_id max_depth =
       build_full_hierarchy client root_page_id max_depth) ∧
  (∀ e, search_pages client = Raise e →
        expected_roots client None max_depth = Ok []) ∧
  (∀ pid root,
     root_for client max_depth pid = Some root →
     page_id root = pid ∧ parent_id root = None ∧
     built_alone client max_depth root ∧
     tree_height root ≤ max_depth ∧ NoDup (tree_ids root)).
Proof.
  split; [apply build_full_hierarchy_expected|]. split; [|split].
  - intros Htruthy other Hsame. unfold build_full_hierarchy.
    by rewrite Htruthy, Hsame.
  - intros e Hsearch.
    unfold expected_roots, root_candidates, discover_all_root_pages.
    by rewrite Hsearch.
  - intros pid root Hroot. unfold root_for in Hroot.
    destruct (build_page_tree client pid None fresh_pass 0 max_depth)
      as [[[built|] st]|] eqn:Hrun; [|done|done].
    injection Hroot as ->. by eapply build_page_tree_root.
Qed.

(** Two roots that share a page: C hangs below A and below B, each root
    being built by a pass of its own. *)
Example roots_are_built_apart :
  match build_full_hierarchy (workspace_client shared_graph ["A"; "B"]) None
                             default_max_depth with
  | Some (Ok roots, _) => map tree_ids roots
  | _ => []
  end = [["A"; "C"]; ["B"; "C"]].
Proof. vm_compute. reflexivity. Qed.

(** ** The export of a workspace *)

(** An exception that leaves an export is one that a check of a path
    raised. *)
Lemma export_each_raised
    (export : PageNode → Exporter → FileSystem →
              Result bool * Exporter * FileSystem)
    (P : string → Prop) (nodes : list PageNode) :
  Forall (λ node, ∀ self fs e, (export node self fs).1.1 = Raise e → P e)
         nodes →
  ∀ self fs e, (export_each export nodes self fs).1.1 = Some e → P e.
Proof.
  intros Hall. induction Hall as [|node nodes Hnode _ IH]; intros self fs e;
    [done|].
  simpl. specialize (Hnode self fs).
  destruct (export node self fs) as [[[b|e'] self1] fs1]; [apply IH|].
  cbn [fst]. intros [= <-]. by apply Hnode.
Qed.

Lemma export_node_raised (env : Surroundings) (node : PageNode) :
  ∀ parent_path self fs e,
    (export_node env node parent_path self fs).1.1 = Raise e →
    ∃ fs' path, exists_raises env fs' path = Some e.
Proof.
  induction node as [node IH] using PageNode_children_ind.
  intros parent_path self fs e. rewrite export_node_unfold.
  destruct (export_page_content env self (page_id node))
    as [[content|] self1]; [|done].
  cbv zeta. destruct (children node) as [|c cs] eqn:Hcs.
  - destruct (make_unique_filename_ends env fs parent_path (title node) ".md")
      as (k & _ & Hat).
    cbv zeta in Hat.
    destruct (exists_raises env fs _) as [e'|] eqn:Hraise.
    + rewrite Hat. cbn [fst]. intros [= <-]. by eexists _, _.
    + destruct Hat as [_ ->].
      by destruct (write_file env self1 fs _ content) as [[[] ?] ?].
  - destruct (create_directory env self1 fs _) as [[[] self2] fs2]; [|done].
    cbn [negb].
    destruct (write_file env self2 fs2 _ content) as [[[] self3] fs3]; [|done].
    cbn [negb].
    pose proof (export_each_raised
      (λ child, export_node env child (folder_of node parent_path))
      (λ e, ∃ fs' path, exists_raises env fs' path = Some e)
      (c :: cs)) as Hloop.
    specialize (Hloop ltac:(eapply Forall_impl; [exact IH|];
                            intros child Hchild self' fs' e'; apply Hchild)
                      (count_page self3) fs3).
    destruct (export_each _ (c :: cs) _ _) as [[[e'|] self5] fs5]; [|done].
    cbn [fst]. intros [= <-]. by apply Hloop.
Qed.

(** The whole export when nothing fails. *)
Lemma export_hierarchy_all_exported (env : Surroundings)
    (self : Exporter) (fs : FileSystem) (roots : list PageNode) :
  calm env →
  Forall (λ root, fetched env (client self) (tree_ids root)) roots →
  ∃ returned,
    (export_hierarchy env self fs roots).1.1 = Ok returned ∧
    pages_exported returned
      = pages_exported (stats self) + sum_list (map count_pages roots) ∧
    pages_failed returned = pages_failed (stats self).
Proof.
  intros Hcalm Hfetched. unfold export_hierarchy, create_directory.
  assert (∀ self0 fs0,
    same_settings self self0 →
    pages_exported (stats self0) = pages_exported (stats self) →
    pages_failed (stats self0) = pages_failed (stats self) →
    let loop :=
      export_each (λ root, export_node env root (output_dir self0))
                  roots self0 fs0 in
    loop.1.1 = None ∧
    pages_exported (stats loop.1.2)
      = pages_exported (stats self) + sum_list (map count_pages roots) ∧
    pages_failed (stats loop.1.2) = pages_failed (stats self)) as Hloop.
  { intros self0 fs0 (Hc & _) Hexp Hfail loop.
    destruct (export_each_all_exported
                (λ root, export_node env root (output_dir self0))
                (client self) roots) with (self := self0) (fs := fs0)
      as [Hnone (Hexp' & Hfail' & _)]; [|done|].
    - eapply Forall_impl; [exact Hfetched|].
      intros root Hroot self' fs' Hclient.
      split; [by apply export_node_settings|].
      apply export_node_all_exported; [done|]. by rewrite Hclient.
    - split; [done|]. fold loop in Hexp', Hfail'. split; congruence. }
  destruct (dry_run self) eqn:Hdry; cbn [negb].
  - specialize (Hloop self fs (same_settings_refl self) eq_refl eq_refl).
    cbv zeta in Hloop.
    destruct (export_each _ roots self fs) as [[raised self1] fs1].
    cbn [fst snd] in Hloop. destruct Hloop as (-> & Hexp & Hfail).
    by eexists.
  - destruct Hcalm as (_ & Hmkdir & _). rewrite Hmkdir. cbn [negb].
    destruct (count_folder_settings self (output_dir self))
      as (Hsame & Hexp0 & Hfail0 & _).
    specialize (Hloop (count_folder self (output_dir self))
                      {| fs_files := fs_files fs;
                         fs_dirs := with_parents (output_dir self) ∪ fs_dirs fs |}
                      Hsame Hexp0 Hfail0).
    cbv zeta in Hloop.
    destruct (export_each _ roots _ _) as [[raised self1] fs1].
    cbn [fst snd] in Hloop. destruct Hloop as (-> & Hexp & Hfail).
    by eexists.
Qed.

(** X19: given that the calls of the client return,
    [export_notion_workspace] ends, and it changes files below the output
    directory only.  When building the hierarchy raises, the exception
    leaves it and nothing is written.  When no root is built, and in a
    dry run, it returns statistics that are all zero and nothing is
    written.  Otherwise what it returns, or the exception that leaves it,
    and the destination are those of [export_hierarchy] on a fresh
    exporter and the roots built: statistics that are returned count at
    most the pages of these roots, with one recorded error for each
    failed page; they count every page as exported when nothing fails;
    and an exception is one that a check of a path raised. *)
Theorem export_notion_workspace_result
    (env : Surroundings)
    (client : SearchClient) (destination : Path) (page_id : option string)
    (preview include_databases : bool) (fs : FileSystem) :
  ∃ r fs',
    export_notion_workspace env client destination page_id
                            preview include_databases fs = Some (r, fs') ∧
    grows_below destination fs fs' ∧
    match expected_roots client page_id default_max_depth with
    | Raise e => r = Raise e ∧ fs' = fs
    | Ok roots =>
      if bool_decide (roots = []) || preview
      then r = Ok new_stats ∧ fs' = fs
      else
        let exported :=
          export_hierarchy env
            (new_exporter client destination false include_databases)
            fs roots in
        r = exported.1.1 ∧ fs' = exported.2 ∧
        (∀ returned,
           r = Ok returned →
           errors_counted returned ∧
           pages_exported returned + pages_failed returned
             ≤ sum_list (map count_pages roots)) ∧
        (calm env →
         Forall (λ root, fetched env client (tree_ids root)) roots →
         ∃ returned,
           r = Ok returned ∧
           pages_exported returned = sum_list (map count_pages roots) ∧
           pages_failed returned = 0) ∧
        (∀ e, r = Raise e → ∃ fs1 path, exists_raises env fs1 path = Some e)
    end.
Proof.
  unfold export_notion_workspace.
  destruct (build_full_hierarchy_expected client page_id default_max_depth)
    as (out & ->).
  destruct (expected_roots client page_id default_max_depth) as [roots|e].
  2:{ exists (Raise e), fs. split; [done|]. split; [apply grows_below_refl|].
      done. }
  destruct roots as [|root roots].
  { exists (Ok new_stats), fs. split; [done|].
    split; [apply grows_below_refl|]. done. }
  rewrite bool_decide_eq_false_2 by done. cbn [orb].
  destruct preview.
  { exists (Ok new_stats), fs. split; [done|].
    split; [apply grows_below_refl|]. done. }
  set (self := new_exporter client destination false include_databases).
  pose proof (export_hierarchy_reports env self fs (root :: roots)) as Hexp.
  pose proof (export_hierarchy_all_exported env self fs (root :: roots))
    as Hall.
  cbv zeta in Hexp.
  assert (∀ e, (export_hierarchy env self fs (root :: roots)).1.1 = Raise e →
               ∃ fs1 path, exists_raises env fs1 path = Some e) as Hraise.
  { intros e. unfold export_hierarchy.
    destruct (create_directory env self fs (output_dir self))
      as [[[] self1] fs1]; [|done].
    cbn [negb].
    pose proof (export_each_raised
      (λ node, export_node env node (output_dir self1))
      (λ e, ∃ fs1 path, exists_raises env fs1 path = Some e)
      (root :: roots)) as Hraised.
    specialize (Hraised ltac:(apply Forall_forall; intros node _ self' fs' e';
                              apply export_node_raised) self1 fs1).
    destruct (export_each _ (root :: roots) self1 fs1)
      as [[[e'|] self2] fs2]; [|done].
    cbn [fst]. intros [= <-]. by apply Hraised. }
  destruct (export_hierarchy env self fs (root :: roots))
    as [[returned self'] fs'].
  cbn [fst snd] in *. destruct Hexp as (Hstats & Hgrow & Hfails & Hruns).
  exists returned, fs'. split; [done|]. split; [exact Hgrow|].
  split; [done|]. split; [done|]. split; [|split; [|done]].
  - intros st ->. rewrite (Hstats st eq_refl).
    assert (errors_counted (stats self') ∧
            counted_at_most (sum_list (map count_pages (root :: roots)))
                            new_stats (stats self')) as [Herr Hcount].
    { destruct (mkdir_raises env fs (output_dir self)) as [made|] eqn:Hmk.
      - destruct (Hfails eq_refl made eq_refl) as (_ & -> & _).
        split; [done|]. unfold counted_at_most. simpl. lia.
      - destruct (Hruns (or_intror eq_refl)) as (_ & _ & Hcounted).
        by apply Hcounted. }
    split; [done|]. unfold counted_at_most in Hcount. simpl in *. lia.
  - intros Hcalm Hfetched. destruct (Hall Hcalm Hfetched)
      as (st & -> & Hexp' & Hfail'). by exists st.
Qed.
(** ** The paging loops of the client *)

Lemma while_has_more_served {A : Type}
    (request : option string → Result (NotionClientWrapper.Response A))
    (responses : list (NotionClientWrapper.Response A)) :
  ∀ fuel acc cursor,
    NotionClientWrapper.served request cursor responses →
    length responses ≤ fuel →
    NotionClientWrapper.while_has_more request fuel acc cursor =
      Some (Ok (acc ++ NotionClientWrapper.all_results responses)).
Proof.
  induction responses as [|response rest IH]; intros fuel acc cursor Hserved Hfuel;
    [done|].
  destruct fuel as [|fuel]; [simpl in Hfuel; lia|].
  destruct Hserved as [Hreq Hrest]. simpl. rewrite Hreq.
  destruct rest as [|next rest].
  - rewrite Hrest. unfold NotionClientWrapper.all_results. simpl.
    by rewrite app_nil_r.
  - destruct Hrest as [-> Hrest]. rewrite (IH fuel _ _ Hrest).
    + unfold NotionClientWrapper.all_results.
      change (flat_map ?f (response :: ?l)) with (f response ++ flat_map f l).
      by rewrite app_assoc.
    + simpl in *. lia.
Qed.

Lemma while_has_more_ends {A : Type}
    (request : option string → Result (NotionClientWrapper.Response A))
    (fuel : nat) :
  ∀ acc cursor l,
    NotionClientWrapper.while_has_more request fuel acc cursor = Some (Ok l) →
    ∃ responses,
      NotionClientWrapper.served request cursor responses ∧
      length responses ≤ fuel ∧
      l = acc ++ NotionClientWrapper.all_results responses.
Proof.
  induction fuel as [|fuel IH]; intros acc cursor l Hrun; [done|].
  simpl in Hrun.
  destruct (request cursor) as [response|e] eqn:Hreq; [|done].
  destruct (default false (NotionClientWrapper.has_more response)) eqn:Hmore.
  - destruct (IH _ _ _ Hrun) as (rest & Hserved & Hlen & ->).
    exists (response :: rest). split.
    + simpl. split; [done|]. destruct rest; [done|]. by split.
    + split; [simpl; lia|]. unfold NotionClientWrapper.all_results.
      change (flat_map ?f (response :: ?l)) with (f response ++ flat_map f l).
      by rewrite app_assoc.
  - injection Hrun as <-. exists [response]. split; [by split|].
    split; [simpl; lia|]. unfold NotionClientWrapper.all_results. simpl.
    by rewrite app_nil_r.
Qed.

Lemma while_has_more_spec {A : Type}
    (request : option string → Result (NotionClientWrapper.Response A))
    (fuel : nat) (l : list A) :
  NotionClientWrapper.while_has_more request fuel [] None = Some (Ok l) ↔
  ∃ responses,
    NotionClientWrapper.served request None responses ∧
    length responses ≤ fuel ∧
    l = NotionClientWrapper.all_results responses.
Proof.
  split.
  - intros Hrun. by apply while_has_more_ends in Hrun.
  - intros (responses & Hserved & Hlen & ->).
    by rewrite (while_has_more_served request responses fuel [] None).
Qed.

(** X20: the three paging methods of the client return a list exactly
    when the requests, the first without cursor and each further one with
    the [next_cursor] of the response before, reach a response that does
    not announce more; the list then holds the [results] of all these
    responses, in order.  (So the list does not depend on how long the
    loop may run, once it may run long enough.) *)
Theorem paging_returns_all_results (self : NotionClientWrapper.Client)
    (fuel : nat) :
  (∀ l,
     NotionClientWrapper.search_pages fuel self = Some (Ok l) ↔
     ∃ responses,
       NotionClientWrapper.served (NotionClientWrapper.search self) None
                                  responses ∧
       length responses ≤ fuel ∧
       l = NotionClientWrapper.all_results responses) ∧
  (∀ block_id l,
     NotionClientWrapper.get_block_children fuel self block_id = Some (Ok l) ↔
     ∃ responses,
       NotionClientWrapper.served
         (NotionClientWrapper.blocks_children_list self block_id) None
         responses ∧
       length responses ≤ fuel ∧
       l = NotionClientWrapper.all_results responses) ∧
  (∀ database_id l,
     NotionClientWrapper.query_database fuel self database_id = Some (Ok l) ↔
     ∃ responses,
       NotionClientWrapper.served
         (NotionClientWrapper.databases_query self database_id) None
         responses ∧
       length responses ≤ fuel ∧
       l = NotionClientWrapper.all_results responses).
Proof.
  split; [|split]; intros; apply while_has_more_spec.
Qed.

Lemma while_has_more_stuck {A : Type}
    (request : option string → Result (NotionClientWrapper.Response A))
    (cursor : option string) (response : NotionClientWrapper.Response A) :
  request cursor = Ok response →
  default false (NotionClientWrapper.has_more response) = true →
  NotionClientWrapper.next_cursor response = cursor →
  ∀ fuel acc, NotionClientWrapper.while_has_more request fuel acc cursor = None.
Proof.
  intros Hreq Hmore Hnext fuel.
  induction fuel as [|fuel IH]; intros acc; [done|].
  simpl. by rewrite Hreq, Hmore, Hnext.
Qed.

(** X21: a response that announces more without a [next_cursor] sends the
    loop back to the first request: when the first response of the server
    is such a response, [get_block_children] never returns, however long
    it runs. *)
Theorem paging_without_cursor_never_ends (self : NotionClientWrapper.Client)
    (block_id : string) (response : NotionClientWrapper.Response Block) :
  NotionClientWrapper.blocks_children_list self block_id None = Ok response →
  NotionClientWrapper.has_more response = Some true →
  NotionClientWrapper.next_cursor response = None →
  ∀ fuel, NotionClientWrapper.get_block_children fuel self block_id = None.
Proof.
  intros Hreq Hmore Hnext fuel.
  apply (while_has_more_stuck _ None response); [done| |done].
  by rewrite Hmore.
Qed.

Lemma paging_without_cursor_never_ends_witness :
  NotionClientWrapper.get_block_children 1000
    NotionClientWrapper.cursorless_client "p1" = None.
Proof.
  apply (paging_without_cursor_never_ends
           NotionClientWrapper.cursorless_client "p1"
           {| NotionClientWrapper.results :=
                Some [block_of "divider" "b1" empty_payload];
              NotionClientWrapper.has_more := Some true;
              NotionClientWrapper.next_cursor := None |});
    reflexivity.
Defined.
